(** * Redis response cache of the Portkey gateway demos

    A shallow embedding of [demos/caching/redis_caching_demo.py]: the
    [RedisCache] class ([get_cache_key], [get], [set], [clear]), the
    cached request [make_cached_chat_request] and the statistics of the two
    measurement scenarios, together with the parts of the Python runtime
    they rest on ([json.dumps], [json.loads], [str.encode],
    [hashlib.sha256]) and a model of the Redis server the client talks to.

    Conventions.
    - A Python [str] is the list of its code points ([pystr]).
    - A Python value that JSON can carry is a [pyval]; a dict is the list
      of its items in insertion order.  A float is carried as its literal
      text: its numeric value is not interpreted.
    - A call that can raise returns a [result]; code that touches the Redis
      server or the gateway runs in the monad [M] over a [world].

    Besides the cache, the development covers the configuration modules
    ([demos/config.py], [demos/fallback/config.py],
    [demos/load_balance/config.py]), the metrics classes of the fallback
    and load balancing demos and their request helpers.  Where that code
    computes with floats the arithmetic is a parameter ([FloatOps]). *)

From Stdlib Require Import ZArith NArith QArith List Ascii String Lia.
From Stdlib Require Import DecimalFacts DecimalPos DecimalN.
From stdpp Require Import gmap list sorting.

Set Default Proof Using "Type".

(** ** Python strings *)

Abbreviation pystr := (list N).

Definition ch (a : ascii) : N := N_of_ascii a.

(** The [str] literal with the given ASCII text. *)
Definition py (s : string) : pystr := map ch (list_ascii_of_string s).

Definition dquote : N := 34%N.
Definition backslash : N := 92%N.

(** [a < b] on [str]: lexicographic on code points. *)
Fixpoint str_ltb (a b : pystr) : bool :=
  match a, b with
  | [], [] => false
  | [], _ :: _ => true
  | _ :: _, [] => false
  | x :: a', y :: b' => (x <? y)%N || ((x =? y)%N && str_ltb a' b')
  end.

Definition str_leb (a b : pystr) : bool := negb (str_ltb b a).

(** [sep.join(parts)] *)
Fixpoint join (sep : pystr) (parts : list pystr) : pystr :=
  match parts with
  | [] => []
  | [p] => p
  | p :: rest => p ++ sep ++ join sep rest
  end.

(** [str.isspace] on one code point, and [str.strip()]. *)
Definition is_space (c : N) : bool :=
  ((9 <=? c) && (c <=? 13) || (28 <=? c) && (c <=? 32) || (c =? 133) || (c =? 160)
   || (c =? 5760) || (8192 <=? c) && (c <=? 8202) || (c =? 8232) || (c =? 8233)
   || (c =? 8239) || (c =? 8287) || (c =? 12288))%N.

Fixpoint lstrip (s : pystr) : pystr :=
  match s with
  | c :: r => if is_space c then lstrip r else s
  | [] => []
  end.

Definition strip (s : pystr) : pystr := rev (lstrip (rev (lstrip s))).

(** ** Python values *)

#[warnings="-register-all"]
Inductive pyval : Type :=
  | PNone
  | PBool (b : bool)
  | PInt (z : Z)
  | PFloat (repr : pystr)
  | PStr (s : pystr)
  | PList (l : list pyval)
  | PDict (d : list (pystr * pyval)).

Abbreviation pydict := (list (pystr * pyval)).

(** [d[k]] as a lookup, and [d[k] = v]: an existing key keeps its place. *)
Fixpoint dict_get (k : pystr) (d : pydict) : option pyval :=
  match d with
  | [] => None
  | (k', v) :: d' => if decide (k' = k) then Some v else dict_get k d'
  end.

Fixpoint dict_set (k : pystr) (v : pyval) (d : pydict) : pydict :=
  match d with
  | [] => [(k, v)]
  | (k', v') :: d' =>
      if decide (k' = k) then (k', v) :: d' else (k', v') :: dict_set k v d'
  end.

(** [dict(pairs)] and the comprehension [{k: v for k, v in pairs}]. *)
Definition dict_of_items (pairs : pydict) : pydict :=
  fold_left (fun d kv => dict_set kv.1 kv.2 d) pairs [].

(** The text of a float is zero when its mantissa has no digit 1..9
    (underflow of a nonzero literal is not modelled). *)
Fixpoint mantissa (r : pystr) : pystr :=
  match r with
  | [] => []
  | c :: r' => if ((c =? 101) || (c =? 69))%N then [] else c :: mantissa r'
  end.

Definition is_digit (c : N) : bool := ((48 <=? c) && (c <=? 57))%N.

Definition float_is_zero (r : pystr) : bool :=
  existsb is_digit r && negb (existsb (fun c => ((49 <=? c) && (c <=? 57))%N) (mantissa r)).

(** Truth value of an object, as [if x:] tests it. *)
Definition is_truthy (v : pyval) : bool :=
  match v with
  | PNone => false
  | PBool b => b
  | PInt z => negb (z =? 0)%Z
  | PFloat r => negb (float_is_zero r)
  | PStr s => negb (bool_decide (s = []))
  | PList l => negb (bool_decide (length l = 0))
  | PDict d => negb (bool_decide (length d = 0))
  end.

(** ** Exceptions *)

Inductive exn : Type :=
  | RedisError
  | JSONDecodeError
  | UnicodeEncodeError
  | KeyError (k : pyval)
  | IndexError
  | TypeError
  | AttributeError
  | APIError (msg : pystr).

Inductive result (A : Type) : Type :=
  | Ok (a : A)
  | Raise (e : exn).
Arguments Ok {A} a.
Arguments Raise {A} e.

Definition rbind {A B} (r : result A) (f : A -> result B) : result B :=
  match r with
  | Ok a => f a
  | Raise e => Raise e
  end.

(** ** [json.dumps]

    Default separators ([", "] and [": "]), [ensure_ascii=True]. *)

Definition hex_digit (n : N) : N :=
  (if n <? 10 then 48 + n else 87 + n)%N.

(** ['{0:04x}'.format(n)] for a 16-bit [n] *)
Definition hex4 (n : N) : pystr :=
  [hex_digit (N.shiftr n 12 mod 16); hex_digit (N.shiftr n 8 mod 16);
   hex_digit (N.shiftr n 4 mod 16); hex_digit (n mod 16)]%N.

Definition u_escape (n : N) : pystr := backslash :: 117%N :: hex4 n.

(** The replacement of one code point in [encode_basestring_ascii]:
    printable ASCII other than the quote and the backslash stays, the rest is
    escaped, code points beyond the BMP as a surrogate pair. *)
Definition escape_char (c : N) : pystr :=
  if (c =? dquote)%N then [backslash; dquote]
  else if (c =? backslash)%N then [backslash; backslash]
  else if (c =? 10)%N then [backslash; 110%N]
  else if (c =? 13)%N then [backslash; 114%N]
  else if (c =? 9)%N then [backslash; 116%N]
  else if (c =? 12)%N then [backslash; 102%N]
  else if (c =? 8)%N then [backslash; 98%N]
  else if ((32 <=? c) && (c <=? 126))%N then [c]
  else if (c <? 65536)%N then u_escape c
  else
    let v := (c - 65536)%N in
    u_escape (N.lor 55296 (N.land (N.shiftr v 10) 1023))
    ++ u_escape (N.lor 56320 (N.land v 1023)).

Fixpoint escape_chars (s : pystr) : pystr :=
  match s with
  | [] => []
  | c :: r => escape_char c ++ escape_chars r
  end.

Definition encode_basestring_ascii (s : pystr) : pystr :=
  dquote :: escape_chars s ++ [dquote].

(** [int.__repr__] *)
Fixpoint str_of_uint (d : Decimal.uint) : pystr :=
  match d with
  | Decimal.Nil => []
  | Decimal.D0 d' => 48%N :: str_of_uint d'
  | Decimal.D1 d' => 49%N :: str_of_uint d'
  | Decimal.D2 d' => 50%N :: str_of_uint d'
  | Decimal.D3 d' => 51%N :: str_of_uint d'
  | Decimal.D4 d' => 52%N :: str_of_uint d'
  | Decimal.D5 d' => 53%N :: str_of_uint d'
  | Decimal.D6 d' => 54%N :: str_of_uint d'
  | Decimal.D7 d' => 55%N :: str_of_uint d'
  | Decimal.D8 d' => 56%N :: str_of_uint d'
  | Decimal.D9 d' => 57%N :: str_of_uint d'
  end.

Definition str_of_N (n : N) : pystr := str_of_uint (N.to_uint n).

Definition str_of_Z (z : Z) : pystr :=
  match z with
  | Z0 => [48%N]
  | Zpos p => str_of_N (Npos p)
  | Zneg p => 45%N :: str_of_N (Npos p)
  end.

(** Items of a dict are compared by key: a dict has no two items with the
    same key, so [sorted(d.items())] never compares two values. *)
Definition item_le {A} (x y : pystr * A) : Prop := Is_true (str_leb x.1 y.1).

#[global] Instance item_le_dec {A} (x y : pystr * A) : Decision (item_le x y).
Proof. unfold item_le. apply _. Defined.

(** [sorted(d.items())] *)
Definition sorted_items {A} (d : list (pystr * A)) : list (pystr * A) :=
  merge_sort item_le d.

Definition sep_item : pystr := [44; 32]%N.
Definition sep_key : pystr := [58; 32]%N.

(** [json.dumps(v, sort_keys=sk)].  Each item of a dict is rendered to its
    key and the text of its value; with [sort_keys] the rendered items are
    put in key order before they are joined. *)
Fixpoint dumps (sk : bool) (v : pyval) : pystr :=
  match v with
  | PNone => py "null"
  | PBool true => py "true"
  | PBool false => py "false"
  | PInt z => str_of_Z z
  | PFloat r => r
  | PStr s => encode_basestring_ascii s
  | PList l => 91%N :: join sep_item (map (dumps sk) l) ++ [93%N]
  | PDict d =>
      let items := map (fun kv => match kv with (k, x) => (k, dumps sk x) end) d in
      let items := if sk then sorted_items items else items in
      123%N :: join sep_item
                 (map (fun kv => encode_basestring_ascii kv.1 ++ sep_key ++ kv.2) items)
        ++ [125%N]
  end.

(** ** [str.encode()]: UTF-8, errors='strict' *)

Definition utf8_char (c : N) : result (list N) :=
  (if c <? 128 then Ok [c]
   else if c <? 2048 then Ok [192 + N.shiftr c 6; 128 + c mod 64]
   else if (55296 <=? c) && (c <=? 57343) then Raise UnicodeEncodeError
   else if c <? 65536 then
     Ok [224 + N.shiftr c 12; 128 + N.shiftr c 6 mod 64; 128 + c mod 64]
   else if c <? 1114112 then
     Ok [240 + N.shiftr c 18; 128 + N.shiftr c 12 mod 64;
         128 + N.shiftr c 6 mod 64; 128 + c mod 64]
   else Raise UnicodeEncodeError)%N.

Fixpoint encode (s : pystr) : result (list N) :=
  match s with
  | [] => Ok []
  | c :: r =>
      rbind (utf8_char c) (fun bs => rbind (encode r) (fun rest => Ok (bs ++ rest)))
  end.

(** ** [hashlib.sha256], after FIPS 180-4

    Words are 32-bit, held in [N] and reduced after each addition. *)

Module SHA256.

Definition w32 : N := 4294967296%N.

Definition add32 (a b : N) : N := ((a + b) mod w32)%N.

Definition rotr (n x : N) : N :=
  (N.lor (N.shiftr x n) (N.shiftl x (32 - n) mod w32))%N.

Definition not32 (x : N) : N := N.lxor x 4294967295%N.

Definition Ch (e f g : N) : N := N.lxor (N.land e f) (N.land (not32 e) g).
Definition Maj (a b c : N) : N :=
  N.lxor (N.lxor (N.land a b) (N.land a c)) (N.land b c).
Definition bsig0 (x : N) : N := N.lxor (N.lxor (rotr 2 x) (rotr 13 x)) (rotr 22 x).
Definition bsig1 (x : N) : N := N.lxor (N.lxor (rotr 6 x) (rotr 11 x)) (rotr 25 x).
Definition ssig0 (x : N) : N := N.lxor (N.lxor (rotr 7 x) (rotr 18 x)) (N.shiftr x 3).
Definition ssig1 (x : N) : N := N.lxor (N.lxor (rotr 17 x) (rotr 19 x)) (N.shiftr x 10).

Definition K : list N :=
  [1116352408; 1899447441; 3049323471; 3921009573; 961987163; 1508970993;
   2453635748; 2870763221; 3624381080; 310598401; 607225278; 1426881987;
   1925078388; 2162078206; 2614888103; 3248222580; 3835390401; 4022224774;
   264347078; 604807628; 770255983; 1249150122; 1555081692; 1996064986;
   2554220882; 2821834349; 2952996808; 3210313671; 3336571891; 3584528711;
   113926993; 338241895; 666307205; 773529912; 1294757372; 1396182291;
   1695183700; 1986661051; 2177026350; 2456956037; 2730485921; 2820302411;
   3259730800; 3345764771; 3516065817; 3600352804; 4094571909; 275423344;
   430227734; 506948616; 659060556; 883997877; 958139571; 1322822218;
   1537002063; 1747873779; 1955562222; 2024104815; 2227730452; 2361852424;
   2428436474; 2756734187; 3204031479; 3329325298]%N.

Definition H0 : list N :=
  [1779033703; 3144134277; 1013904242; 2773480762;
   1359893119; 2600822924; 528734635; 1541459225]%N.

(** Padding: a 1 bit, zeros up to 56 mod 64 bytes, the bit length on 64 bits. *)
Definition be_bytes (k : nat) (x : N) : list N :=
  map (fun i => (N.shiftr x (8 * N.of_nat i) mod 256)%N) (rev (seq 0 k)).

Definition pad (msg : list N) : list N :=
  let len := length msg in
  msg ++ [128%N] ++ repeat 0%N ((119 - len mod 64) mod 64)%nat
      ++ be_bytes 8 (8 * N.of_nat len).

Definition be_word (bs : list N) : N :=
  fold_left (fun acc b => (acc * 256 + b)%N) bs 0%N.

Fixpoint words (n : nat) (bs : list N) : list N :=
  match n with
  | O => []
  | S n' => be_word (take 4 bs) :: words n' (drop 4 bs)
  end.

(** The message schedule, over a window of the last sixteen words. *)
Definition next_word (win : list N) : N :=
  add32 (add32 (ssig1 (nth 14 win 0%N)) (nth 9 win 0%N))
        (add32 (ssig0 (nth 1 win 0%N)) (nth 0 win 0%N)).

Fixpoint expand (n : nat) (win : list N) : list N :=
  match n with
  | O => []
  | S n' => let w := next_word win in w :: expand n' (tl win ++ [w])
  end.

Definition round (st : list N) (kw : N * N) : list N :=
  match st with
  | [a; b; c; d; e; f; g; h] =>
      let t1 := add32 (add32 (add32 h (bsig1 e)) (add32 (Ch e f g) kw.1)) kw.2 in
      let t2 := add32 (bsig0 a) (Maj a b c) in
      [add32 t1 t2; a; b; c; add32 d t1; e; f; g]
  | _ => st
  end.

Definition compress (h : list N) (block : list N) : list N :=
  let w16 := words 16 block in
  let w := w16 ++ expand 48 w16 in
  zip_with add32 h (fold_left round (zip K w) h).

Fixpoint blocks (n : nat) (h : list N) (bs : list N) : list N :=
  match n with
  | O => h
  | S n' => blocks n' (compress h (take 64 bs)) (drop 64 bs)
  end.

(** [sha256(msg).digest()] *)
Definition digest (msg : list N) : list N :=
  let p := pad msg in
  concat (map (be_bytes 4) (blocks (length p / 64) H0 p)).

(** [.hexdigest()] *)
Definition hexdigest (msg : list N) : pystr :=
  concat (map (fun b => [hex_digit (N.shiftr b 4); hex_digit (b mod 16)%N]) (digest msg)).

End SHA256.

(** ** [json.loads]

    The scanner of the [json] module, with its default [strict] mode. *)

Definition is_ws (c : N) : bool :=
  ((c =? 32) || (c =? 9) || (c =? 10) || (c =? 13))%N.

Fixpoint skip_ws (s : pystr) : pystr :=
  match s with
  | c :: r => if is_ws c then skip_ws r else s
  | [] => []
  end.

Definition hex_val (c : N) : option N :=
  (if (48 <=? c) && (c <=? 57) then Some (c - 48)
   else if (97 <=? c) && (c <=? 102) then Some (c - 87)
   else if (65 <=? c) && (c <=? 70) then Some (c - 55)
   else None)%N.

Definition hex4_val (a b c d : N) : option N :=
  match hex_val a, hex_val b, hex_val c, hex_val d with
  | Some a', Some b', Some c', Some d' => Some (((a' * 16 + b') * 16 + c') * 16 + d')%N
  | _, _, _, _ => None
  end.

Definition is_high_surrogate (u : N) : bool := ((55296 <=? u) && (u <=? 56319))%N.
Definition is_low_surrogate (u : N) : bool := ((56320 <=? u) && (u <=? 57343))%N.

Definition join_surrogates (hi lo : N) : N :=
  (65536 + N.lor (N.shiftl (hi - 55296) 10) (lo - 56320))%N.

(** The character an escape letter stands for. *)
Definition simple_escape (e : N) : option N :=
  (if e =? dquote then Some dquote
   else if e =? backslash then Some backslash
   else if e =? 47 then Some 47
   else if e =? 98 then Some 8
   else if e =? 102 then Some 12
   else if e =? 110 then Some 10
   else if e =? 114 then Some 13
   else if e =? 116 then Some 9
   else None)%N.

(** [scanstring], from just after the opening quote: the decoded string and
    the text after the closing quote. *)
Definition cons_to (c : N) (res : option (pystr * pystr)) : option (pystr * pystr) :=
  match res with
  | Some (str, rest) => Some (c :: str, rest)
  | None => None
  end.

Fixpoint scanstring (s : pystr) : option (pystr * pystr) :=
  match s with
  | [] => None
  | c :: r =>
      if (c =? dquote)%N then Some ([], r)
      else if (c =? backslash)%N then
        match r with
        | [] => None
        | e :: r1 =>
            if (e =? 117)%N then
              match r1 with
              | h1 :: h2 :: h3 :: h4 :: r2 =>
                  match hex4_val h1 h2 h3 h4 with
                  | None => None
                  | Some u =>
                      if is_high_surrogate u then
                        match r2 with
                        | bs :: e2 :: l1 :: l2 :: l3 :: l4 :: r3 =>
                            if ((bs =? backslash) && (e2 =? 117))%N then
                              match hex4_val l1 l2 l3 l4 with
                              | None => None
                              | Some u2 =>
                                  if is_low_surrogate u2
                                  then cons_to (join_surrogates u u2) (scanstring r3)
                                  else cons_to u (scanstring r2)
                              end
                            else cons_to u (scanstring r2)
                        | _ => cons_to u (scanstring r2)
                        end
                      else cons_to u (scanstring r2)
                  end
              | _ => None
              end
            else
              match simple_escape e with
              | Some x => cons_to x (scanstring r1)
              | None => None
              end
        end
      else if (c <? 32)%N then None
      else cons_to c (scanstring r)
  end.

Definition digit_of (c : N) : option (Decimal.uint -> Decimal.uint) :=
  (if c =? 48 then Some Decimal.D0 else if c =? 49 then Some Decimal.D1
   else if c =? 50 then Some Decimal.D2 else if c =? 51 then Some Decimal.D3
   else if c =? 52 then Some Decimal.D4 else if c =? 53 then Some Decimal.D5
   else if c =? 54 then Some Decimal.D6 else if c =? 55 then Some Decimal.D7
   else if c =? 56 then Some Decimal.D8 else if c =? 57 then Some Decimal.D9
   else None)%N.

(** The longest run of digits at the head of the text. *)
Fixpoint scan_digits (s : pystr) : Decimal.uint * pystr :=
  match s with
  | [] => (Decimal.Nil, [])
  | c :: r =>
      match digit_of c with
      | Some d => let '(u, r') := scan_digits r in (d u, r')
      | None => (Decimal.Nil, s)
      end
  end.

(** The integer part [0|[1-9][0-9]*]. *)
Definition scan_int_part (s : pystr) : option (Decimal.uint * pystr) :=
  match s with
  | [] => None
  | c :: r =>
      if (c =? 48)%N then Some (Decimal.D0 Decimal.Nil, r)
      else if is_digit c then Some (scan_digits s)
      else None
  end.

(** The optional fraction [.[0-9]+] and exponent [[eE][-+]?[0-9]+]: the text
    matched and the text left. *)
Definition scan_frac (s : pystr) : pystr * pystr :=
  match s with
  | dot :: c :: r =>
      if ((dot =? 46)%N && is_digit c)
      then let '(u, r') := scan_digits (c :: r) in (46%N :: str_of_uint u, r')
      else ([], s)
  | _ => ([], s)
  end.

Definition scan_exp (s : pystr) : pystr * pystr :=
  match s with
  | e :: r =>
      if ((e =? 101) || (e =? 69))%N then
        let '(sign, r1) :=
          match r with
          | sg :: r' => if ((sg =? 43) || (sg =? 45))%N then ([sg], r') else ([], r)
          | [] => ([], r)
          end in
        match r1 with
        | c :: _ =>
            if is_digit c
            then let '(u, r2) := scan_digits r1 in (e :: sign ++ str_of_uint u, r2)
            else ([], s)
        | [] => ([], s)
        end
      else ([], s)
  | [] => ([], s)
  end.

(** A number: an [int] when it has neither fraction nor exponent. *)
Definition scan_number (s : pystr) : option (pyval * pystr) :=
  let '(neg, s1) :=
    match s with
    | c :: r => if (c =? 45)%N then (true, r) else (false, s)
    | [] => (false, s)
    end in
  match scan_int_part s1 with
  | None => None
  | Some (u, r) =>
      let '(frac, r1) := scan_frac r in
      let '(ex, r2) := scan_exp r1 in
      match frac ++ ex with
      | [] =>
          let n := Z.of_N (N.of_uint u) in
          Some (PInt (if neg then - n else n)%Z, r2)
      | tail =>
          Some (PFloat ((if neg then [45%N] else []) ++ str_of_uint u ++ tail), r2)
      end
  end.

(** [s.startswith(p)], returning what follows the prefix *)
Fixpoint strip_prefix (p s : pystr) : option pystr :=
  match p, s with
  | [], _ => Some s
  | x :: p', y :: s' => if (x =? y)%N then strip_prefix p' s' else None
  | _ :: _, [] => None
  end.

(** [scan_once]: one JSON value at the head of the text.  The fuel bounds the
    number of values and members read; [loads] gives more than the text can
    use. *)
Fixpoint scan_once (fuel : nat) (s : pystr) : option (pyval * pystr) :=
  match fuel with
  | O => None
  | S f =>
      match s with
      | [] => None
      | c :: r =>
          if (c =? dquote)%N then
            match scanstring r with
            | Some (str, rest) => Some (PStr str, rest)
            | None => None
            end
          else if (c =? 123)%N then
            match skip_ws r with
            | c1 :: r1 =>
                if (c1 =? 125)%N then Some (PDict [], r1)
                else if (c1 =? dquote)%N then
                  match scan_members f r1 with
                  | Some (pairs, rest) => Some (PDict (dict_of_items pairs), rest)
                  | None => None
                  end
                else None
            | [] => None
            end
          else if (c =? 91)%N then
            match skip_ws r with
            | c1 :: r1 =>
                if (c1 =? 93)%N then Some (PList [], r1)
                else
                  match scan_elements f (c1 :: r1) with
                  | Some (vs, rest) => Some (PList vs, rest)
                  | None => None
                  end
            | [] => None
            end
          else
            match strip_prefix (py "null") s, strip_prefix (py "true") s,
                  strip_prefix (py "false") s with
            | Some rest, _, _ => Some (PNone, rest)
            | _, Some rest, _ => Some (PBool true, rest)
            | _, _, Some rest => Some (PBool false, rest)
            | None, None, None =>
                match scan_number s with
                | Some res => Some res
                | None =>
                    match strip_prefix (py "NaN") s, strip_prefix (py "Infinity") s,
                          strip_prefix (py "-Infinity") s with
                    | Some rest, _, _ => Some (PFloat (py "NaN"), rest)
                    | _, Some rest, _ => Some (PFloat (py "Infinity"), rest)
                    | _, _, Some rest => Some (PFloat (py "-Infinity"), rest)
                    | None, None, None => None
                    end
                end
            end
      end
  end

(** The elements of an array, from the first character of an element. *)
with scan_elements (fuel : nat) (s : pystr) : option (list pyval * pystr) :=
  match fuel with
  | O => None
  | S f =>
      match scan_once f s with
      | None => None
      | Some (v, r) =>
          match skip_ws r with
          | c :: r1 =>
              if (c =? 93)%N then Some ([v], r1)
              else if (c =? 44)%N then
                match scan_elements f (skip_ws r1) with
                | Some (vs, rest) => Some (v :: vs, rest)
                | None => None
                end
              else None
          | [] => None
          end
      end
  end

(** The members of an object, from just after the opening quote of a key. *)
with scan_members (fuel : nat) (s : pystr) : option (pydict * pystr) :=
  match fuel with
  | O => None
  | S f =>
      match scanstring s with
      | None => None
      | Some (k, r) =>
          match skip_ws r with
          | c :: r1 =>
              if (c =? 58)%N then
                match scan_once f (skip_ws r1) with
                | None => None
                | Some (v, r2) =>
                    match skip_ws r2 with
                    | c2 :: r3 =>
                        if (c2 =? 125)%N then Some ([(k, v)], r3)
                        else if (c2 =? 44)%N then
                          match skip_ws r3 with
                          | c3 :: r4 =>
                              if (c3 =? dquote)%N then
                                match scan_members f r4 with
                                | Some (kvs, rest) => Some ((k, v) :: kvs, rest)
                                | None => None
                                end
                              else None
                          | [] => None
                          end
                        else None
                    | [] => None
                    end
                end
              else None
          | [] => None
          end
      end
  end.

(** [json.loads(s)]: one value, white space around it, nothing else. *)
Definition loads (s : pystr) : result pyval :=
  match scan_once (S (length s)) (skip_ws s) with
  | Some (v, rest) =>
      match skip_ws rest with
      | [] => Ok v
      | _ :: _ => Raise JSONDecodeError
      end
  | None => Raise JSONDecodeError
  end.

(** ** Subscripts, attributes and methods of Python values *)

(** [v[k]] for a [str] key *)
Definition getitem_str (v : pyval) (k : pystr) : result pyval :=
  match v with
  | PDict d =>
      match dict_get k d with
      | Some x => Ok x
      | None => Raise (KeyError (PStr k))
      end
  | _ => Raise TypeError
  end.

(** [v[i]] for an [int] index; a negative index counts from the end. *)
Definition index_of (i : Z) (len : nat) : option nat :=
  if ((0 <=? i) && (i <? Z.of_nat len))%Z then Some (Z.to_nat i)
  else if ((- Z.of_nat len <=? i) && (i <? 0))%Z then Some (Z.to_nat (Z.of_nat len + i))
  else None.

Definition getitem_int (v : pyval) (i : Z) : result pyval :=
  match v with
  | PList l =>
      match index_of i (length l) ≫= (l !!.) with
      | Some x => Ok x
      | None => Raise IndexError
      end
  | PStr s =>
      match index_of i (length s) ≫= (s !!.) with
      | Some c => Ok (PStr [c])
      | None => Raise IndexError
      end
  | PDict _ => Raise (KeyError (PInt i))
  | _ => Raise TypeError
  end.

(** [v.strip()] *)
Definition str_strip (v : pyval) : result pystr :=
  match v with
  | PStr s => Ok (strip s)
  | _ => Raise AttributeError
  end.

(** A response object of the gateway client is represented by the dict its
    [model_dump()] returns: an attribute of the object is an item of it. *)
Definition getattr (v : pyval) (name : pystr) : result pyval :=
  match v with
  | PDict d =>
      match dict_get name d with
      | Some x => Ok x
      | None => Raise AttributeError
      end
  | _ => Raise AttributeError
  end.

Definition model_dump (response : pyval) : pyval := response.

(** ** The world: the Redis server, time, and the calls made *)

Record provider_config : Type := {
  provider : pystr;
  custom_host : pystr;
  model : pystr
}.

(** What [client.chat.completions.create] sends through the gateway. *)
Record request : Type := {
  req_config : provider_config;
  req_model : pystr;
  req_messages : pyval;
  req_params : pydict
}.

Inductive event : Type :=
  | EvGet (k : pystr)
  | EvSetex (k : pystr) (ttl : Z) (v : pystr)
  | EvScan (cursor : N) (pattern : pystr) (count : N)
  | EvDelete (ks : list pystr)
  | EvChat (req : request).

(** The keys of the server with their value and the time they expire at, the
    server's time in seconds, and the calls made so far, oldest first. *)
Record world : Type := {
  store : gmap pystr (pystr * Z);
  clock : Z;
  log : list event
}.

(** What the program does not decide.  The call number [n] is the call made
    when [n] calls are in the log: [fails n] says that it meets a transport
    error if it is a call to the server, [llm n req] is the answer of the
    gateway if it is a completion request, [took n] the wall-clock seconds
    measured around it.  The key space of the server is a table of
    [nbuckets] buckets, [slot] hashes a key to its bucket. *)
Record env : Type := {
  fails : nat -> bool;
  took : nat -> Q;
  llm : nat -> request -> result pyval;
  nbuckets : positive;
  slot : pystr -> N
}.

(** Time passes on the server. *)
Definition elapse (d : Z) (w : world) : world :=
  {| store := store w; clock := (clock w + d)%Z; log := log w |}.

Definition record (ev : event) (w : world) : world :=
  {| store := store w; clock := clock w; log := log w ++ [ev] |}.

Definition M (A : Type) : Type := world -> result A * world.

#[global] Instance M_ret : MRet M := fun A a w => (Ok a, w).
#[global] Instance M_bind : MBind M := fun A B f m w =>
  match m w with
  | (Ok a, w') => f a w'
  | (Raise e, w') => (Raise e, w')
  end.

Definition raise {A} (e : exn) : M A := fun w => (Raise e, w).

Definition lift {A} (r : result A) : M A := fun w => (r, w).

(** [try: body  except (handled): handler] *)
Definition try_except {A} (body : M A) (handled : exn -> bool) (handler : M A) : M A :=
  fun w =>
    match body w with
    | (Ok a, w') => (Ok a, w')
    | (Raise e, w') => if handled e then handler w' else (Raise e, w')
    end.

(** ** The Redis client *)

Module Redis.

(** Glob matching of the server on key names, for patterns made of
    literal characters, [?], [*] and backslash escapes (bracket classes
    are not modelled). *)
Fixpoint glob (p s : pystr) : bool :=
  match p with
  | [] => bool_decide (s = [])
  | c :: p' =>
      if (c =? 42)%N then
        (fix star (s : pystr) : bool :=
           glob p' s || match s with [] => false | _ :: s' => star s' end) s
      else if (c =? 63)%N then
        match s with [] => false | _ :: s' => glob p' s' end
      else if (c =? backslash)%N then
        match p', s with
        | e :: p'', x :: s' => (e =? x)%N && glob p'' s'
        | [], x :: s' => (c =? x)%N && bool_decide (s' = [])
        | _, [] => false
        end
      else
        match s with [] => false | x :: s' => (c =? x)%N && glob p' s' end
  end.

(** The value of a key that has not expired. *)
Definition live (w : world) (k : pystr) : option pystr :=
  match store w !! k with
  | Some (v, expires) => if (clock w <? expires)%Z then Some v else None
  | None => None
  end.

Section client.
Context (E : env).

(** A call to the server: it is logged, and fails when the transport
    does. *)
Definition call {A} (ev : event) (run : world -> result A * world) : M A :=
  fun w =>
    let w' := record ev w in
    if fails E (length (log w)) then (Raise RedisError, w') else run w'.

(** [GET key] *)
Definition get (k : pystr) : M (option pystr) :=
  call (EvGet k) (fun w => (Ok (live w k), w)).

(** [SETEX key seconds value]; the server refuses a time that is not
    positive. *)
Definition setex (k : pystr) (ttl : Z) (v : pystr) : M unit :=
  call (EvSetex k ttl v) (fun w =>
    if (ttl <=? 0)%Z then (Raise RedisError, w)
    else (Ok tt, {| store := <[k := (v, (clock w + ttl)%Z)]> (store w);
                    clock := clock w; log := log w |})).

Definition bucket (k : pystr) : N := (slot E k mod Npos (nbuckets E))%N.

(** The keys a [SCAN] visits: the live keys that match, in the [count]
    buckets from the cursor on. *)
Definition scan_keys (w : world) (cursor : N) (pattern : pystr) (count : N) : list pystr :=
  filter (fun k => Is_true (bool_decide (is_Some (live w k))
                            && (cursor <=? bucket k)%N && (bucket k <? cursor + count)%N
                            && glob pattern k))
         (map_to_list (store w)).*1.

(** [SCAN cursor MATCH pattern COUNT count]: the keys visited, and the
    cursor to go on from, 0 when the table is done. *)
Definition scan (cursor : N) (pattern : pystr) (count : N) : M (N * list pystr) :=
  call (EvScan cursor pattern count) (fun w =>
    let next := (if Npos (nbuckets E) <=? cursor + count then 0 else cursor + count)%N in
    (Ok (next, scan_keys w cursor pattern count), w)).

(** [DEL key ...] *)
Definition delete (ks : list pystr) : M unit :=
  call (EvDelete ks) (fun w =>
    (Ok tt, {| store := foldr base.delete (store w) ks;
               clock := clock w; log := log w |})).

End client.

End Redis.

(** ** [class RedisCache] *)

Module RedisCache.

Record t : Type := { default_ttl : Z }.

Definition default_pattern : pystr := py "llm_cache:*".

Definition key_data (provider model : pystr) (messages : pyval) (kwargs : pydict) : pyval :=
  PDict [(py "provider", PStr provider);
         (py "model", PStr model);
         (py "messages", messages);
         (py "params", PDict (dict_of_items (sorted_items kwargs)))].

Definition key_json (provider model : pystr) (messages : pyval) (kwargs : pydict) : pystr :=
  dumps true (key_data provider model messages kwargs).

Definition get_cache_key (provider model : pystr) (messages : pyval) (kwargs : pydict)
  : result pystr :=
  rbind (encode (key_json provider model messages kwargs)) (fun bytes =>
  let key_hash := SHA256.hexdigest bytes in
  Ok (py "llm_cache:" ++ key_hash)).

Section methods.
Context (E : env).

Definition get (self : t) (cache_key : pystr) : M pyval :=
  try_except
    (cached ← Redis.get E cache_key;
     match cached with
     | Some text =>
         if bool_decide (text = []) then mret PNone else lift (loads text)
     | None => mret PNone
     end)
    (fun e => match e with RedisError | JSONDecodeError => true | _ => false end)
    (mret PNone).

Definition set (self : t) (cache_key : pystr) (response : pyval) (ttl : option Z) : M unit :=
  try_except
    (let ttl :=
       match ttl with
       | Some n => if (n =? 0)%Z then default_ttl self else n
       | None => default_ttl self
       end in
     Redis.setex E cache_key ttl (dumps false response))
    (fun e => match e with RedisError => true | _ => false end)
    (mret tt).

(** The loop of [clear]; [None] when the fuel is used up before the
    cursor comes back to 0. *)
Fixpoint clear_loop (fuel : nat) (pattern : pystr) (cursor : N) (count : Z) (w : world)
  : option (result Z * world) :=
  match fuel with
  | O => None
  | S fuel' =>
      match Redis.scan E cursor pattern 100 w with
      | (Raise e, w1) => Some (Raise e, w1)
      | (Ok (cursor', keys), w1) =>
          let deleted :=
            if bool_decide (keys = []) then (Ok count, w1)
            else
              match Redis.delete E keys w1 with
              | (Ok _, w2) => (Ok (count + Z.of_nat (length keys))%Z, w2)
              | (Raise e, w2) => (Raise e, w2)
              end in
          match deleted with
          | (Raise e, w2) => Some (Raise e, w2)
          | (Ok count', w2) =>
              if (cursor' =? 0)%N then Some (Ok count', w2)
              else clear_loop fuel' pattern cursor' count' w2
          end
      end
  end.

Definition clear (self : t) (pattern : pystr) (w : world) : option (result Z * world) :=
  clear_loop (S (Pos.to_nat (nbuckets E))) pattern 0 0 w.

End methods.

End RedisCache.

(** ** [make_cached_chat_request] *)

Section requests.
Context (E : env).

(** [client.chat.completions.create(model=..., messages=..., **params)]
    on the client [create_portkey_client] builds for the provider. *)
Definition chat_completions_create (cfg : provider_config) (model : pystr)
    (messages : pyval) (params : pydict) : M pyval :=
  fun w =>
    let req := {| req_config := cfg; req_model := model;
                  req_messages := messages; req_params := params |} in
    (llm E (length (log w)) req, record (EvChat req) w).

(** [time.time()] before and after [m]: the seconds the call took. *)
Definition timed {A} (m : M A) : M (A * Q) :=
  fun w =>
    match m w with
    | (Ok a, w') => (Ok (a, took E (length (log w))), w')
    | (Raise e, w') => (Raise e, w')
    end.

(** [cached_response["choices"][0]["message"]["content"].strip()] *)
Definition cached_content (cached_response : pyval) : result pystr :=
  rbind (getitem_str cached_response (py "choices")) (fun choices =>
  rbind (getitem_int choices 0) (fun choice =>
  rbind (getitem_str choice (py "message")) (fun message =>
  rbind (getitem_str message (py "content")) str_strip))).

(** [response.choices[0].message.content.strip()] *)
Definition response_content (response : pyval) : result pystr :=
  rbind (getattr response (py "choices")) (fun choices =>
  rbind (getitem_int choices 0) (fun choice =>
  rbind (getattr choice (py "message")) (fun message =>
  rbind (getattr message (py "content")) str_strip))).

Definition make_cached_chat_request (cache : RedisCache.t) (cfg : provider_config)
    (message : pystr) (use_cache : bool) : M (pystr * Q * bool) :=
  let messages := PList [PDict [(py "role", PStr (py "user")); (py "content", PStr message)]] in
  let params := [(py "max_tokens", PInt 100)] in
  cache_key ← lift (RedisCache.get_cache_key (provider cfg) (model cfg) messages params);
  let miss : M (pystr * Q * bool) :=
    '(response, elapsed_time) ←
      timed (chat_completions_create cfg (model cfg) messages params);
    content ← lift (response_content response);
    _ ← (if use_cache
         then RedisCache.set E cache cache_key (model_dump response) None
         else mret tt);
    mret (content, elapsed_time, false) in
  if use_cache then
    '(cached_response, elapsed_time) ← timed (RedisCache.get E cache cache_key);
    if is_truthy cached_response then
      content ← lift (cached_content cached_response);
      mret (content, elapsed_time, true)
    else miss
  else miss.

End requests.

(** ** The measurement scenarios *)

(** A speedup is a float: a quotient of two measured times, or
    [float("inf")]. *)
Inductive speedup_value : Type :=
  | Finite (q : Q)
  | Infinite.

Inductive cache_status : Type :=
  | HIT
  | MISS
  | NotApplicable
  | HitRate (percent : Q).

Record scenario_result : Type := {
  test : pystr;
  first_time : Q;
  second_time : Q;
  first_cache : cache_status;
  second_cache : cache_status;
  speedup : speedup_value
}.

Definition status_of (hit : bool) : cache_status := if hit then HIT else MISS.

(** [sum(l)] *)
Definition sum_Q (l : list Q) : Q := fold_left Qplus l 0%Q.

Definition len_Q {A} (l : list A) : Q := inject_Z (Z.of_nat (length l)).

(** [time1 / time2 if time2 > 0 else float("inf")] *)
Definition simple_speedup (time1 time2 : Q) : speedup_value :=
  if Qlt_le_dec 0 time2 then Finite (time1 / time2) else Infinite.

(** [sum(times[1:]) / len(times[1:]) if len(times) > 1 else 0] *)
Definition avg_cached_time (times : list Q) : Q :=
  if bool_decide (1 < length times)%nat
  then (sum_Q (drop 1 times) / len_Q (drop 1 times))%Q
  else 0%Q.

(** [first_time / avg_cached_time if avg_cached_time > 0 else 0] *)
Definition persistence_speedup (times : list Q) : result speedup_value :=
  match times with
  | [] => Raise IndexError
  | first_time :: _ =>
      let avg := avg_cached_time times in
      Ok (if Qlt_le_dec 0 avg then Finite (first_time / avg) else Finite 0)
  end.

(** [sum(hits) / len(hits) * 100] *)
Definition hit_rate (hits : list bool) : Q :=
  (len_Q (filter Is_true hits) / len_Q hits * 100)%Q.

Section scenarios.
Context (E : env).

Definition run_simple_cache_test (cache : RedisCache.t) (cfg : provider_config)
  : M scenario_result :=
  let test_message := py "What is the capital of France? Answer in one word." in
  '(answer1, time1, hit1) ← make_cached_chat_request E cache cfg test_message true;
  '(answer2, time2, hit2) ← make_cached_chat_request E cache cfg test_message true;
  mret {| test := py "Simple Cache (Redis)";
          first_time := time1; second_time := time2;
          first_cache := status_of hit1; second_cache := status_of hit2;
          speedup := simple_speedup time1 time2 |}.

Definition run_no_cache_baseline (cache : RedisCache.t) (cfg : provider_config)
  : M scenario_result :=
  let message1 := py "What color is the sky on a clear day?" in
  let message2 := py "How many legs does a spider have?" in
  '(answer1, time1, _) ← make_cached_chat_request E cache cfg message1 false;
  '(answer2, time2, _) ← make_cached_chat_request E cache cfg message2 false;
  mret {| test := py "No Cache (Baseline)";
          first_time := time1; second_time := time2;
          first_cache := NotApplicable; second_cache := NotApplicable;
          speedup := Finite 1 |}.

(** The [for] loop of the persistence test: the times and the hits of
    [n] more requests, appended to those so far. *)
Fixpoint repeat_requests (n : nat) (cache : RedisCache.t) (cfg : provider_config)
    (message : pystr) (times : list Q) (hits : list bool) : M (list Q * list bool) :=
  match n with
  | O => mret (times, hits)
  | S n' =>
      '(answer, elapsed, hit) ← make_cached_chat_request E cache cfg message true;
      repeat_requests n' cache cfg message (times ++ [elapsed]) (hits ++ [hit])
  end.

Definition run_cache_persistence_test (cache : RedisCache.t) (cfg : provider_config)
  : M scenario_result :=
  let test_message := py "What is 2+2? Answer in one word." in
  let num_requests := 5%nat in
  '(times, hits) ← repeat_requests num_requests cache cfg test_message [] [];
  first ← lift (match times with t :: _ => Ok t | [] => Raise IndexError end);
  sp ← lift (persistence_speedup times);
  mret {| test := py "Cache Persistence";
          first_time := first; second_time := avg_cached_time times;
          first_cache := MISS; second_cache := HitRate (hit_rate hits);
          speedup := sp |}.

End scenarios.

(** ** Classes of values *)

(** Induction on values, through the lists and dicts they nest in. *)
Section pyval_induction.
Context (P : pyval -> Prop).
Context (HNone : P PNone) (HBool : forall b, P (PBool b)) (HInt : forall z, P (PInt z)).
Context (HFloat : forall r, P (PFloat r)) (HStr : forall s, P (PStr s)).
Context (HList : forall l, Forall P l -> P (PList l)).
Context (HDict : forall d : pydict, Forall (fun kv => P kv.2) d -> P (PDict d)).

Fixpoint pyval_nested_ind (v : pyval) : P v :=
  match v with
  | PNone => HNone
  | PBool b => HBool b
  | PInt z => HInt z
  | PFloat r => HFloat r
  | PStr s => HStr s
  | PList l =>
      HList l ((fix go (l : list pyval) : Forall P l :=
                  match l with
                  | [] => @List.Forall_nil _ P
                  | x :: l' => @List.Forall_cons _ P x l' (pyval_nested_ind x) (go l')
                  end) l)
  | PDict d =>
      HDict d ((fix go (d : pydict) : Forall (fun kv => P kv.2) d :=
                  match d with
                  | [] => @List.Forall_nil _ (fun kv => P kv.2)
                  | kv :: d' =>
                      @List.Forall_cons _ (fun kv => P kv.2) kv d'
                        (pyval_nested_ind kv.2) (go d')
                  end) d)
  end.
End pyval_induction.

(** A value with no float in it. *)
Fixpoint float_free (v : pyval) : bool :=
  match v with
  | PFloat _ => false
  | PList l => forallb float_free l
  | PDict d => forallb (fun kv => float_free kv.2) d
  | _ => true
  end.

(** A code point that is a Unicode scalar value: in range, no surrogate. *)
Definition is_scalar (c : N) : bool :=
  ((c <? 55296) || (57343 <? c) && (c <? 1114112))%N.

Definition text_ok (s : pystr) : bool := forallb is_scalar s.

(** A plain value: no float, every string made of scalar values, and no
    dict with the same key twice. *)
Fixpoint plain (v : pyval) : bool :=
  match v with
  | PFloat _ => false
  | PStr s => text_ok s
  | PList l => forallb plain l
  | PDict d =>
      forallb (fun kv => text_ok kv.1 && plain kv.2) d && bool_decide (NoDup d.*1)
  | _ => true
  end.

(** The value [json.loads] gives back for the text of a value: with
    [sort_keys] the items of every dict are in key order. *)
Fixpoint canonical (sk : bool) (v : pyval) : pyval :=
  match v with
  | PList l => PList (map (canonical sk) l)
  | PDict d =>
      let items := map (fun kv => match kv with (k, x) => (k, canonical sk x) end) d in
      PDict (if sk then sorted_items items else items)
  | _ => v
  end.

(** The first character of the text of a value. *)
Definition value_head (c : N) : Prop :=
  (c = 110 \/ c = 116 \/ c = 102 \/ c = 45 \/ 48 <= c <= 57 \/ c = 34 \/ c = 91 \/ c = 123)%N.

(** An item of a dict as [json.dumps] writes it. *)
Definition render (sk : bool) (kv : pystr * pyval) : pystr :=
  encode_basestring_ascii kv.1 ++ sep_key ++ dumps sk kv.2.

(** What may follow a value in a JSON text: nothing, a comma or a closing
    bracket. *)
Definition follows_value (rest : pystr) : Prop :=
  match rest with
  | [] => True
  | c :: _ => c = 44%N \/ c = 93%N \/ c = 125%N
  end.

(** The text of a value followed by [rest] scans to the value and [rest],
    with as much fuel as the text is long. *)
Definition scans (sk : bool) (v : pyval) : Prop :=
  plain v ->
  forall fuel rest,
    follows_value rest ->
    length (dumps sk v) <= fuel ->
    scan_once fuel (dumps sk v ++ rest) = Some (canonical sk v, rest).

Definition is_ascii (s : pystr) : Prop := Forall (fun c => (c < 128)%N) s.

(** ** Writing several entries *)

(** [cache.set(key, response)] for each entry in turn. *)
Fixpoint set_each (E : env) (self : RedisCache.t) (entries : pydict) : M unit :=
  match entries with
  | [] => mret tt
  | (k, response) :: rest =>
      _ ← RedisCache.set E self k response None; set_each E self rest
  end.

(** ** What the methods of the cache amount to *)

(** The value [RedisCache.get] returns for a key. *)
Definition read_value (E : env) (w : world) (k : pystr) : pyval :=
  if fails E (length (log w)) then PNone
  else
    match Redis.live w k with
    | Some text =>
        if bool_decide (text = []) then PNone
        else match loads text with Ok v => v | Raise _ => PNone end
    | None => PNone
    end.

(** [ttl or self.default_ttl] *)
Definition effective_ttl (self : RedisCache.t) (ttl : option Z) : Z :=
  match ttl with
  | Some n => if (n =? 0)%Z then RedisCache.default_ttl self else n
  | None => RedisCache.default_ttl self
  end.

(** The world [RedisCache.set] leaves. *)
Definition written (E : env) (self : RedisCache.t) (k : pystr) (response : pyval)
    (ttl : option Z) (w : world) : world :=
  let seconds := effective_ttl self ttl in
  let payload := dumps false response in
  let w' := record (EvSetex k seconds payload) w in
  if fails E (length (log w)) || (seconds <=? 0)%Z then w'
  else {| store := <[k := (payload, (clock w + seconds)%Z)]> (store w);
          clock := clock w; log := log w' |}.

Definition CACHE_MAX_AGE : Z := 300.

(** The messages, the parameters, the request and the cache key of
    [make_cached_chat_request] for a provider and a user message. *)
Definition user_messages (message : pystr) : pyval :=
  PList [PDict [(py "role", PStr (py "user")); (py "content", PStr message)]].

Definition request_params : pydict := [(py "max_tokens", PInt 100)].

Definition request_of (cfg : provider_config) (message : pystr) : request :=
  {| req_config := cfg; req_model := model cfg;
     req_messages := user_messages message; req_params := request_params |}.

Definition request_key (cfg : provider_config) (message : pystr) : pystr :=
  py "llm_cache:"
  ++ SHA256.hexdigest
       (RedisCache.key_json (provider cfg) (model cfg) (user_messages message) request_params).

(** What a request that goes to the gateway returns from world [w], and
    the world it leaves; [use_cache] says whether the answer is stored. *)
Definition upstream_outcome (E : env) (cache : RedisCache.t) (cfg : provider_config)
    (message : pystr) (use_cache : bool) (w : world) : result (pystr * Q * bool) * world :=
  let n := length (log w) in
  let w1 := record (EvChat (request_of cfg message)) w in
  match llm E n (request_of cfg message) with
  | Raise e => (Raise e, w1)
  | Ok response =>
      match response_content response with
      | Raise e => (Raise e, w1)
      | Ok content =>
          (Ok (content, took E n, false),
           if use_cache
           then written E cache (request_key cfg message) (model_dump response) None w1
           else w1)
      end
  end.

(** ** Request descriptors *)

Record chat_message : Type := {
  msg_role : pystr;
  msg_content : pystr
}.

(** A request as the specification describes it: the provider, the model,
    the messages in order, and the parameters with their values. *)
Record RequestDescriptor : Type := {
  rd_provider : pystr;
  rd_model : pystr;
  rd_messages : list chat_message;
  rd_parameters : pydict
}.

Definition message_dict (m : chat_message) : pyval :=
  PDict [(py "role", PStr (msg_role m)); (py "content", PStr (msg_content m))].

Definition messages_of (d : RequestDescriptor) : pyval :=
  PList (map message_dict (rd_messages d)).

(** The canonical JSON text of a descriptor and its cache key. *)
Definition descriptor_json (d : RequestDescriptor) : pystr :=
  RedisCache.key_json (rd_provider d) (rd_model d) (messages_of d) (rd_parameters d).

Definition descriptor_key (d : RequestDescriptor) : result pystr :=
  RedisCache.get_cache_key (rd_provider d) (rd_model d) (messages_of d) (rd_parameters d).

(** A parameter value that is [None], a [bool], an [int] or a [str]. *)
Definition scalar_param (v : pyval) : bool :=
  match v with
  | PNone | PBool _ | PInt _ => true
  | PStr s => text_ok s
  | _ => false
  end.

(** A descriptor whose strings are made of Unicode scalar values, whose
    parameter values are scalars other than floats, and whose parameter
    names are distinct. *)
Definition well_formed (d : RequestDescriptor) : bool :=
  text_ok (rd_provider d) && text_ok (rd_model d)
  && forallb (fun m => text_ok (msg_role m) && text_ok (msg_content m)) (rd_messages d)
  && forallb (fun kv => text_ok kv.1 && scalar_param kv.2) (rd_parameters d)
  && bool_decide (NoDup (rd_parameters d).*1).

(** The second descriptor is the first with one thing changed: the
    provider, the model, the content of one message, or the value of one
    parameter. *)
Inductive one_change : RequestDescriptor -> RequestDescriptor -> Prop :=
  | change_provider d p :
      p <> rd_provider d ->
      one_change d {| rd_provider := p; rd_model := rd_model d;
                      rd_messages := rd_messages d; rd_parameters := rd_parameters d |}
  | change_model d m :
      m <> rd_model d ->
      one_change d {| rd_provider := rd_provider d; rd_model := m;
                      rd_messages := rd_messages d; rd_parameters := rd_parameters d |}
  | change_content d i m c :
      rd_messages d !! i = Some m ->
      c <> msg_content m ->
      one_change d {| rd_provider := rd_provider d; rd_model := rd_model d;
                      rd_messages :=
                        <[i := {| msg_role := msg_role m; msg_content := c |}]>
                          (rd_messages d);
                      rd_parameters := rd_parameters d |}
  | change_parameter d i k v v' :
      rd_parameters d !! i = Some (k, v) ->
      v' <> v ->
      one_change d {| rd_provider := rd_provider d; rd_model := rd_model d;
                      rd_messages := rd_messages d;
                      rd_parameters := <[i := (k, v')]> (rd_parameters d) |}.

(** Two descriptors that differ in the content of their message: one
    code point beyond the BMP, and the two surrogates it is written with. *)
Definition astral_descriptor : RequestDescriptor :=
  {| rd_provider := py "ollama"; rd_model := py "llama3";
     rd_messages := [{| msg_role := py "user"; msg_content := [65536%N] |}];
     rd_parameters := [(py "max_tokens", PInt 100)] |}.

Definition surrogate_descriptor : RequestDescriptor :=
  {| rd_provider := py "ollama"; rd_model := py "llama3";
     rd_messages := [{| msg_role := py "user"; msg_content := [55296%N; 56320%N] |}];
     rd_parameters := [(py "max_tokens", PInt 100)] |}.

Definition sample_descriptor : RequestDescriptor :=
  {| rd_provider := py "ollama"; rd_model := py "llama3";
     rd_messages := [{| msg_role := py "user"; msg_content := py "ping" |}];
     rd_parameters := [(py "max_tokens", PInt 5)] |}.

(** The sample descriptor with 6 for [max_tokens]. *)
Definition changed_descriptor : RequestDescriptor :=
  {| rd_provider := rd_provider sample_descriptor;
     rd_model := rd_model sample_descriptor;
     rd_messages := rd_messages sample_descriptor;
     rd_parameters := <[0%nat := (py "max_tokens", PInt 6)]> (rd_parameters sample_descriptor) |}.

(** The speedup a scenario reports, when it runs to its end. *)
Definition reported_speedup (r : result scenario_result * world) : option speedup_value :=
  match r.1 with
  | Ok s => Some (speedup s)
  | Raise _ => None
  end.

(** ** Sample data *)

Definition sample_config : provider_config :=
  {| provider := py "ollama";
     custom_host := py "http://portkey-gateway-ollama:11434";
     model := py "llama3" |}.

Definition sample_messages : pyval :=
  PList [PDict [(py "role", PStr (py "user")); (py "content", PStr (py "ping"))]].

Definition sample_response : pyval :=
  PDict [(py "id", PStr (py "chatcmpl-1"));
         (py "choices",
          PList [PDict [(py "finish_reason", PStr (py "stop"));
                        (py "index", PInt 0);
                        (py "message",
                         PDict [(py "content", PStr (py " Paris. "));
                                (py "role", PStr (py "assistant"))])]]);
         (py "created", PInt 1700000000);
         (py "model", PStr (py "llama3"));
         (py "usage", PNone)].

(** A gateway that always answers [sample_response] and a server that is
    always reachable; the first completion of a run takes a second, every
    other call no measurable time. *)
Definition sample_env : env :=
  {| fails := fun _ => false;
     took := fun n => if (n =? 1)%nat then 1%Q else 0%Q;
     llm := fun _ _ => Ok sample_response;
     nbuckets := 256%positive;
     slot := fun k => fold_left N.add k 0%N |}.

(** The same, behind a gateway that refuses every request. *)
Definition refusing_env : env :=
  {| fails := fun _ => false;
     took := fun _ => 0%Q;
     llm := fun _ _ => Raise (APIError (py "upstream unavailable"));
     nbuckets := 256%positive;
     slot := fun k => fold_left N.add k 0%N |}.

Definition sample_cache : RedisCache.t := {| RedisCache.default_ttl := CACHE_MAX_AGE |}.

(** A world whose store holds, under the key of the sample request, a live
    payload that is JSON but not a completion. *)
Definition stray_payload : pystr := dumps false (PDict [(py "a", PInt 1)]).

Definition stray_world : world :=
  {| store := {[ request_key sample_config (py "ping") := (stray_payload, 300%Z) ]};
     clock := 0; log := [] |}.

Definition sample_entries : pydict :=
  [(py "llm_cache:a", sample_response); (py "llm_cache:b", PNone)].

Definition empty_world : world := {| store := ∅; clock := 0; log := [] |}.

(** ** Hexadecimal digits *)

(** A lower-case hexadecimal digit. *)
Definition is_lower_hex (c : N) : bool :=
  ((48 <=? c) && (c <=? 57) || (97 <=? c) && (c <=? 102))%N.

(** ** More sample data *)

(** A gateway whose answer has no choice in it. *)
Definition no_choice_response : pyval :=
  PDict [(py "id", PStr (py "chatcmpl-2")); (py "choices", PList [])].

Definition no_choice_env : env :=
  {| fails := fun _ => false;
     took := fun _ => 0%Q;
     llm := fun _ _ => Ok no_choice_response;
     nbuckets := 256%positive;
     slot := fun k => fold_left N.add k 0%N |}.

(** A server that cannot be reached, in front of the sample gateway. *)
Definition outage_env : env :=
  {| fails := fun _ => true;
     took := fun _ => 1%Q;
     llm := fun _ _ => Ok sample_response;
     nbuckets := 256%positive;
     slot := fun k => fold_left N.add k 0%N |}.

(** The sample provider behind a host that does not exist. *)
Definition invalid_host_config : provider_config :=
  {| provider := py "ollama";
     custom_host := py "http://invalid-endpoint:9999";
     model := py "llama3" |}.

(** A world whose store holds, under the key of the sample request, a live
    payload that decodes to an empty dict. *)
Definition empty_payload_world : world :=
  {| store := {[ request_key sample_config (py "ping") := (py "{}", 300%Z) ]};
     clock := 0; log := [] |}.

(** ** The messages of the scenarios *)

Definition simple_test_message : pystr :=
  py "What is the capital of France? Answer in one word.".

Definition persistence_test_message : pystr := py "What is 2+2? Answer in one word.".

Definition baseline_message1 : pystr := py "What color is the sky on a clear day?".
Definition baseline_message2 : pystr := py "How many legs does a spider have?".

(** A world whose store holds a live answer for the message of the
    persistence test. *)
Definition warm_world : world :=
  {| store := {[ request_key sample_config persistence_test_message
                 := (dumps false sample_response, 300%Z) ]};
     clock := 0; log := [] |}.

(** ** More request descriptors *)

(** Two descriptors with the same parameters in another order. *)
Definition two_parameter_descriptor : RequestDescriptor :=
  {| rd_provider := py "ollama"; rd_model := py "llama3";
     rd_messages := [{| msg_role := py "user"; msg_content := py "ping" |}];
     rd_parameters := [(py "max_tokens", PInt 5); (py "stream", PBool false)] |}.

Definition swapped_parameter_descriptor : RequestDescriptor :=
  {| rd_provider := py "ollama"; rd_model := py "llama3";
     rd_messages := [{| msg_role := py "user"; msg_content := py "ping" |}];
     rd_parameters := [(py "stream", PBool false); (py "max_tokens", PInt 5)] |}.

(** ** [demos/config.py] *)

(** [os.environ]: the variables that are set, with their values. *)
Abbreviation environ := (gmap pystr pystr).

(** [os.environ.get(name, default)] *)
Definition environ_get (vars : environ) (name default : pystr) : pystr :=
  match vars !! name with
  | Some v => v
  | None => default
  end.

(** [s.rstrip(chars)]: the characters of [chars] are dropped from the
    end of [s]. *)
Fixpoint rstrip_chars (chars s : pystr) : pystr :=
  match s with
  | [] => []
  | c :: r =>
      match rstrip_chars chars r with
      | [] => if bool_decide (c ∈ chars) then [] else [c]
      | r' => c :: r'
      end
  end.

(** [s.endswith(suffix)] *)
Definition endswith (s suffix : pystr) : bool :=
  (length suffix <=? length s)%nat
  && bool_decide (drop (length s - length suffix) s = suffix).

Definition DEFAULT_GATEWAY_URL : pystr :=
  py "https://portkey-gateway-hacohen-portkey.apps.ai-dev02.kni.syseng.devcluster.openshift.com".

Definition GATEWAY_URL (vars : environ) : pystr :=
  environ_get vars (py "PORTKEY_GATEWAY_URL") DEFAULT_GATEWAY_URL.

Definition GATEWAY_BASE_URL (vars : environ) : pystr :=
  rstrip_chars (py "/") (GATEWAY_URL vars).

Definition GATEWAY_API_URL (vars : environ) : pystr :=
  if negb (endswith (GATEWAY_BASE_URL vars) (py "/v1"))
  then GATEWAY_BASE_URL vars ++ py "/v1"
  else GATEWAY_BASE_URL vars.

Definition OLLAMA_CONFIG : pyval :=
  PDict [(py "provider", PStr (py "ollama"));
         (py "custom_host", PStr (py "http://portkey-gateway-ollama:11434"));
         (py "model", PStr (py "llama3"))].

Definition LLAMA_FP8_CONFIG : pyval :=
  PDict [(py "provider", PStr (py "openai"));
         (py "custom_host",
          PStr (py "http://llama-fp8-predictor.hacohen-llmlite.svc.cluster.local:8080"));
         (py "model", PStr (py "openai/llama-fp8"))].

Definition INVALID_OLLAMA_CONFIG : pyval :=
  PDict [(py "provider", PStr (py "ollama"));
         (py "custom_host", PStr (py "http://invalid-endpoint:9999"));
         (py "model", PStr (py "llama3"))].

Definition DEFAULT_PROVIDER : pyval := OLLAMA_CONFIG.

(** [providers.get(provider_name, OLLAMA_CONFIG)] *)
Definition get_provider_config (provider_name : pystr) : pyval :=
  let providers :=
    [(py "ollama", OLLAMA_CONFIG); (py "llama-fp8", LLAMA_FP8_CONFIG)] in
  match dict_get provider_name providers with
  | Some config => config
  | None => OLLAMA_CONFIG
  end.

(** The entries of a provider configuration that the demos read by
    subscript, [provider_config["provider"]], [["custom_host"]] and
    [["model"]], as the record the requests are made from. *)
Definition config_entries (d : pyval) : result provider_config :=
  rbind (getitem_str d (py "provider")) (fun p =>
  rbind (getitem_str d (py "custom_host")) (fun h =>
  rbind (getitem_str d (py "model")) (fun m =>
  match p, h, m with
  | PStr p, PStr h, PStr m => Ok {| provider := p; custom_host := h; model := m |}
  | _, _, _ => Raise TypeError
  end))).

Definition llama_fp8_config : provider_config :=
  {| provider := py "openai";
     custom_host := py "http://llama-fp8-predictor.hacohen-llmlite.svc.cluster.local:8080";
     model := py "openai/llama-fp8" |}.

(** ** [demos/fallback/config.py] *)

Definition DUMMY_API_KEY : pystr := py "dummy-key-not-needed".

(** One target of a fallback configuration: the entries are read from the
    provider configuration in the order the dict display names them. *)
Definition fallback_target (config : pyval) : result pyval :=
  rbind (getitem_str config (py "provider")) (fun p =>
  rbind (getitem_str config (py "custom_host")) (fun h =>
  rbind (getitem_str config (py "model")) (fun m =>
  Ok (PDict [(py "provider", p);
             (py "api_key", PStr DUMMY_API_KEY);
             (py "custom_host", h);
             (py "override_params", PDict [(py "model", m)])])))).

(** [on_status_codes] is [None] when the argument is left out. *)
Definition create_fallback_config (primary_config fallback_config on_status_codes : pyval)
  : result pyval :=
  rbind (fallback_target primary_config) (fun primary =>
  rbind (fallback_target fallback_config) (fun fallback =>
  let strategy := [(py "mode", PStr (py "fallback"))] in
  Ok (PDict [(py "strategy",
              PDict (if is_truthy on_status_codes
                     then dict_set (py "on_status_codes") on_status_codes strategy
                     else strategy));
             (py "targets", PList [primary; fallback])]))).

(** [base_config.copy()] and the assignment to ["custom_host"]: a list has
    a [copy] but takes no string index, the other values have no [copy]. *)
Definition create_invalid_provider_config (base_config : pyval) : result pyval :=
  match base_config with
  | PDict d =>
      Ok (PDict (dict_set (py "custom_host") (PStr (py "http://invalid-endpoint:9999")) d))
  | PList _ => Raise TypeError
  | _ => Raise AttributeError
  end.

(** ** Floats

    The arithmetic of Python's floats is left open: what is proved about
    the code that computes with them holds for every choice of it. *)

Class FloatOps (F : Type) : Type := {
  fzero : F;
  fone : F;
  fadd : F -> F -> F;
  fmul : F -> F -> F;
  (** [x / y] for a [y] that is not zero *)
  fdiv : F -> F -> F;
  (** [float(n)] *)
  of_int : Z -> F;
  (** [a / b] on two [int]s, for a [b] that is not zero *)
  int_truediv : Z -> Z -> F;
  (** [x == 0] *)
  is_zero : F -> bool;
  (** [x < y] *)
  flt : F -> F -> bool;
  (** [sum(l)] for a list that is not empty *)
  fsum : list F -> F
}.

(** Exact arithmetic on the rationals, to run the definitions on. *)
#[global] Instance Q_ops : FloatOps Q := {|
  fzero := 0%Q;
  fone := 1%Q;
  fadd := Qplus;
  fmul := Qmult;
  fdiv := Qdiv;
  of_int := inject_Z;
  int_truediv := fun a b => (inject_Z a / inject_Z b)%Q;
  is_zero := fun x => Qeq_bool x 0;
  flt := fun x y => negb (Qle_bool y x);
  fsum := fun l => fold_left Qplus l 0%Q
|}.

(** A number that is an [int] or a [float]. *)
Inductive number (F : Type) : Type :=
  | IntNum (z : Z)
  | FloatNum (x : F).
Arguments IntNum {F} z.
Arguments FloatNum {F} x.

(** ** [class FallbackMetrics] *)

Module FallbackMetrics.

Record t (F : Type) : Type := {
  total_requests : Z;
  successful_requests : Z;
  failed_requests : Z;
  fallback_triggered : Z;
  total_latency : F;
  primary_latency : F;
  fallback_latency : F
}.
Arguments total_requests {F} _.
Arguments successful_requests {F} _.
Arguments failed_requests {F} _.
Arguments fallback_triggered {F} _.
Arguments total_latency {F} _.
Arguments primary_latency {F} _.
Arguments fallback_latency {F} _.

Section methods.
Context {F : Type} `{FloatOps F}.

(** [__init__] *)
Definition init : t F :=
  {| total_requests := 0; successful_requests := 0; failed_requests := 0;
     fallback_triggered := 0;
     total_latency := fzero; primary_latency := fzero; fallback_latency := fzero |}.

Definition record_success (self : t F) (latency : F) (used_fallback : bool) : t F :=
  {| total_requests := total_requests self + 1;
     successful_requests := successful_requests self + 1;
     failed_requests := failed_requests self;
     fallback_triggered :=
       if used_fallback then fallback_triggered self + 1 else fallback_triggered self;
     total_latency := fadd (total_latency self) latency;
     primary_latency :=
       if used_fallback then primary_latency self
       else fadd (primary_latency self) latency;
     fallback_latency :=
       if used_fallback then fadd (fallback_latency self) latency
       else fallback_latency self |}.

Definition record_failure (self : t F) (latency : F) : t F :=
  {| total_requests := total_requests self + 1;
     successful_requests := successful_requests self;
     failed_requests := failed_requests self + 1;
     fallback_triggered := fallback_triggered self;
     total_latency := fadd (total_latency self) latency;
     primary_latency := primary_latency self;
     fallback_latency := fallback_latency self |}.

End methods.

End FallbackMetrics.

(** A call of one of the two recording methods. *)
Inductive fallback_call (F : Type) : Type :=
  | FbSuccess (latency : F) (used_fallback : bool)
  | FbFailure (latency : F).
Arguments FbSuccess {F} latency used_fallback.
Arguments FbFailure {F} latency.

Definition fallback_step {F} `{FloatOps F} (m : FallbackMetrics.t F) (c : fallback_call F)
  : FallbackMetrics.t F :=
  match c with
  | FbSuccess latency used_fallback => FallbackMetrics.record_success m latency used_fallback
  | FbFailure latency => FallbackMetrics.record_failure m latency
  end.

(** The metrics after the calls, made in turn on a new object. *)
Definition fallback_metrics_after {F} `{FloatOps F} (calls : list (fallback_call F))
  : FallbackMetrics.t F :=
  fold_left fallback_step calls FallbackMetrics.init.

(** ** [class LoadBalanceMetrics] *)

Module LoadBalanceMetrics.

Record t (F : Type) : Type := {
  total_requests : Z;
  successful_requests : Z;
  failed_requests : Z;
  total_latency : F;
  latencies : list F;
  (** a [Counter]: a key that is missing counts for 0 *)
  provider_distribution : gmap pystr Z
}.
Arguments total_requests {F} _.
Arguments successful_requests {F} _.
Arguments failed_requests {F} _.
Arguments total_latency {F} _.
Arguments latencies {F} _.
Arguments provider_distribution {F} _.

(** The dict [get_summary] returns. *)
Record summary (F : Type) : Type := {
  s_total_requests : Z;
  s_successful : Z;
  s_failed : Z;
  s_success_rate : number F;
  s_avg_latency : number F;
  s_min_latency : number F;
  s_max_latency : number F;
  s_distribution : gmap pystr Z
}.
Arguments s_total_requests {F} _.
Arguments s_successful {F} _.
Arguments s_failed {F} _.
Arguments s_success_rate {F} _.
Arguments s_avg_latency {F} _.
Arguments s_min_latency {F} _.
Arguments s_max_latency {F} _.
Arguments s_distribution {F} _.

Section methods.
Context {F : Type} `{FloatOps F}.

(** [__init__] *)
Definition init : t F :=
  {| total_requests := 0; successful_requests := 0; failed_requests := 0;
     total_latency := fzero; latencies := []; provider_distribution := ∅ |}.

(** [counter[key]] *)
Definition count (d : gmap pystr Z) (key : pystr) : Z :=
  match d !! key with
  | Some n => n
  | None => 0%Z
  end.

Definition record_success (self : t F) (latency : F) (provider : pystr) : t F :=
  {| total_requests := total_requests self + 1;
     successful_requests := successful_requests self + 1;
     failed_requests := failed_requests self;
     total_latency := fadd (total_latency self) latency;
     latencies := latencies self ++ [latency];
     provider_distribution :=
       <[provider := (count (provider_distribution self) provider + 1)%Z]>
         (provider_distribution self) |}.

Definition record_failure (self : t F) (latency : F) : t F :=
  {| total_requests := total_requests self + 1;
     successful_requests := successful_requests self;
     failed_requests := failed_requests self + 1;
     total_latency := fadd (total_latency self) latency;
     latencies := latencies self;
     provider_distribution := provider_distribution self |}.

(** [min(l)] and [max(l)] on a list with first item [m]: the first of the
    least items, the first of the greatest. *)
Fixpoint min_from (m : F) (l : list F) : F :=
  match l with
  | [] => m
  | x :: r => min_from (if flt x m then x else m) r
  end.

Fixpoint max_from (m : F) (l : list F) : F :=
  match l with
  | [] => m
  | x :: r => max_from (if flt m x then x else m) r
  end.

Definition get_summary (self : t F) : summary F :=
  let avg_latency :=
    if (0 <? total_requests self)%Z
    then FloatNum (fdiv (total_latency self) (of_int (total_requests self)))
    else IntNum 0 in
  let success_rate :=
    if (0 <? total_requests self)%Z
    then FloatNum (fmul (int_truediv (successful_requests self) (total_requests self))
                     (of_int 100))
    else IntNum 0 in
  {| s_total_requests := total_requests self;
     s_successful := successful_requests self;
     s_failed := failed_requests self;
     s_success_rate := success_rate;
     s_avg_latency := avg_latency;
     s_min_latency :=
       match latencies self with
       | x :: r => FloatNum (min_from x r)
       | [] => IntNum 0
       end;
     s_max_latency :=
       match latencies self with
       | x :: r => FloatNum (max_from x r)
       | [] => IntNum 0
       end;
     s_distribution := provider_distribution self |}.

End methods.

End LoadBalanceMetrics.

Inductive loadbalance_call (F : Type) : Type :=
  | LbSuccess (latency : F) (provider : pystr)
  | LbFailure (latency : F).
Arguments LbSuccess {F} latency provider.
Arguments LbFailure {F} latency.

Definition loadbalance_step {F} `{FloatOps F} (m : LoadBalanceMetrics.t F)
    (c : loadbalance_call F) : LoadBalanceMetrics.t F :=
  match c with
  | LbSuccess latency provider => LoadBalanceMetrics.record_success m latency provider
  | LbFailure latency => LoadBalanceMetrics.record_failure m latency
  end.

Definition loadbalance_metrics_after {F} `{FloatOps F} (calls : list (loadbalance_call F))
  : LoadBalanceMetrics.t F :=
  fold_left loadbalance_step calls LoadBalanceMetrics.init.

(** The counts of a [Counter], added up. *)
Definition counter_total (d : gmap pystr Z) : Z :=
  map_fold (fun _ n acc => (n + acc)%Z) 0%Z d.

(** ** [demos/load_balance/config.py] *)

(** What the helpers of the module raise: the error of a subscript on a
    target, [ValueError], or [ZeroDivisionError]. *)
Inductive config_error : Type :=
  | LookupFailed (e : exn)
  | ValueError (msg : pystr)
  | ZeroDivisionError.

(** One target of a load balancing configuration. *)
Record lb_target (F : Type) : Type := {
  lb_provider : pyval;
  lb_api_key : pystr;
  lb_custom_host : pyval;
  lb_weight : F;
  lb_model : pyval
}.
Arguments lb_provider {F} _.
Arguments lb_api_key {F} _.
Arguments lb_custom_host {F} _.
Arguments lb_weight {F} _.
Arguments lb_model {F} _.

Record lb_config (F : Type) : Type := {
  lb_mode : pystr;
  lb_targets : list (lb_target F)
}.
Arguments lb_mode {F} _.
Arguments lb_targets {F} _.

Section loadbalance.
Context {F : Type} `{FloatOps F}.

(** [x / y] on floats *)
Definition float_div (x y : F) : config_error + F :=
  if is_zero y then inl ZeroDivisionError else inr (fdiv x y).

(** [[w / total_weight for w in weights]] *)
Fixpoint normalize (total_weight : F) (weights : list F) : config_error + list F :=
  match weights with
  | [] => inr []
  | w :: rest =>
      match float_div w total_weight with
      | inl e => inl e
      | inr x =>
          match normalize total_weight rest with
          | inl e => inl e
          | inr xs => inr (x :: xs)
          end
      end
  end.

Definition target_config (target : pyval) (weight : F) : config_error + lb_target F :=
  match getitem_str target (py "provider") with
  | Raise e => inl (LookupFailed e)
  | Ok p =>
      match getitem_str target (py "custom_host") with
      | Raise e => inl (LookupFailed e)
      | Ok h =>
          match getitem_str target (py "model") with
          | Raise e => inl (LookupFailed e)
          | Ok m =>
              inr {| lb_provider := p; lb_api_key := DUMMY_API_KEY; lb_custom_host := h;
                     lb_weight := weight; lb_model := m |}
          end
      end
  end.

(** The loop over [zip(targets, normalized_weights)]. *)
Fixpoint append_targets (pairs : list (pyval * F)) (acc : list (lb_target F))
  : config_error + list (lb_target F) :=
  match pairs with
  | [] => inr acc
  | (target, weight) :: rest =>
      match target_config target weight with
      | inl e => inl e
      | inr tc => append_targets rest (acc ++ [tc])
      end
  end.

Definition create_loadbalance_config (targets : list pyval) (weights : option (list F))
  : config_error + lb_config F :=
  let given :=
    match weights with
    | None =>
        if (length targets =? 0)%nat then inl ZeroDivisionError
        else
          let weight_value := fdiv fone (of_int (Z.of_nat (length targets))) in
          inr (replicate (length targets) weight_value)
    | Some ws => inr ws
    end in
  match given with
  | inl e => inl e
  | inr weights =>
      if negb (length targets =? length weights)%nat
      then inl (ValueError (py "Number of targets must match number of weights"))
      else
        let total_weight := fsum weights in
        match normalize total_weight weights with
        | inl e => inl e
        | inr normalized_weights =>
            match append_targets (zip targets normalized_weights) [] with
            | inl e => inl e
            | inr ts => inr {| lb_mode := py "loadbalance"; lb_targets := ts |}
            end
        end
  end.

Definition create_round_robin_config (targets : list pyval) : config_error + lb_config F :=
  create_loadbalance_config targets None.

Definition create_weighted_config (targets : list pyval) (weights : list F)
  : config_error + lb_config F :=
  create_loadbalance_config targets (Some weights).

End loadbalance.

(** ** [make_request_without_fallback] *)

Section without_fallback.
Context (E : env).
(** [str(e)] *)
Context (exn_str : exn -> pystr).

(** [(response_content, latency, success, error_message)] *)
Definition make_request_without_fallback (cfg : provider_config) (message : pystr)
    (max_tokens : Z) : M (option pystr * Q * bool * option pystr) :=
  fun w =>
    let messages :=
      PList [PDict [(py "role", PStr (py "user")); (py "content", PStr message)]] in
    let latency := took E (length (log w)) in
    match (response ← chat_completions_create E cfg (model cfg) messages
                         [(py "max_tokens", PInt max_tokens)];
           lift (response_content response)) w with
    | (Ok content, w') => (Ok (Some content, latency, true, None), w')
    | (Raise e, w') => (Ok (None, latency, false, Some (exn_str e)), w')
    end.

End without_fallback.

(** ** Requests through a client made from a configuration

    [Portkey(base_url=..., api_key=..., config=config)] and its
    [chat.completions.create]: what the gateway does with the request
    number [n] of a run is not decided by the program, nor are the seconds
    measured around it. *)

(** [o[:n]] on a value that is a string or [None] *)
Definition slice_to (o : option pystr) (n : nat) : result pystr :=
  match o with
  | Some s => Ok (take n s)
  | None => Raise TypeError
  end.

(** The dict [test_stress_fallback] returns. *)
Record stress_result (F : Type) : Type := {
  sr_test : pystr;
  sr_total_requests : Z;
  sr_successful : Z;
  sr_failed : Z;
  sr_fallback_triggered : Z;
  sr_avg_latency : number F;
  sr_success_rate : number F
}.
Arguments sr_test {F} _.
Arguments sr_total_requests {F} _.
Arguments sr_successful {F} _.
Arguments sr_failed {F} _.
Arguments sr_fallback_triggered {F} _.
Arguments sr_avg_latency {F} _.
Arguments sr_success_rate {F} _.

Definition stress_messages : list pystr :=
  [py "What is AI? Answer briefly.";
   py "What is Python? One sentence.";
   py "What is Docker? One sentence.";
   py "What is REST? One sentence.";
   py "What is CI/CD? One sentence."].

Section config_clients.
Context {F : Type} `{FloatOps F}.
(** The type of the configurations clients are made from. *)
Context {C : Type}.
(** [create n config model messages max_tokens]: the answer to the request
    number [n], or the exception it raises. *)
Context (create : nat -> C -> pyval -> pyval -> Z -> result pyval).
(** The seconds measured around the request number [n]. *)
Context (seconds : nat -> F).
(** [str(e)] *)
Context (exn_str : exn -> pystr).

(** [(response_content, latency, success, error_message)], and the number
    of requests made so far. *)
Definition make_request_with_fallback (config : C) (message : pystr) (model : pyval)
    (max_tokens : Z) (n : nat) : (option pystr * F * bool * option pystr) * nat :=
  let messages :=
    PList [PDict [(py "role", PStr (py "user")); (py "content", PStr message)]] in
  let latency := seconds n in
  match rbind (create n config model messages max_tokens) response_content with
  | Ok content => ((Some content, latency, true, None), S n)
  | Raise e => ((None, latency, false, Some (exn_str e)), S n)
  end.

(** [response._headers.get('x-portkey-provider', 'unknown')] when the
    response has the attribute, ['unknown'] when it has not. *)
Definition provider_used (response : pyval) : result pyval :=
  match getattr response (py "_headers") with
  | Raise _ => Ok (PStr (py "unknown"))
  | Ok (PDict headers) =>
      match dict_get (py "x-portkey-provider") headers with
      | Some v => Ok v
      | None => Ok (PStr (py "unknown"))
      end
  | Ok _ => Raise AttributeError
  end.

(** [(response_content, latency, success, error_message, provider_used)] *)
Definition make_request_with_loadbalance (config : C) (message : pystr) (max_tokens : Z)
    (n : nat) : (option pystr * F * bool * option pystr * option pyval) * nat :=
  let messages :=
    PList [PDict [(py "role", PStr (py "user")); (py "content", PStr message)]] in
  let latency := seconds n in
  match rbind (create n config (PStr (py "llama3")) messages max_tokens) (fun response =>
        rbind (response_content response) (fun content =>
        rbind (provider_used response) (fun provider => Ok (content, provider)))) with
  | Ok (content, provider) => ((Some content, latency, true, None, Some provider), S n)
  | Raise e => ((None, latency, false, Some (exn_str e), None), S n)
  end.

End config_clients.

Section fallback_scenarios.
Context {F : Type} `{FloatOps F}.
Context (create : nat -> pyval -> pyval -> pyval -> Z -> result pyval).
Context (seconds : nat -> F).
Context (exn_str : exn -> pystr).

(** The loop of [test_stress_fallback]: each request is recorded in the
    metrics, then the text or the error is cut for the report. *)
Fixpoint stress_loop (config : pyval) (messages : list pystr)
    (metrics : FallbackMetrics.t F) (n : nat) : result (FallbackMetrics.t F) * nat :=
  match messages with
  | [] => (Ok metrics, n)
  | msg :: rest =>
      match getitem_str OLLAMA_CONFIG (py "model") with
      | Raise e => (Raise e, n)
      | Ok model =>
          match make_request_with_fallback create seconds exn_str config msg model 100 n with
          | ((content, latency, success, error), n') =>
              if success then
                let metrics := FallbackMetrics.record_success metrics latency false in
                match slice_to content 60 with
                | Ok _ => stress_loop config rest metrics n'
                | Raise e => (Raise e, n')
                end
              else
                let metrics := FallbackMetrics.record_failure metrics latency in
                match slice_to error 50 with
                | Ok _ => stress_loop config rest metrics n'
                | Raise e => (Raise e, n')
                end
          end
      end
  end.

Definition test_stress_fallback (n : nat) : result (stress_result F) * nat :=
  match create_fallback_config OLLAMA_CONFIG OLLAMA_CONFIG PNone with
  | Raise e => (Raise e, n)
  | Ok config =>
      (* the two hosts printed with the configuration *)
      match rbind (getitem_str OLLAMA_CONFIG (py "custom_host")) (fun _ =>
            getitem_str OLLAMA_CONFIG (py "custom_host")) with
      | Raise e => (Raise e, n)
      | Ok _ =>
          let num_requests := 5%nat in
          match stress_loop config (take num_requests stress_messages)
                  FallbackMetrics.init n with
          | (Raise e, n') => (Raise e, n')
          | (Ok metrics, n') =>
              let total := FallbackMetrics.total_requests metrics in
              (Ok {| sr_test := py "Stress Test";
                     sr_total_requests := total;
                     sr_successful := FallbackMetrics.successful_requests metrics;
                     sr_failed := FallbackMetrics.failed_requests metrics;
                     sr_fallback_triggered := 0;
                     sr_avg_latency :=
                       if (0 <? total)%Z
                       then FloatNum (fdiv (FallbackMetrics.total_latency metrics)
                                        (of_int total))
                       else IntNum 0;
                     sr_success_rate :=
                       if (0 <? total)%Z
                       then FloatNum
                              (fmul (int_truediv
                                       (FallbackMetrics.successful_requests metrics) total)
                                 (of_int 100))
                       else IntNum 0 |}, n')
          end
      end
  end.

End fallback_scenarios.

(** * Properties *)

(** ** The order on strings *)

Lemma str_ltb_irrefl a : str_ltb a a = false.
Proof.
  induction a as [|x a IH]; simpl; [done|].
  by rewrite N.ltb_irrefl, N.eqb_refl, IH.
Qed.

Lemma str_ltb_trichotomy a b :
  str_ltb a b = false -> str_ltb b a = false -> a = b.
Proof.
  revert b. induction a as [|x a IH]; intros [|y b]; simpl; try done.
  destruct (N.ltb_spec x y), (N.ltb_spec y x), (N.eqb_spec x y), (N.eqb_spec y x);
    simpl; try done; try lia.
  intros. f_equal; [done|]. by apply IH.
Qed.

Lemma str_ltb_trans a b c :
  str_ltb a b = true -> str_ltb b c = true -> str_ltb a c = true.
Proof.
  revert b c. induction a as [|x a IH]; intros [|y b] [|z c]; simpl; try done.
  destruct (N.ltb_spec x y), (N.ltb_spec y z), (N.ltb_spec x z),
    (N.eqb_spec x y), (N.eqb_spec y z), (N.eqb_spec x z); simpl; try done; try lia.
  apply IH.
Qed.

Lemma str_ltb_asym a b : str_ltb a b = true -> str_ltb b a = false.
Proof.
  intros Hab. destruct (str_ltb b a) eqn:Hba; [|done].
  by rewrite <-(str_ltb_irrefl a), <-(str_ltb_trans _ _ _ Hab Hba).
Qed.

#[global] Instance item_le_total {A} : Total (@item_le A).
Proof.
  intros x y. unfold item_le, str_leb.
  destruct (str_ltb y.1 x.1) eqn:H; [|by left].
  right. by rewrite (str_ltb_asym _ _ H).
Qed.

#[global] Instance item_le_trans {A} : Transitive (@item_le A).
Proof.
  intros x y z. unfold item_le, str_leb.
  destruct (str_ltb y.1 x.1) eqn:Hyx; [done|].
  destruct (str_ltb z.1 y.1) eqn:Hzy; [done|].
  destruct (str_ltb z.1 x.1) eqn:Hzx; [|done].
  intros _ _. destruct (str_ltb x.1 y.1) eqn:Hxy.
  - by rewrite (str_ltb_trans _ _ _ Hzx Hxy) in Hzy.
  - by rewrite <-(str_ltb_trichotomy _ _ Hxy Hyx), Hzx in Hzy.
Qed.

Lemma item_le_antisym {A} (x y : pystr * A) : item_le x y -> item_le y x -> x.1 = y.1.
Proof.
  unfold item_le, str_leb.
  destruct (str_ltb y.1 x.1) eqn:Hyx; [done|].
  destruct (str_ltb x.1 y.1) eqn:Hxy; [done|].
  intros _ _. by apply str_ltb_trichotomy.
Qed.

(** ** Sorting the items of a dict *)

Lemma same_key_same_item {A} (d : list (pystr * A)) x y :
  NoDup d.*1 -> x ∈ d -> y ∈ d -> x.1 = y.1 -> x = y.
Proof.
  induction d as [|z d IH]; [by inversion 2|].
  rewrite fmap_cons, NoDup_cons. intros [Hz Hd] Hx Hy Hk.
  apply elem_of_cons in Hx as [->|Hx], Hy as [->|Hy]; auto.
  - destruct Hz. rewrite Hk. by apply list_elem_of_fmap_2.
  - destruct Hz. rewrite <-Hk. by apply list_elem_of_fmap_2.
Qed.

Lemma sorted_items_Permutation {A} (d : list (pystr * A)) : sorted_items d ≡ₚ d.
Proof. apply merge_sort_Permutation. Qed.

Lemma sorted_items_unique {A} (d1 d2 : list (pystr * A)) :
  NoDup d1.*1 -> d1 ≡ₚ d2 -> sorted_items d1 = sorted_items d2.
Proof.
  intros Hnd Hp.
  apply (StronglySorted_unique_strong item_le);
    [|apply StronglySorted_merge_sort; apply _..|].
  - intros x y Hx Hy Hxy Hyx.
    apply (same_key_same_item d1); [done| | |by apply item_le_antisym].
    + by rewrite <-(sorted_items_Permutation d1).
    + by rewrite Hp, <-(sorted_items_Permutation d2).
  - by rewrite !sorted_items_Permutation.
Qed.

(** ** [RedisCache.get] and [RedisCache.set] *)

Lemma loads_raises s e : loads s = Raise e -> e = JSONDecodeError.
Proof.
  unfold loads. destruct (scan_once _ _) as [[v rest]|]; [|congruence].
  destruct (skip_ws rest); congruence.
Qed.

Lemma cache_get_eq E self k w :
  RedisCache.get E self k w = (Ok (read_value E w k), record (EvGet k) w).
Proof.
  unfold RedisCache.get, try_except, mbind, M_bind, Redis.get, Redis.call, read_value.
  destruct (fails E (length (log w))); [done|].
  change (Redis.live (record (EvGet k) w) k) with (Redis.live w k).
  destruct (Redis.live w k) as [text|]; [|done].
  case_bool_decide; [done|].
  unfold lift. destruct (loads text) as [v|e] eqn:Hl; [done|].
  by rewrite (loads_raises _ _ Hl).
Qed.

Lemma cache_set_eq E self k response ttl w :
  RedisCache.set E self k response ttl w = (Ok tt, written E self k response ttl w).
Proof.
  unfold RedisCache.set, try_except, Redis.setex, Redis.call, written.
  fold (effective_ttl self ttl).
  destruct (fails E (length (log w))); [done|]. simpl.
  by destruct (effective_ttl self ttl <=? 0)%Z.
Qed.


(** C9. With a positive default, [RedisCache.set] called with [ttl] 0 or
    [None] stores the entry with the default TTL and not with a zero one;
    a positive [ttl] is used as given; a negative one stores nothing. *)
Theorem cache_set_falsy_ttl E self k response w :
  fails E (length (log w)) = false ->
  (0 < RedisCache.default_ttl self)%Z ->
  let stored ttl := store (RedisCache.set E self k response ttl w).2 !! k in
  let entry seconds := Some (dumps false response, (clock w + seconds)%Z) in
  stored None = entry (RedisCache.default_ttl self)
  /\ stored (Some 0%Z) = entry (RedisCache.default_ttl self)
  /\ (forall n, (0 < n)%Z -> stored (Some n) = entry n)
  /\ (forall n, (n < 0)%Z ->
      store (RedisCache.set E self k response (Some n) w).2 = store w).
Proof.
  intros Hok Hpos stored entry. unfold stored, entry.
  rewrite !cache_set_eq. unfold written. rewrite Hok. simpl.
  destruct (Z.leb_spec (RedisCache.default_ttl self) 0) as [|_]; [lia|].
  split_and!; simpl; try apply lookup_insert_eq.
  - intros n Hn. rewrite cache_set_eq. unfold written. rewrite Hok. simpl.
    destruct (Z.eqb_spec n 0) as [|_]; [lia|].
    destruct (Z.leb_spec n 0) as [|_]; [lia|]. apply lookup_insert_eq.
  - intros n Hn. rewrite cache_set_eq. unfold written. rewrite Hok. simpl.
    destruct (Z.eqb_spec n 0) as [|_]; [lia|].
    by destruct (Z.leb_spec n 0) as [_|]; [|lia].
Qed.

Lemma cache_set_falsy_ttl_witness :
  store (RedisCache.set sample_env sample_cache (py "llm_cache:k") sample_response
           (Some 0%Z) empty_world).2 !! py "llm_cache:k"
  = Some (dumps false sample_response, 300%Z).
Proof.
  apply (cache_set_falsy_ttl sample_env sample_cache (py "llm_cache:k")
           sample_response empty_world); [reflexivity | reflexivity].
Defined.

(** ** The output of [json.dumps] is ASCII *)

Lemma hex_digit_ascii n : (n < 16)%N -> (hex_digit n < 128)%N.
Proof. unfold hex_digit. destruct (N.ltb_spec n 10); lia. Qed.

Lemma hex4_ascii n : is_ascii (hex4 n).
Proof.
  unfold hex4, is_ascii. rewrite !Forall_cons.
  split_and!; try apply hex_digit_ascii; try by apply N.mod_lt. constructor.
Qed.

Lemma u_escape_ascii n : is_ascii (u_escape n).
Proof. unfold u_escape. do 2 (constructor; [done|]). apply hex4_ascii. Qed.

Lemma escape_char_ascii c : is_ascii (escape_char c).
Proof.
  unfold escape_char.
  do 7 (case_match; [by repeat constructor|]).
  destruct ((32 <=? c)%N && (c <=? 126)%N) eqn:Hp.
  { apply andb_prop in Hp as [_ ?%N.leb_le]. constructor; [lia | constructor]. }
  case_match; [apply u_escape_ascii|].
  apply Forall_app; split; apply u_escape_ascii.
Qed.

Lemma escape_chars_ascii s : is_ascii (escape_chars s).
Proof.
  induction s as [|c s IH]; simpl; [constructor|].
  apply Forall_app; split; [apply escape_char_ascii | done].
Qed.

Lemma encode_basestring_ascii_ascii s : is_ascii (encode_basestring_ascii s).
Proof.
  unfold encode_basestring_ascii. constructor; [done|].
  apply Forall_app; split; [apply escape_chars_ascii | by repeat constructor].
Qed.

Lemma str_of_uint_ascii d : is_ascii (str_of_uint d).
Proof. induction d; simpl; by constructor. Qed.

Lemma str_of_Z_ascii z : is_ascii (str_of_Z z).
Proof.
  destruct z; simpl; [by repeat constructor | apply str_of_uint_ascii|].
  constructor; [done | apply str_of_uint_ascii].
Qed.

Lemma join_ascii sep parts :
  is_ascii sep -> Forall is_ascii parts -> is_ascii (join sep parts).
Proof.
  intros Hsep. induction 1 as [|p parts Hp Hps IH]; simpl; [constructor|].
  destruct parts; [done|].
  apply Forall_app; split; [done|]. apply Forall_app; split; [done | apply IH].
Qed.

Lemma dumps_ascii sk v : float_free v -> is_ascii (dumps sk v).
Proof.
  induction v as [|[]| | | |l IH|d IH] using pyval_nested_ind; simpl; intros Hf;
    try done; try by repeat constructor.
  - apply str_of_Z_ascii.
  - apply encode_basestring_ascii_ascii.
  - constructor; [done|]. apply Forall_app; split; [|by repeat constructor].
    apply join_ascii; [by repeat constructor|].
    apply Forall_fmap. apply forallb_True in Hf.
    eapply Forall_impl; [exact (proj2 (Forall_and _ _) (conj IH Hf))|].
    simpl. intros x [Hx Hfx]. by apply Hx.
  - constructor; [done|]. apply Forall_app; split; [|by repeat constructor].
    apply join_ascii; [by repeat constructor|].
    apply Forall_fmap.
    set (items := map (fun kv : pystr * pyval => let (k, x) := kv in (k, dumps sk x)) d).
    assert (Forall (fun kv : pystr * pystr => is_ascii kv.2) items) as Hitems.
    { apply Forall_fmap. apply forallb_True in Hf.
      eapply Forall_impl; [exact (proj2 (Forall_and _ _) (conj IH Hf))|].
      simpl. intros [k x] [Hx Hfx]. by apply Hx. }
    assert (Forall (fun kv : pystr * pystr => is_ascii kv.2)
              (if sk then sorted_items items else items)) as Hsorted.
    { destruct sk; [|done]. by rewrite sorted_items_Permutation. }
    eapply Forall_impl; [exact Hsorted|]. intros [k t] Ht.
    change (is_ascii (encode_basestring_ascii k ++ sep_key ++ t)).
    apply Forall_app; split; [apply encode_basestring_ascii_ascii|].
    apply Forall_app; split; [by repeat constructor | done].
Qed.

Lemma encode_ascii s : is_ascii s -> encode s = Ok s.
Proof.
  induction 1 as [|c s Hc Hs IH]; simpl; [done|].
  unfold utf8_char. destruct (N.ltb_spec c 128); [|lia]. simpl. by rewrite IH.
Qed.

(** ** Building a dict from its items *)

Lemma dict_set_Forall (Q : pystr * pyval -> Prop) k v (d : pydict) :
  Forall Q d -> Q (k, v) -> Forall Q (dict_set k v d).
Proof.
  intros Hd Hkv. induction Hd as [|[k' v'] d Hx Hd IH]; simpl.
  - by repeat constructor.
  - case_decide as Hk; [subst k'|]; by constructor.
Qed.

Lemma dict_of_items_Forall (Q : pystr * pyval -> Prop) (pairs : pydict) :
  Forall Q pairs -> Forall Q (dict_of_items pairs).
Proof.
  unfold dict_of_items. assert (Forall Q ([] : pydict)) as Hacc by constructor.
  revert Hacc. generalize ([] : pydict) as acc.
  induction pairs as [|[k v] pairs IH]; intros acc Hacc Hp; simpl; [done|].
  inversion_clear Hp. apply IH; [|done]. by apply dict_set_Forall.
Qed.

Lemma dict_set_fresh k v (d : pydict) : k ∉ d.*1 -> dict_set k v d = d ++ [(k, v)].
Proof.
  induction d as [|[k' v'] d IH]; simpl; [done|].
  rewrite not_elem_of_cons. intros [Hne Hk].
  case_decide; [congruence|]. by rewrite IH.
Qed.

Lemma fold_dict_set (acc pairs : pydict) :
  NoDup (acc ++ pairs).*1 ->
  fold_left (fun d kv => dict_set kv.1 kv.2 d) pairs acc = acc ++ pairs.
Proof.
  revert acc. induction pairs as [|[k v] pairs IH]; intros acc Hnd; simpl.
  - by rewrite app_nil_r.
  - rewrite dict_set_fresh.
    + rewrite IH; rewrite <-app_assoc; done.
    + rewrite fmap_app in Hnd. apply NoDup_app in Hnd as (_ & Hnd & _).
      intros Hk. apply (Hnd _ Hk). by left.
Qed.

(** The items of a dict, put into an empty dict one by one, give the dict. *)
Lemma dict_of_items_NoDup (pairs : pydict) : NoDup pairs.*1 -> dict_of_items pairs = pairs.
Proof. intros Hnd. by apply (fold_dict_set []). Qed.

(** [get_cache_key] returns for float-free arguments: the namespace tag
    and the hex digest of the canonical JSON text. *)
Lemma get_cache_key_returns provider model messages (kwargs : pydict) :
  float_free messages ->
  forallb (fun kv => float_free kv.2) kwargs ->
  RedisCache.get_cache_key provider model messages kwargs
  = Ok (py "llm_cache:"
          ++ SHA256.hexdigest (RedisCache.key_json provider model messages kwargs)).
Proof.
  intros Hm Hk. unfold RedisCache.get_cache_key.
  rewrite encode_ascii; [done|]. apply dumps_ascii. simpl.
  destruct (float_free messages); [simpl|done]. rewrite andb_true_r.
  apply forallb_True, dict_of_items_Forall. rewrite sorted_items_Permutation.
  by apply forallb_True.
Qed.

(** ** The cache key and the order of the parameters *)

(** C1. Two requests with the same provider, model and messages, whose
    parameter dicts hold the same items in a different insertion order, get
    the same cache key from [get_cache_key]; with no float among the
    arguments the call returns a key. *)
Theorem get_cache_key_insertion_order provider model messages (kwargs1 kwargs2 : pydict) :
  NoDup kwargs1.*1 ->
  kwargs1 ≡ₚ kwargs2 ->
  RedisCache.get_cache_key provider model messages kwargs1
  = RedisCache.get_cache_key provider model messages kwargs2
  /\ (float_free messages ->
      forallb (fun kv => float_free kv.2) kwargs1 ->
      exists key, RedisCache.get_cache_key provider model messages kwargs2 = Ok key).
Proof.
  intros Hnd Hp.
  assert (RedisCache.get_cache_key provider model messages kwargs1
          = RedisCache.get_cache_key provider model messages kwargs2) as Heq.
  { unfold RedisCache.get_cache_key, RedisCache.key_json, RedisCache.key_data.
    by rewrite (sorted_items_unique kwargs1 kwargs2). }
  split; [done|]. intros Hm Hk. rewrite <-Heq. eexists.
  by apply get_cache_key_returns.
Qed.

Lemma get_cache_key_insertion_order_witness :
  RedisCache.get_cache_key (py "ollama") (py "llama3") sample_messages
    [(py "max_tokens", PInt 100); (py "stream", PBool false)]
  = RedisCache.get_cache_key (py "ollama") (py "llama3") sample_messages
      [(py "stream", PBool false); (py "max_tokens", PInt 100)]
  /\ (float_free sample_messages ->
      forallb (fun kv : pystr * pyval => float_free kv.2)
        [(py "max_tokens", PInt 100); (py "stream", PBool false)] ->
      exists key,
        RedisCache.get_cache_key (py "ollama") (py "llama3") sample_messages
          [(py "stream", PBool false); (py "max_tokens", PInt 100)] = Ok key).
Proof.
  apply get_cache_key_insertion_order.
  - apply (bool_decide_unpack _). vm_compute. exact I.
  - apply perm_swap.
Defined.

(** ** The cached request, step by step *)

Lemma request_key_eq cfg message :
  RedisCache.get_cache_key (provider cfg) (model cfg) (user_messages message) request_params
  = Ok (request_key cfg message).
Proof. by apply get_cache_key_returns. Qed.

Lemma upstream_eq E cache cfg message (use_cache : bool) w :
  (timed E (chat_completions_create E cfg (model cfg) (user_messages message) request_params)
   ≫= (fun p : pyval * Q =>
         let '(response, elapsed_time) := p in
         lift (response_content response) ≫= (fun content : pystr =>
         (if use_cache
          then RedisCache.set E cache (request_key cfg message) (model_dump response) None
          else mret tt) ≫= (fun _ : unit =>
         (mret (content, elapsed_time, false) : M (pystr * Q * bool)))))) w
  = upstream_outcome E cache cfg message use_cache w.
Proof.
  unfold upstream_outcome, mbind, M_bind, timed, chat_completions_create, lift.
  fold (request_of cfg message).
  destruct (llm E (length (log w)) (request_of cfg message)) as [response|e]; [|done].
  destruct (response_content response) as [content|e]; [|done].
  destruct use_cache; [|done]. by rewrite cache_set_eq.
Qed.

(** A request that bypasses the cache. *)
Lemma request_bypass_eq E cache cfg message w :
  make_cached_chat_request E cache cfg message false w
  = upstream_outcome E cache cfg message false w.
Proof.
  unfold make_cached_chat_request.
  fold (user_messages message). fold request_params.
  unfold mbind at 1, M_bind at 1, lift at 1. rewrite request_key_eq.
  exact (upstream_eq E cache cfg message false w).
Qed.

(** A request that uses the cache. *)
Lemma request_cached_eq E cache cfg message w :
  make_cached_chat_request E cache cfg message true w
  = let v := read_value E w (request_key cfg message) in
    let w1 := record (EvGet (request_key cfg message)) w in
    if is_truthy v then
      match cached_content v with
      | Ok content => (Ok (content, took E (length (log w)), true), w1)
      | Raise e => (Raise e, w1)
      end
    else upstream_outcome E cache cfg message true w1.
Proof.
  unfold make_cached_chat_request.
  fold (user_messages message). fold request_params.
  unfold mbind at 1, M_bind at 1, lift at 1. rewrite request_key_eq.
  unfold mbind at 1, M_bind at 1, timed at 1. rewrite cache_get_eq. simpl.
  destruct (is_truthy _); [|exact (upstream_eq E cache cfg message true _)].
  unfold mbind, M_bind, lift. by destruct (cached_content _).
Qed.

(** ** Requests that bypass the cache, and requests that fail *)

(** C6. With [use_cache=False] the gateway is called whatever the store
    holds, the only call made is that one (no read of the store, no write
    to it), the store is left as it was, and a call that returns reports no
    hit. *)
Theorem bypass_leaves_store E cache cfg message w :
  exists r,
    make_cached_chat_request E cache cfg message false w
    = (r, record (EvChat (request_of cfg message)) w)
    /\ store (record (EvChat (request_of cfg message)) w) = store w
    /\ log (record (EvChat (request_of cfg message)) w)
       = log w ++ [EvChat (request_of cfg message)]
    /\ (forall e, llm E (length (log w)) (request_of cfg message) = Raise e -> r = Raise e)
    /\ (forall content elapsed hit, r = Ok (content, elapsed, hit) ->
        hit = false
        /\ exists response,
             llm E (length (log w)) (request_of cfg message) = Ok response
             /\ response_content response = Ok content).
Proof.
  rewrite request_bypass_eq. unfold upstream_outcome.
  destruct (llm E (length (log w)) (request_of cfg message)) as [response|e].
  - destruct (response_content response) as [content|e] eqn:Hc.
    + eexists. split_and!; try done. intros ??? [= <- <- <-]. eauto.
    + eexists. split_and!; done.
  - eexists. split_and!; try done. by intros ? [= ->].
Qed.

(** C4. When a request that uses the cache misses and the gateway raises,
    the request raises the same exception and the store is left as it
    was: the gateway call is the last call made. *)
Theorem compute_failure_leaves_store E cache cfg message w v w1 e :
  RedisCache.get E cache (request_key cfg message) w = (Ok v, w1) ->
  is_truthy v = false ->
  llm E (length (log w1)) (request_of cfg message) = Raise e ->
  exists w',
    make_cached_chat_request E cache cfg message true w = (Raise e, w')
    /\ store w' = store w
    /\ clock w' = clock w
    /\ log w' = log w ++ [EvGet (request_key cfg message); EvChat (request_of cfg message)].
Proof.
  rewrite cache_get_eq. intros [= <- <-] Hv He.
  rewrite request_cached_eq. simpl. rewrite Hv. unfold upstream_outcome.
  rewrite He. eexists. split_and!; try done. simpl. by rewrite <-app_assoc.
Qed.

Lemma compute_failure_leaves_store_witness :
  exists w',
    make_cached_chat_request refusing_env sample_cache sample_config (py "ping") true
      empty_world
    = (Raise (APIError (py "upstream unavailable")), w')
    /\ store w' = store empty_world
    /\ clock w' = clock empty_world
    /\ log w' = log empty_world ++ [EvGet (request_key sample_config (py "ping"));
                                    EvChat (request_of sample_config (py "ping"))].
Proof.
  apply (compute_failure_leaves_store refusing_env sample_cache sample_config (py "ping")
           empty_world PNone
           (record (EvGet (request_key sample_config (py "ping"))) empty_world)).
  - rewrite cache_get_eq. reflexivity.
  - reflexivity.
  - reflexivity.
Defined.

Lemma loads_nonempty text v : loads text = Ok v -> text <> [].
Proof. by intros Hl ->. Qed.

(** A live payload that decodes to a true value is a hit; the hit path
    raises what reading the content out of that value raises. *)
Lemma hit_path_raises E cache cfg message w payload v e :
  fails E (length (log w)) = false ->
  Redis.live w (request_key cfg message) = Some payload ->
  loads payload = Ok v ->
  is_truthy v = true ->
  cached_content v = Raise e ->
  make_cached_chat_request E cache cfg message true w
  = (Raise e, record (EvGet (request_key cfg message)) w).
Proof.
  intros Hok Hlive Hl Hv He. rewrite request_cached_eq. simpl.
  unfold read_value. rewrite Hok, Hlive.
  rewrite bool_decide_false by eauto using loads_nonempty.
  by rewrite Hl, Hv, He.
Qed.
(** C10. Some stored payload is valid JSON and yet makes a request that
    uses the cache raise from the hit path: the payload decodes to a dict
    without ["choices"], the request raises [KeyError] and the gateway is
    not called. *)
Theorem hit_path_raises_on_stray_json :
  exists payload v w,
    loads payload = Ok v
    /\ Redis.live w (request_key sample_config (py "ping")) = Some payload
    /\ make_cached_chat_request sample_env sample_cache sample_config (py "ping") true w
       = (Raise (KeyError (PStr (py "choices"))),
          record (EvGet (request_key sample_config (py "ping"))) w).
Proof.
  exists stray_payload, (PDict [(py "a", PInt 1)]), stray_world.
  assert (Redis.live stray_world (request_key sample_config (py "ping"))
          = Some stray_payload) as Hlive.
  { unfold Redis.live, stray_world. simpl. by rewrite lookup_singleton_eq. }
  split_and!; [done | done |].
  by apply (hit_path_raises _ _ _ _ _ stray_payload (PDict [(py "a", PInt 1)])).
Qed.

(** ** The statistics of the scenarios *)

(** The speedup the specification describes: the first latency over the
    mean of the later ones, infinite when that mean is 0. *)
Lemma simple_speedup_spec time1 time2 :
  (0 <= time2)%Q ->
  simple_speedup time1 time2
  = if Qeq_bool time2 0 then Infinite else Finite (time1 / time2).
Proof.
  intros Hpos. unfold simple_speedup.
  destruct (Qlt_le_dec 0 time2) as [Hlt|Hle].
  - destruct (Qeq_bool time2 0) eqn:Heq; [|done].
    apply Qeq_bool_eq in Heq. rewrite Heq in Hlt. by apply Qlt_irrefl in Hlt.
  - destruct (Qeq_bool time2 0) eqn:Heq; [done|].
    apply Qeq_bool_neq in Heq. destruct Heq. by apply Qle_antisym.
Qed.

Lemma persistence_speedup_positive first rest :
  (0 < avg_cached_time (first :: rest))%Q ->
  persistence_speedup (first :: rest)
  = Ok (Finite (first / avg_cached_time (first :: rest))).
Proof.
  intros Hpos. unfold persistence_speedup.
  destruct (Qlt_le_dec 0 _) as [|Hle]; [done|].
  destruct (Qlt_not_le _ _ Hpos Hle).
Qed.

(** C3. Five identical requests whose four cached reads take no
    measurable time: the mean of the later latencies is 0 and the
    persistence test reports the speedup 0, not infinity, while the simple
    test reports infinity for a second latency of 0. *)
Theorem persistence_speedup_zero_mean :
  (avg_cached_time [1; 0; 0; 0; 0] == 0)%Q
  /\ persistence_speedup [1; 0; 0; 0; 0]%Q = Ok (Finite 0)
  /\ simple_speedup 1 0 = Infinite
  /\ reported_speedup
       (run_cache_persistence_test sample_env sample_cache sample_config empty_world)
     = Some (Finite 0)
  /\ reported_speedup
       (run_simple_cache_test sample_env sample_cache sample_config empty_world)
     = Some Infinite.
Proof. by vm_compute. Qed.
(** ** Invalidation *)

Lemma bucket_lt E k : (Redis.bucket E k < Npos (nbuckets E))%N.
Proof. unfold Redis.bucket. by apply N.mod_lt. Qed.

Lemma elem_of_scan_keys E w cursor pattern count k :
  k ∈ Redis.scan_keys E w cursor pattern count
  <-> is_Some (Redis.live w k)
      /\ (cursor <= Redis.bucket E k < cursor + count)%N
      /\ Redis.glob pattern k = true.
Proof.
  unfold Redis.scan_keys. rewrite list_elem_of_filter, Is_true_true.
  rewrite !andb_true_iff, bool_decide_eq_true, N.leb_le, N.ltb_lt.
  split; [intros [(((? & ?) & ?) & ?) _]; done|].
  intros (Hl & [Hb1 Hb2] & Hg). split; [done|].
  apply list_elem_of_fmap. unfold Redis.live in Hl.
  destruct (store w !! k) as [[v ex]|] eqn:Hk; [|by destruct Hl].
  exists (k, (v, ex)). split; [done|]. by apply elem_of_map_to_list.
Qed.

Lemma NoDup_scan_keys E w cursor pattern count :
  NoDup (Redis.scan_keys E w cursor pattern count).
Proof. apply NoDup_filter, NoDup_fst_map_to_list. Qed.

Lemma live_after_delete w w' ks k :
  store w' = foldr base.delete (store w) ks ->
  clock w' = clock w ->
  Redis.live w' k = if decide (k ∈ ks) then None else Redis.live w k.
Proof.
  intros Hs Hc. unfold Redis.live. rewrite Hs, Hc. case_decide.
  - by rewrite lookup_foldr_delete.
  - by rewrite lookup_foldr_delete_not_elem_of.
Qed.

(** One turn of the loop of [clear] when the server answers. *)
Lemma clear_turn E pattern cursor w :
  (forall n, length (log w) <= n -> fails E n = false) ->
  let keys := Redis.scan_keys E w cursor pattern 100 in
  let next := (if Npos (nbuckets E) <=? cursor + 100 then 0 else cursor + 100)%N in
  exists w2,
    Redis.scan E cursor pattern 100 w = (Ok (next, keys), record (EvScan cursor pattern 100) w)
    /\ (if bool_decide (keys = []) then (Ok tt, record (EvScan cursor pattern 100) w)
        else Redis.delete E keys (record (EvScan cursor pattern 100) w)) = (Ok tt, w2)
    /\ store w2 = foldr base.delete (store w) keys
    /\ clock w2 = clock w
    /\ (forall n, length (log w2) <= n -> fails E n = false).
Proof.
  intros Hok keys next.
  assert (Redis.scan E cursor pattern 100 w
          = (Ok (next, keys), record (EvScan cursor pattern 100) w)) as Hscan.
  { unfold Redis.scan, Redis.call. by rewrite Hok. }
  case_bool_decide as Hk.
  - eexists. split_and!; [done | done | by rewrite Hk | done |].
    intros n Hn. apply Hok. simpl in Hn. rewrite length_app in Hn. lia.
  - unfold Redis.delete, Redis.call. rewrite Hok.
    2:{ simpl. rewrite length_app. lia. }
    eexists. split_and!; [done | done | done | done |].
    intros n Hn. apply Hok. simpl in Hn. rewrite !length_app in Hn. lia.
Qed.

Lemma clear_loop_spec E pattern fuel : forall cursor count w,
  (forall n, length (log w) <= n -> fails E n = false) ->
  (Npos (nbuckets E) <= cursor + 100 * N.of_nat fuel)%N ->
  (0 < fuel)%nat ->
  let keys := Redis.scan_keys E w cursor pattern (Npos (nbuckets E) - cursor) in
  exists w',
    RedisCache.clear_loop E fuel pattern cursor count w
    = Some (Ok (count + Z.of_nat (length keys))%Z, w')
    /\ store w' = foldr base.delete (store w) keys
    /\ clock w' = clock w.
Proof.
  induction fuel as [|fuel IH]; intros cursor count w Hok Hfuel Hpos keys; [lia|].
  destruct (clear_turn E pattern cursor w Hok) as (w2 & Hscan & Hdel & Hs2 & Hc2 & Hok2).
  set (batch := Redis.scan_keys E w cursor pattern 100) in *.
  assert (forall k, Redis.live w2 k = if decide (k ∈ batch) then None else Redis.live w k)
    as Hlive by (intros; by apply live_after_delete).
  simpl. rewrite Hscan.
  assert ((if bool_decide (batch = [])
           then (Ok count, record (EvScan cursor pattern 100) w)
           else match Redis.delete E batch (record (EvScan cursor pattern 100) w) with
                | (Ok _, w3) => (Ok (count + Z.of_nat (length batch))%Z, w3)
                | (Raise e, w3) => (Raise e, w3)
                end) = (Ok (count + Z.of_nat (length batch))%Z, w2)) as ->.
  { case_bool_decide as Hb.
    - injection Hdel as <-. rewrite Hb. simpl. by rewrite Z.add_0_r.
    - by rewrite Hdel. }
  destruct (N.leb_spec (Npos (nbuckets E)) (cursor + 100)) as [Hlast|Hmore].
  - (* the table is done *)
    simpl. exists w2.
    assert (keys ≡ₚ batch) as Hperm.
    { apply NoDup_Permutation; [apply NoDup_scan_keys..|]. intros k.
      unfold keys, batch. rewrite !elem_of_scan_keys.
      pose proof (bucket_lt E k). intuition lia. }
    split_and!; [by rewrite Hperm | | done].
    rewrite Hs2. apply map_eq. intros k.
    destruct (decide (k ∈ batch)) as [Hk|Hk].
    + rewrite !lookup_foldr_delete; [done | by rewrite Hperm | done].
    + rewrite !lookup_foldr_delete_not_elem_of; [done | by rewrite Hperm | done].
  - (* more buckets to visit *)
    destruct (N.eqb_spec (cursor + 100) 0) as [|_]; [lia|].
    destruct (IH (cursor + 100)%N (count + Z.of_nat (length batch))%Z w2 Hok2)
      as (w' & Hloop & Hs' & Hc'); [lia | lia |].
    set (later := Redis.scan_keys E w2 (cursor + 100) pattern
                    (Npos (nbuckets E) - (cursor + 100))) in *.
    assert (keys ≡ₚ batch ++ later) as Hperm.
    { apply NoDup_Permutation; [apply NoDup_scan_keys| |].
      - apply NoDup_app. split_and!; [apply NoDup_scan_keys | | apply NoDup_scan_keys].
        intros k. unfold batch, later. rewrite !elem_of_scan_keys. lia.
      - intros k. rewrite elem_of_app. unfold keys, batch, later.
        rewrite !elem_of_scan_keys, Hlive. pose proof (bucket_lt E k).
        case_decide as Hk.
        + unfold batch in Hk. rewrite elem_of_scan_keys in Hk.
          split; [intros _; by left | intros _].
          destruct Hk as (? & ? & ?). split_and!; [done | lia | lia | done].
        + unfold batch in Hk. rewrite elem_of_scan_keys in Hk.
          split.
          * intros (Hl & Hb & Hg).
            destruct (decide (Redis.bucket E k < cursor + 100)%N);
              [destruct Hk; split_and!; [done | lia | lia | done]|].
            right. split_and!; [done | lia | lia | done].
          * intros [(? & ? & ?)|(? & ? & ?)]; split_and!; try done; lia. }
    exists w'. split_and!.
    + rewrite Hloop, Hperm, length_app. do 3 f_equal. lia.
    + rewrite Hs', Hs2. apply map_eq. intros k.
      destruct (decide (k ∈ keys)) as [Hk|Hk].
      * rewrite (lookup_foldr_delete _ keys) by done.
        rewrite Hperm, elem_of_app in Hk. destruct (decide (k ∈ later)).
        -- by rewrite lookup_foldr_delete.
        -- rewrite lookup_foldr_delete_not_elem_of by done.
           apply lookup_foldr_delete. tauto.
      * rewrite (lookup_foldr_delete_not_elem_of _ keys) by done.
        rewrite Hperm, elem_of_app in Hk.
        rewrite !lookup_foldr_delete_not_elem_of; [done | tauto | tauto].
    + by rewrite Hc'.
Qed.

(** The default pattern matches the keys that start with the namespace
    tag. *)
Lemma glob_star s : Redis.glob [42%N] s = true.
Proof. induction s as [|c s IH]; [done|]. simpl in *. exact IH. Qed.

Lemma glob_default_pattern k :
  Redis.glob RedisCache.default_pattern k = true <-> py "llm_cache:" `prefix_of` k.
Proof.
  assert (forall lit s,
    Forall (fun c => c <> 42 /\ c <> 63 /\ c <> backslash)%N lit ->
    Redis.glob (lit ++ [42%N]) s = true <-> lit `prefix_of` s) as Hlit.
  { intros lit s Hl. revert s.
    induction Hl as [|c lit (H1 & H2 & H3) Hl IH]; intros s.
    - split; [intros _; apply prefix_nil | intros _; apply glob_star].
    - cbn [app Redis.glob].
      destruct (N.eqb_spec c 42) as [|_]; [done|].
      destruct (N.eqb_spec c 63) as [|_]; [done|].
      destruct (N.eqb_spec c backslash) as [|_]; [done|].
      destruct s as [|x s].
      + split; [done | by intros ?%prefix_nil_not].
      + rewrite andb_true_iff, N.eqb_eq, IH. split.
        * intros [-> ?]. by apply prefix_cons.
        * intros Hp. split; [by apply prefix_cons_inv_1 in Hp | by apply prefix_cons_inv_2 in Hp]. }
  apply (Hlit (py "llm_cache:")).
  apply Forall_forall. intros c Hc. vm_compute in Hc.
  repeat (apply elem_of_cons in Hc as [->|Hc]; [done|]). by apply elem_of_nil in Hc.
Qed.

Lemma set_each_spec E self (entries : pydict) : forall w,
  (forall n, length (log w) <= n -> fails E n = false) ->
  (0 < RedisCache.default_ttl self)%Z ->
  exists w',
    set_each E self entries w = (Ok tt, w')
    /\ clock w' = clock w
    /\ (forall n, length (log w') <= n -> fails E n = false)
    /\ (forall k, k ∉ entries.*1 -> store w' !! k = store w !! k)
    /\ (forall k, k ∈ entries.*1 -> is_Some (Redis.live w' k)).
Proof.
  induction entries as [|[k1 r1] entries IH]; intros w Hok Httl.
  { exists w. split_and!; try done. by intros k ?%elem_of_nil. }
  simpl. unfold mbind, M_bind. rewrite cache_set_eq.
  set (w1 := written E self k1 r1 None w).
  assert (store w1 = <[k1 := (dumps false r1, (clock w + RedisCache.default_ttl self)%Z)]>
                       (store w)
          /\ clock w1 = clock w /\ log w1 = log w ++ [EvSetex k1 (RedisCache.default_ttl self) (dumps false r1)])
    as (Hs1 & Hc1 & Hl1).
  { unfold w1, written. rewrite Hok by done. simpl.
    destruct (Z.leb_spec (RedisCache.default_ttl self) 0); [lia|done]. }
  destruct (IH w1) as (w' & Hrun & Hc' & Hok' & Hother & Hlive); [|done|].
  { intros n Hn. apply Hok. rewrite Hl1, length_app in Hn. lia. }
  exists w'. split_and!; [done | congruence | done | |].
  - intros k [Hk1 Hk]%not_elem_of_cons. rewrite Hother, Hs1 by done.
    by rewrite lookup_insert_ne.
  - intros k Hk. destruct (decide (k ∈ entries.*1)) as [|Hnot]; [by apply Hlive|].
    apply elem_of_cons in Hk as [->|]; [|done].
    unfold Redis.live. rewrite Hother, Hs1, lookup_insert_eq, Hc', Hc1 by done.
    destruct (Z.ltb_spec (clock w) (clock w + RedisCache.default_ttl self)); [done|lia].
Qed.

(** C7. After [K] entries with distinct keys are written under the
    namespace of the cache, into a store that held no live key of that
    namespace, [clear] with the default pattern returns [K] and each of the
    keys is a miss afterwards; with no entry written it returns 0. *)
Theorem clear_deletes_namespace E self (entries : pydict) w :
  (forall n, length (log w) <= n -> fails E n = false) ->
  (0 < RedisCache.default_ttl self)%Z ->
  NoDup entries.*1 ->
  Forall (fun k => py "llm_cache:" `prefix_of` k) entries.*1 ->
  (forall k, py "llm_cache:" `prefix_of` k -> Redis.live w k = None) ->
  exists w1 w2,
    set_each E self entries w = (Ok tt, w1)
    /\ RedisCache.clear E self RedisCache.default_pattern w1
       = Some (Ok (Z.of_nat (length entries)), w2)
    /\ (forall k, k ∈ entries.*1 ->
        Redis.live w2 k = None
        /\ (RedisCache.get E self k w2).1 = Ok PNone).
Proof.
  intros Hok Httl Hnd Hns Hfresh.
  destruct (set_each_spec E self entries w Hok Httl) as (w1 & Hrun & Hc1 & Hok1 & Hother & Hlive).
  destruct (clear_loop_spec E RedisCache.default_pattern (S (Pos.to_nat (nbuckets E)))
              0%N 0%Z w1 Hok1) as (w2 & Hclear & Hs2 & Hc2); [lia | lia |].
  set (keys := Redis.scan_keys E w1 0 RedisCache.default_pattern (N.pos (nbuckets E) - 0))
    in *.
  assert (keys ≡ₚ entries.*1) as Hperm.
  { apply NoDup_Permutation; [apply NoDup_scan_keys | done |]. intros k.
    unfold keys. rewrite elem_of_scan_keys, glob_default_pattern. split.
    - intros (Hl & _ & Hp). destruct (decide (k ∈ entries.*1)) as [|Hk]; [done|].
      unfold Redis.live in Hl. rewrite Hother, Hc1 in Hl by done.
      specialize (Hfresh k Hp). unfold Redis.live in Hfresh. rewrite Hfresh in Hl.
      by destruct Hl.
    - intros Hk. rewrite Forall_forall in Hns. pose proof (bucket_lt E k).
      split_and!; [by apply Hlive | lia | lia | by apply Hns]. }
  exists w1, w2. split_and!; [done | |].
  - unfold RedisCache.clear. rewrite Hclear, Hperm, length_fmap. done.
  - intros k Hk.
    assert (Redis.live w2 k = None) as Hgone.
    { unfold Redis.live. by rewrite Hs2, lookup_foldr_delete by (by rewrite Hperm). }
    split; [done|]. rewrite cache_get_eq. simpl. unfold read_value. rewrite Hgone.
    by destruct (fails E _).
Qed.
Lemma clear_deletes_namespace_witness :
  exists w1 w2,
    set_each sample_env sample_cache sample_entries empty_world = (Ok tt, w1)
    /\ RedisCache.clear sample_env sample_cache RedisCache.default_pattern w1
       = Some (Ok 2%Z, w2)
    /\ (forall k, k ∈ sample_entries.*1 ->
        Redis.live w2 k = None
        /\ (RedisCache.get sample_env sample_cache k w2).1 = Ok PNone).
Proof.
  apply (clear_deletes_namespace sample_env sample_cache sample_entries empty_world).
  - reflexivity.
  - reflexivity.
  - apply (bool_decide_unpack _). vm_compute. exact I.
  - repeat constructor; eexists; reflexivity.
  - reflexivity.
Defined.

(** ** [json.loads] after [json.dumps] *)

(** Linear arithmetic with divisions by constants. *)
Ltac divlia := zify; Z.to_euclidean_division_equations; lia.

Lemma hex_val_hex_digit n : (n < 16)%N -> hex_val (hex_digit n) = Some n.
Proof.
  intros Hn. unfold hex_val, hex_digit.
  destruct (N.ltb_spec n 10).
  - destruct (N.leb_spec 48 (48 + n)); [|lia].
    destruct (N.leb_spec (48 + n) 57); [|lia]. simpl. f_equal. lia.
  - destruct (N.leb_spec 48 (87 + n)); [|lia].
    destruct (N.leb_spec (87 + n) 57); [lia|]. simpl.
    destruct (N.leb_spec 97 (87 + n)); [|lia].
    destruct (N.leb_spec (87 + n) 102); [|lia]. simpl. f_equal. lia.
Qed.

Lemma hex4_digits n :
  (n < 65536)%N ->
  (((N.shiftr n 12 mod 16 * 16 + N.shiftr n 8 mod 16) * 16 + N.shiftr n 4 mod 16) * 16
   + n mod 16 = n)%N.
Proof.
  intros Hn. rewrite !N.shiftr_div_pow2.
  change (2 ^ 12)%N with (16 * (16 * 16))%N. change (2 ^ 8)%N with (16 * 16)%N.
  change (2 ^ 4)%N with 16%N. rewrite <-!N.Div0.div_div.
  pose proof (N.div_mod n 16 ltac:(done)).
  pose proof (N.div_mod (n / 16) 16 ltac:(done)).
  pose proof (N.div_mod (n / 16 / 16) 16 ltac:(done)).
  pose proof (N.div_mod (n / 16 / 16 / 16) 16 ltac:(done)).
  assert (n / 16 / 16 / 16 / 16 = 0)%N.
  { rewrite !N.Div0.div_div. apply N.div_small. lia. }
  lia.
Qed.

Lemma hex4_val_hex4 n :
  (n < 65536)%N ->
  hex4_val (hex_digit (N.shiftr n 12 mod 16)) (hex_digit (N.shiftr n 8 mod 16))
    (hex_digit (N.shiftr n 4 mod 16)) (hex_digit (n mod 16)) = Some n.
Proof.
  intros Hn. unfold hex4_val.
  rewrite !hex_val_hex_digit by (by apply N.mod_lt).
  by rewrite hex4_digits.
Qed.

(** Splitting a code point above the BMP into surrogates, and back. *)
Lemma lor_low a b n : (b < 2 ^ n)%N -> N.lor (N.shiftl a n) b = (a * 2 ^ n + b)%N.
Proof.
  intros Hb. rewrite <-N.shiftl_mul_pow2.
  assert (N.land (N.shiftl a n) b = 0%N) as Hdisj.
  { apply N.bits_inj. intros i. rewrite N.land_spec, N.bits_0.
    destruct (N.lt_ge_cases i n); [by rewrite N.shiftl_spec_low|].
    destruct (N.eq_dec b 0%N) as [->|]; [by rewrite N.bits_0, andb_false_r|].
    rewrite (N.bits_above_log2 b i), andb_false_r; [done|].
    apply N.lt_le_trans with n; [|done]. apply N.log2_lt_pow2; lia. }
  by rewrite <-N.lxor_lor, <-N.add_nocarry_lxor.
Qed.

Lemma surrogates c :
  (65536 <= c < 1114112)%N ->
  let v := (c - 65536)%N in
  let hi := N.lor 55296 (N.land (N.shiftr v 10) 1023) in
  let lo := N.lor 56320 (N.land v 1023) in
  (55296 <= hi <= 56319)%N /\ (56320 <= lo <= 57343)%N /\ join_surrogates hi lo = c.
Proof.
  intros Hc v.
  assert (v < 1048576)%N as Hv by (unfold v; lia).
  assert (c = v + 65536)%N as Hcv by (unfold v; lia).
  clearbody v. subst c. intros hi lo.
  assert (hi = v / 1024 + 55296)%N as Hhi.
  { unfold hi. change 1023%N with (N.ones 10). rewrite N.land_ones.
    change 55296%N with (N.shiftl 54 10) at 1. rewrite lor_low by (by apply N.mod_lt).
    rewrite N.shiftr_div_pow2. change (2 ^ 10)%N with 1024%N.
    divlia. }
  assert (lo = v mod 1024 + 56320)%N as Hlo.
  { unfold lo. change 1023%N with (N.ones 10). rewrite N.land_ones.
    change 56320%N with (N.shiftl 55 10) at 1. rewrite lor_low by (by apply N.mod_lt).
    change (2 ^ 10)%N with 1024%N. divlia. }
  clearbody hi lo. subst hi lo.
  split_and!; try divlia.
  unfold join_surrogates. rewrite !N.add_sub, lor_low by (by apply N.mod_lt).
  change (2 ^ 10)%N with 1024%N. divlia.
Qed.
Lemma scanstring_u h1 h2 h3 h4 u r :
  hex4_val h1 h2 h3 h4 = Some u ->
  is_high_surrogate u = false ->
  scanstring (backslash :: 117%N :: h1 :: h2 :: h3 :: h4 :: r) = cons_to u (scanstring r).
Proof. intros H1 H2. cbn -[hex4_val is_high_surrogate]. by rewrite H1, H2. Qed.

Lemma scanstring_pair h1 h2 h3 h4 l1 l2 l3 l4 hi lo r :
  hex4_val h1 h2 h3 h4 = Some hi ->
  is_high_surrogate hi = true ->
  hex4_val l1 l2 l3 l4 = Some lo ->
  is_low_surrogate lo = true ->
  scanstring (backslash :: 117%N :: h1 :: h2 :: h3 :: h4
              :: backslash :: 117%N :: l1 :: l2 :: l3 :: l4 :: r)
  = cons_to (join_surrogates hi lo) (scanstring r).
Proof.
  intros H1 H2 H3 H4.
  cbn -[hex4_val is_high_surrogate is_low_surrogate join_surrogates].
  by rewrite H1, H2, H3, H4.
Qed.

Lemma scanstring_plain c r :
  c <> dquote -> c <> backslash -> (32 <= c)%N ->
  scanstring (c :: r) = cons_to c (scanstring r).
Proof.
  intros H1 H2 H3. cbn [scanstring].
  destruct (N.eqb_spec c dquote); [done|]. destruct (N.eqb_spec c backslash); [done|].
  destruct (N.ltb_spec c 32); [lia|done].
Qed.

Lemma is_scalar_spec c :
  is_scalar c -> (c < 55296 \/ 57343 < c < 1114112)%N.
Proof.
  unfold is_scalar. intros [H|[H1 H2]%andb_True]%orb_True.
  - left. by apply N.ltb_lt, Is_true_true.
  - right. split; by apply N.ltb_lt, Is_true_true.
Qed.

(** The three shapes of an escaped character that is not one of the seven
    with a letter escape. *)
Lemma escape_char_printable c :
  c <> dquote -> c <> backslash -> (32 <= c <= 126)%N -> escape_char c = [c].
Proof.
  intros H1 H2 [H3 H4]. unfold escape_char.
  destruct (N.eqb_spec c dquote); [done|]. destruct (N.eqb_spec c backslash); [done|].
  destruct (N.eqb_spec c 10); [lia|]. destruct (N.eqb_spec c 13); [lia|].
  destruct (N.eqb_spec c 9); [lia|]. destruct (N.eqb_spec c 12); [lia|].
  destruct (N.eqb_spec c 8); [lia|].
  destruct (N.leb_spec 32 c); [|lia]. destruct (N.leb_spec c 126); [done|lia].
Qed.

Lemma escape_char_bmp c :
  c <> 10%N -> c <> 13%N -> c <> 9%N -> c <> 12%N -> c <> 8%N ->
  (c < 32 \/ 126 < c)%N -> (c < 65536)%N -> escape_char c = u_escape c.
Proof.
  intros H1 H2 H3 H4 H5 H6 H7. unfold escape_char.
  destruct (N.eqb_spec c dquote) as [->|]; [unfold dquote in H6; lia|].
  destruct (N.eqb_spec c backslash) as [->|]; [unfold backslash in H6; lia|].
  destruct (N.eqb_spec c 10); [done|]. destruct (N.eqb_spec c 13); [done|].
  destruct (N.eqb_spec c 9); [done|]. destruct (N.eqb_spec c 12); [done|].
  destruct (N.eqb_spec c 8); [done|].
  destruct (N.ltb_spec c 65536); [|lia].
  destruct (N.leb_spec 32 c); [|done]. destruct (N.leb_spec c 126); [lia|done].
Qed.

Lemma escape_char_astral c :
  (65536 <= c)%N ->
  escape_char c
  = u_escape (N.lor 55296 (N.land (N.shiftr (c - 65536) 10) 1023))
    ++ u_escape (N.lor 56320 (N.land (c - 65536) 1023)).
Proof.
  intros H. unfold escape_char.
  destruct (N.eqb_spec c dquote) as [->|]; [unfold dquote in H; lia|].
  destruct (N.eqb_spec c backslash) as [->|]; [unfold backslash in H; lia|].
  destruct (N.eqb_spec c 10); [lia|]. destruct (N.eqb_spec c 13); [lia|].
  destruct (N.eqb_spec c 9); [lia|]. destruct (N.eqb_spec c 12); [lia|].
  destruct (N.eqb_spec c 8); [lia|].
  destruct (N.ltb_spec c 65536); [lia|].
  destruct (N.leb_spec 32 c); [|lia]. destruct (N.leb_spec c 126); [lia|done].
Qed.

Lemma scanstring_escape_char c r :
  is_scalar c -> scanstring (escape_char c ++ r) = cons_to c (scanstring r).
Proof.
  intros Hc%is_scalar_spec.
  destruct (N.eq_dec c dquote) as [->|]; [done|].
  destruct (N.eq_dec c backslash) as [->|]; [done|].
  destruct (N.eq_dec c 10%N) as [->|]; [done|].
  destruct (N.eq_dec c 13%N) as [->|]; [done|].
  destruct (N.eq_dec c 9%N) as [->|]; [done|].
  destruct (N.eq_dec c 12%N) as [->|]; [done|].
  destruct (N.eq_dec c 8%N) as [->|]; [done|].
  destruct (N.lt_ge_cases c 32) as [Hlow|Hlow].
  { rewrite escape_char_bmp by (done || lia).
    apply scanstring_u; [apply hex4_val_hex4; lia|].
    unfold is_high_surrogate. destruct (N.leb_spec 55296 c); [lia|done]. }
  destruct (N.le_gt_cases c 126) as [Hhigh|Hhigh].
  { rewrite escape_char_printable by done. by apply scanstring_plain. }
  destruct (N.lt_ge_cases c 65536) as [Hbmp|Hbmp].
  { rewrite escape_char_bmp by (done || lia).
    apply scanstring_u; [by apply hex4_val_hex4|].
    unfold is_high_surrogate.
    destruct (N.leb_spec 55296 c); [|done]. destruct (N.leb_spec c 56319); [lia|done]. }
  rewrite escape_char_astral by done.
  destruct (surrogates c) as ((? & ?) & (? & ?) & Hj); [lia|].
  rewrite <-Hj at 3. unfold u_escape, hex4. cbn [app].
  apply scanstring_pair; try (apply hex4_val_hex4; lia).
  - unfold is_high_surrogate. apply andb_true_intro. split; by apply N.leb_le.
  - unfold is_low_surrogate. apply andb_true_intro. split; by apply N.leb_le.
Qed.

Lemma scanstring_escape_chars s rest :
  text_ok s -> scanstring (escape_chars s ++ dquote :: rest) = Some (s, rest).
Proof.
  unfold text_ok. induction s as [|c s IH]; simpl; [done|].
  intros [Hc Hs]%andb_True. rewrite <-app_assoc, scanstring_escape_char by done.
  by rewrite IH.
Qed.
(** ** Numbers *)

Lemma follows_value_no_digit c rest : follows_value (c :: rest) -> digit_of c = None.
Proof. by intros [->|[->| ->]]. Qed.

Lemma scan_digits_str_of_uint u rest :
  follows_value rest -> scan_digits (str_of_uint u ++ rest) = (u, rest).
Proof.
  intros Hrest. induction u; simpl; try by rewrite IHu.
  destruct rest as [|c rest]; simpl; [done|].
  by rewrite (follows_value_no_digit c rest).
Qed.

Lemma to_uint_normal p : Decimal.unorm (Pos.to_uint p) = Pos.to_uint p.
Proof.
  rewrite <-(DecimalPos.Unsigned.to_of (Pos.to_uint p)).
  by rewrite DecimalPos.Unsigned.of_to.
Qed.

(** The decimal digits of a positive number do not start with a zero. *)
Lemma to_uint_head p :
  match Pos.to_uint p with
  | Decimal.Nil | Decimal.D0 _ => False
  | _ => True
  end.
Proof.
  pose proof (to_uint_normal p) as Hn.
  pose proof (DecimalPos.Unsigned.to_uint_nonzero p) as Hz.
  destruct (Pos.to_uint p) as [|d| | | | | | | | |] eqn:Hp; try done.
  rewrite unorm_D0 in Hn.
  destruct (Decimal.uint_eq_dec d Decimal.Nil) as [->|Hd]; [done|].
  pose proof (nb_digits_unorm d Hd) as Hlen. rewrite Hn in Hlen. simpl in Hlen. lia.
Qed.

Lemma of_uint_to_uint p : N.of_uint (Pos.to_uint p) = Npos p.
Proof. apply DecimalPos.Unsigned.of_to. Qed.

Lemma scan_int_part_positive p rest :
  follows_value rest ->
  scan_int_part (str_of_uint (Pos.to_uint p) ++ rest) = Some (Pos.to_uint p, rest).
Proof.
  intros Hrest. pose proof (to_uint_head p) as Hh.
  destruct (Pos.to_uint p) as [|d|d|d|d|d|d|d|d|d|d]; try done;
    exact (f_equal Some (scan_digits_str_of_uint _ rest Hrest)).
Qed.

Lemma scan_frac_none rest : follows_value rest -> scan_frac rest = ([], rest).
Proof.
  destruct rest as [|c [|c' rest]]; try done; by intros [->|[->| ->]].
Qed.

Lemma scan_exp_none rest : follows_value rest -> scan_exp rest = ([], rest).
Proof. destruct rest as [|c rest]; try done; by intros [->|[->| ->]]. Qed.

Lemma scan_number_positive p rest :
  follows_value rest ->
  scan_number (str_of_uint (Pos.to_uint p) ++ rest) = Some (PInt (Zpos p), rest).
Proof.
  intros Hrest. unfold scan_number.
  assert (exists c r, str_of_uint (Pos.to_uint p) ++ rest = c :: r /\ c <> 45%N)
    as (c & r & Hcr & Hc).
  { pose proof (to_uint_head p) as Hh.
    destruct (Pos.to_uint p); try done; eexists _, _; (split; [reflexivity|done]). }
  rewrite Hcr. destruct (N.eqb_spec c 45) as [|_]; [done|]. rewrite <-Hcr.
  rewrite scan_int_part_positive, scan_frac_none, scan_exp_none by done.
  cbn [app]. by rewrite of_uint_to_uint.
Qed.

Lemma scan_number_str_of_Z z rest :
  follows_value rest -> scan_number (str_of_Z z ++ rest) = Some (PInt z, rest).
Proof.
  intros Hrest. destruct z as [|p|p].
  - unfold scan_number. simpl. by rewrite scan_frac_none, scan_exp_none.
  - by apply scan_number_positive.
  - unfold scan_number, str_of_Z, str_of_N. simpl app. simpl N.to_uint.
    cbn [N.eqb Pos.eqb].
    rewrite scan_int_part_positive, scan_frac_none, scan_exp_none by done.
    cbn [app]. by rewrite of_uint_to_uint.
Qed.

(** The text of an int starts with a sign or a digit, and [scan_once] reads
    such a text as a number. *)
Lemma str_of_Z_head z :
  exists c r, str_of_Z z = c :: r /\ (c = 45 \/ 48 <= c <= 57)%N.
Proof.
  destruct z as [|p|p]; simpl.
  - eexists _, _. split; [done|lia].
  - pose proof (to_uint_head p) as Hh. unfold str_of_N. simpl.
    destruct (Pos.to_uint p); try done; eexists _, _; (split; [reflexivity|lia]).
  - eexists _, _. split; [done|lia].
Qed.

Lemma scan_once_number fuel c r :
  (c = 45 \/ 48 <= c <= 57)%N ->
  forall res, scan_number (c :: r) = Some res ->
  scan_once (S fuel) (c :: r) = Some res.
Proof.
  intros Hc res Hres. cbn [scan_once].
  destruct (N.eqb_spec c dquote) as [->|_]; [unfold dquote in Hc; lia|].
  destruct (N.eqb_spec c 123) as [->|_]; [lia|].
  destruct (N.eqb_spec c 91) as [->|_]; [lia|].
  change (py "null") with [110; 117; 108; 108]%N.
  change (py "true") with [116; 114; 117; 101]%N.
  change (py "false") with [102; 97; 108; 115; 101]%N.
  cbn [strip_prefix].
  destruct (N.eqb_spec 110 c) as [<-|_]; [lia|].
  destruct (N.eqb_spec 116 c) as [<-|_]; [lia|].
  destruct (N.eqb_spec 102 c) as [<-|_]; [lia|].
  by rewrite Hres.
Qed.
(** ** Values *)

Lemma on_value_keys {A B} (f : A -> B) (l : list (pystr * A)) :
  (map (fun kv => match kv with (k, x) => (k, f x) end) l).*1 = l.*1.
Proof. induction l as [|[k x] l IH]; [done|]. cbn. f_equal. exact IH. Qed.

Lemma sorted_items_on_value {A B} (f : A -> B) (d : list (pystr * A)) :
  NoDup d.*1 ->
  sorted_items (map (fun kv => match kv with (k, x) => (k, f x) end) d)
  = map (fun kv => match kv with (k, x) => (k, f x) end) (sorted_items d).
Proof.
  intros Hnd. set (g := fun kv : pystr * A => match kv with (k, x) => (k, f x) end).
  pose proof (on_value_keys f) as Hkeys. fold g in Hkeys.
  assert (map g (sorted_items d) ≡ₚ map g d) as Hpm
    by apply Permutation_map, sorted_items_Permutation.
  apply (StronglySorted_unique_strong item_le).
  - intros x y Hx Hy Hxy Hyx.
    apply (same_key_same_item (map g d)); [by rewrite Hkeys| | |by apply item_le_antisym].
    + by rewrite <-(sorted_items_Permutation (map g d)).
    + by rewrite <-Hpm.
  - apply StronglySorted_merge_sort; apply _.
  - apply (StronglySorted_fmap g item_le item_le).
    + by intros [] [].
    + apply StronglySorted_merge_sort; apply _.
  - by rewrite sorted_items_Permutation, Hpm.
Qed.

Lemma join_cons sep x (l : list pystr) : l <> [] -> join sep (x :: l) = x ++ sep ++ join sep l.
Proof. by destruct l. Qed.

Lemma dumps_head sk v : plain v -> exists c r, dumps sk v = c :: r /\ value_head c.
Proof.
  unfold value_head. destruct v as [|b|z|r|s|l|d]; intros Hp.
  - exists 110%N, [117; 108; 108]%N. split; [reflexivity|lia].
  - destruct b.
    + exists 116%N, [114; 117; 101]%N. split; [reflexivity|lia].
    + exists 102%N, [97; 108; 115; 101]%N. split; [reflexivity|lia].
  - destruct (str_of_Z_head z) as (c & r & Hz & Hc).
    exists c, r. split; [done|lia].
  - done.
  - exists 34%N, (escape_chars s ++ [dquote]). split; [reflexivity|lia].
  - exists 91%N, (join sep_item (map (dumps sk) l) ++ [93%N]). split; [reflexivity|lia].
  - eexists 123%N, _. split; [reflexivity|lia].
Qed.

Lemma skip_ws_head c r : value_head c -> skip_ws (c :: r) = c :: r.
Proof.
  intros Hc. simpl. unfold is_ws.
  destruct (N.eqb_spec c 32), (N.eqb_spec c 9), (N.eqb_spec c 10), (N.eqb_spec c 13);
    unfold value_head in Hc; try done; lia.
Qed.

Lemma skip_ws_stop c r : is_ws c = false -> skip_ws (c :: r) = c :: r.
Proof. intros H. cbn [skip_ws]. by rewrite H. Qed.

Lemma skip_ws_space r : skip_ws (32%N :: r) = skip_ws r.
Proof. done. Qed.

Lemma dumps_PDict sk (d : pydict) :
  NoDup d.*1 ->
  dumps sk (PDict d)
  = 123%N :: join sep_item (map (render sk) (if sk then sorted_items d else d)) ++ [125%N].
Proof.
  intros Hnd. simpl. do 2 f_equal.
  destruct sk; [rewrite sorted_items_on_value by done|]; rewrite map_map;
    f_equal; apply map_ext; by intros [].
Qed.

Lemma render_text sk k x tail :
  render sk (k, x) ++ tail
  = dquote :: escape_chars k ++ dquote :: 58%N :: 32%N :: dumps sk x ++ tail.
Proof.
  unfold render, encode_basestring_ascii, sep_key. cbn [fst snd].
  rewrite <-!app_assoc. cbn [app]. by rewrite <-app_assoc.
Qed.

Lemma length_render sk k x :
  length (render sk (k, x)) = 4 + length (escape_chars k) + length (dumps sk x).
Proof.
  unfold render, encode_basestring_ascii, sep_key. cbn [fst snd].
  rewrite length_app, length_cons, !length_app. cbn [length]. lia.
Qed.

(** One member of an object: the key, the colon, the value, and then
    either the closing brace or a comma and the next key. *)
Lemma scan_members_one fuel k c r after v :
  text_ok k -> value_head c ->
  scan_once fuel (c :: r) = Some (v, after) ->
  scan_members (S fuel) (escape_chars k ++ dquote :: 58%N :: 32%N :: c :: r)
  = match skip_ws after with
    | c2 :: r3 =>
        if (c2 =? 125)%N then Some ([(k, v)], r3)
        else if (c2 =? 44)%N then
          match skip_ws r3 with
          | c3 :: r4 =>
              if (c3 =? dquote)%N then
                match scan_members fuel r4 with
                | Some (kvs, rest) => Some ((k, v) :: kvs, rest)
                | None => None
                end
              else None
          | [] => None
          end
        else None
    | [] => None
    end.
Proof.
  intros Hk Hc Hv. cbn [scan_members].
  rewrite scanstring_escape_chars by done.
  rewrite (skip_ws_stop 58) by done. cbn [N.eqb Pos.eqb].
  by rewrite skip_ws_space, skip_ws_head, Hv by done.
Qed.

Section roundtrip.
Context (sk : bool).

Lemma scan_elements_dumps (l : list pyval) :
  Forall (scans sk) l -> Forall (fun x => plain x) l -> l <> [] ->
  forall fuel rest,
    length (join sep_item (map (dumps sk) l)) + 1 <= fuel ->
    scan_elements fuel (join sep_item (map (dumps sk) l) ++ 93%N :: rest)
    = Some (map (canonical sk) l, rest).
Proof.
  induction 1 as [|x l Hx Hl IH]; [done|].
  intros Hp _ fuel rest Hfuel. apply Forall_cons in Hp as [Hpx Hpl].
  destruct fuel as [|fuel]; [lia|].
  destruct l as [|y l].
  - cbn [map join] in *. cbn [scan_elements].
    rewrite Hx; [done|done|by right; left|lia].
  - assert (y :: l <> []) as Hne by done.
    specialize (IH Hpl Hne fuel rest).
    destruct (dumps_head sk y) as (c & r & Hy & Hc); [by inversion Hpl|].
    assert (exists T, join sep_item (map (dumps sk) (y :: l)) ++ 93%N :: rest = c :: T)
      as [T HT].
    { rewrite map_cons. destruct l; cbn [map join]; rewrite Hy; cbn [app]; eauto. }
    change (map (dumps sk) (x :: y :: l))
      with (dumps sk x :: map (dumps sk) (y :: l)) in *.
    rewrite join_cons in * by done.
    rewrite !length_app in Hfuel. cbn [sep_item length] in Hfuel.
    rewrite <-!app_assoc. cbn [scan_elements].
    rewrite Hx; [|done|by left|lia].
    rewrite HT in IH |- *. cbn [sep_item app].
    rewrite (skip_ws_stop 44) by done. cbn [N.eqb Pos.eqb].
    rewrite skip_ws_space, skip_ws_head by done. rewrite IH by lia. done.
Qed.

Lemma scan_members_dumps (d : pydict) :
  Forall (fun kv => (scans sk) kv.2) d ->
  Forall (fun kv => text_ok kv.1 /\ plain kv.2) d -> d <> [] ->
  forall rest,
  exists T,
    join sep_item (map (render sk) d) ++ 125%N :: rest = dquote :: T
    /\ forall fuel,
         length (join sep_item (map (render sk) d)) + 1 <= fuel ->
         scan_members fuel T
         = Some (map (fun kv => match kv with (k, x) => (k, canonical sk x) end) d, rest).
Proof.
  induction 1 as [|[k x] d Hx Hd IH]; [done|].
  intros Hp _ rest. apply Forall_cons in Hp as [[Hk Hpx] Hpd].
  cbn [fst snd] in Hk, Hpx, Hx.
  destruct (dumps_head sk x) as (c & r & Hhead & Hc); [done|].
  destruct d as [|kv d].
  - exists (escape_chars k ++ dquote :: 58%N :: 32%N :: dumps sk x ++ 125%N :: rest).
    split; [cbn [map join]; by rewrite render_text|].
    intros fuel Hfuel. destruct fuel as [|fuel]; [lia|].
    cbn [map join] in Hfuel. rewrite length_render in Hfuel.
    rewrite Hhead, <-app_comm_cons.
    rewrite (scan_members_one fuel k c (r ++ 125%N :: rest) (125%N :: rest) (canonical sk x));
      [done|done|done|].
    rewrite app_comm_cons, <-Hhead. apply Hx; [done|by right; right|lia].
  - destruct (IH Hpd ltac:(done) rest) as (T & HT & Hscan).
    exists (escape_chars k ++ dquote :: 58%N :: 32%N :: dumps sk x
            ++ 44%N :: 32%N :: dquote :: T).
    change (map (render sk) ((k, x) :: kv :: d))
      with (render sk (k, x) :: map (render sk) (kv :: d)).
    rewrite join_cons by done. split.
    { rewrite <-!app_assoc, HT. by rewrite render_text. }
    intros fuel Hfuel. destruct fuel as [|fuel]; [lia|].
    rewrite !length_app, length_render in Hfuel. cbn [sep_item length] in Hfuel.
    rewrite Hhead, <-app_comm_cons.
    rewrite (scan_members_one fuel k c (r ++ 44%N :: 32%N :: dquote :: T)
               (44%N :: 32%N :: dquote :: T) (canonical sk x)); [|done|done|].
    + rewrite (skip_ws_stop 44) by done. cbn [N.eqb Pos.eqb].
      rewrite skip_ws_space, (skip_ws_stop dquote) by done.
      unfold dquote at 1. cbn [N.eqb Pos.eqb]. by rewrite Hscan by lia.
    + rewrite app_comm_cons, <-Hhead. apply Hx; [done|by left|lia].
Qed.

Lemma scan_once_dumps v : (scans sk) v.
Proof.
  induction v as [|b|z|r|s|l IH|d IH] using pyval_nested_ind;
    intros Hp fuel rest Hrest Hfuel.
  - destruct fuel as [|fuel]; [simpl in Hfuel; lia|]. done.
  - destruct fuel as [|fuel]; [destruct b; simpl in Hfuel; lia|]. by destruct b.
  - destruct (str_of_Z_head z) as (c & r & Hz & Hc). cbn [dumps canonical] in *.
    destruct fuel as [|fuel]; [rewrite Hz in Hfuel; simpl in Hfuel; lia|].
    pose proof (scan_number_str_of_Z z rest Hrest) as Hnum.
    rewrite Hz in Hnum |- *. by apply scan_once_number.
  - done.
  - destruct fuel as [|fuel]; [simpl in Hfuel; lia|].
    cbn [dumps canonical encode_basestring_ascii app scan_once].
    rewrite N.eqb_refl, <-app_assoc. simpl app.
    by rewrite scanstring_escape_chars.
  - destruct fuel as [|fuel]; [simpl in Hfuel; lia|].
    cbn [dumps canonical] in *. rewrite length_cons, length_app in Hfuel.
    simpl in Hfuel. apply forallb_True in Hp.
    rewrite <-app_comm_cons, <-app_assoc. simpl app.
    cbn [scan_once dquote N.eqb Pos.eqb].
    destruct l as [|x l]; [done|].
    destruct (dumps_head sk x) as (c & r & Hx & Hc); [by inversion Hp|].
    assert (exists T, join sep_item (map (dumps sk) (x :: l)) ++ 93%N :: rest = c :: T)
      as [T HT].
    { rewrite map_cons. destruct l; simpl; rewrite Hx; simpl; eauto. }
    pose proof (scan_elements_dumps (x :: l) IH Hp ltac:(done) fuel rest) as Hscan.
    rewrite HT in Hscan |- *. rewrite skip_ws_head by done.
    destruct (N.eqb_spec c 93) as [->|_]; [unfold value_head in Hc; lia|].
    rewrite Hscan by lia. done.
  - simpl in Hp. apply andb_True in Hp as [Hitems Hnd].
    apply forallb_True in Hitems. apply bool_decide_unpack in Hnd.
    rewrite dumps_PDict in * by done.
    destruct fuel as [|fuel]; [simpl in Hfuel; lia|].
    rewrite length_cons, length_app in Hfuel. simpl in Hfuel.
    rewrite <-app_comm_cons, <-app_assoc. simpl app.
    cbn [scan_once dquote N.eqb Pos.eqb].
    set (d' := if sk then sorted_items d else d) in *.
    assert (d' ≡ₚ d) as Hperm by (unfold d'; destruct sk; [apply sorted_items_Permutation|done]).
    assert (canonical sk (PDict d)
            = PDict (map (fun kv => match kv with (k, x) => (k, canonical sk x) end) d'))
      as ->.
    { simpl. unfold d'. destruct sk; [|done]. by rewrite sorted_items_on_value. }
    clearbody d'.
    assert (Forall (fun kv => (scans sk) kv.2) d') as IH' by (by rewrite Hperm).
    assert (Forall (fun kv : pystr * pyval => text_ok kv.1 /\ plain kv.2) d') as Hp'.
    { rewrite Hperm. eapply Forall_impl; [exact Hitems|]. by intros ? ?%andb_True. }
    destruct (decide (d' = [])) as [->|Hne]; [done|].
    destruct (scan_members_dumps d' IH' Hp' Hne rest) as (T & HT & Hscan).
    rewrite HT. rewrite (skip_ws_stop dquote) by done.
    unfold dquote at 1 2. cbn [N.eqb Pos.eqb].
    rewrite Hscan by lia. do 3 f_equal.
    apply dict_of_items_NoDup. by rewrite on_value_keys, Hperm.
Qed.
End roundtrip.

(** [json.loads(json.dumps(v, sort_keys=sk))] is [v], with the items of
    its dicts in key order when [sk] is set, for every plain value. *)
Theorem loads_dumps sk v : plain v -> loads (dumps sk v) = Ok (canonical sk v).
Proof.
  intros Hp. unfold loads.
  destruct (dumps_head sk v Hp) as (c & r & Hv & Hc).
  rewrite Hv, skip_ws_head, <-Hv by done.
  pose proof (scan_once_dumps sk v Hp (S (length (dumps sk v))) [] I) as Hscan.
  rewrite app_nil_r in Hscan. by rewrite Hscan by lia.
Qed.

Lemma canonical_unsorted v : canonical false v = v.
Proof.
  induction v as [| | | | |l IH|d IH] using pyval_nested_ind; simpl; try done.
  - f_equal. induction IH as [|x l Hx Hl IHl]; simpl; [done|]. by rewrite Hx, IHl.
  - f_equal. induction IH as [|[k x] l Hx Hl IHl]; simpl in *; [done|]. by rewrite Hx, IHl.
Qed.

(** ** A miss, then a hit *)

Lemma getattr_getitem v name x : getattr v name = Ok x -> getitem_str v name = Ok x.
Proof.
  destruct v; try done. simpl. by destruct (dict_get name d).
Qed.

(** A response whose content can be read as an attribute path is a dict
    that is true and gives the same content by subscripts. *)
Lemma response_content_cached response content :
  response_content response = Ok content ->
  cached_content response = Ok content /\ is_truthy response = true.
Proof.
  unfold response_content, cached_content. intros H.
  destruct (getattr response (py "choices")) as [choices|] eqn:H1; [|done].
  rewrite (getattr_getitem _ _ _ H1). simpl in *.
  destruct (getitem_int choices 0) as [choice|]; [|done]. simpl in *.
  destruct (getattr choice (py "message")) as [msg|] eqn:H2; [|done].
  rewrite (getattr_getitem _ _ _ H2). simpl in *.
  destruct (getattr msg (py "content")) as [c|] eqn:H3; [|done].
  rewrite (getattr_getitem _ _ _ H3). simpl in *. split; [done|].
  destruct response as [| | | | | |d]; try done. by destruct d.
Qed.

Lemma dumps_nonempty sk v : plain v -> dumps sk v <> [].
Proof. intros Hp. by destruct (dumps_head sk v Hp) as (c & r & -> & _). Qed.

(** C2. A request for which the store holds no live entry misses: the
    gateway is called and its answer stored.  The same request made again
    before the entry expires is a hit: it returns the content read from the
    stored payload, which is the content of the first answer, and the
    gateway is not called again. *)
Theorem miss_then_hit E cache cfg message w response content d :
  Redis.live w (request_key cfg message) = None ->
  fails E (length (log w) + 2) = false ->
  fails E (length (log w) + 3) = false ->
  llm E (length (log w) + 1) (request_of cfg message) = Ok response ->
  plain response ->
  response_content response = Ok content ->
  (0 <= d < RedisCache.default_ttl cache)%Z ->
  exists w1 w2,
    make_cached_chat_request E cache cfg message true w
    = (Ok (content, took E (length (log w) + 1), false), w1)
    /\ Redis.live (elapse d w1) (request_key cfg message) = Some (dumps false response)
    /\ make_cached_chat_request E cache cfg message true (elapse d w1)
       = (Ok (content, took E (length (log w) + 3), true), w2)
    /\ log w2
       = log w ++ [EvGet (request_key cfg message);
                   EvChat (request_of cfg message);
                   EvSetex (request_key cfg message) (RedisCache.default_ttl cache)
                     (dumps false response);
                   EvGet (request_key cfg message)].
Proof.
  intros Hfresh Hset Hget Hllm Hplain Hcontent Hd.
  set (key := request_key cfg message) in *. set (req := request_of cfg message) in *.
  destruct (response_content_cached _ _ Hcontent) as [Hcached Htrue].
  (* the first request *)
  assert (read_value E w key = PNone) as Hmiss.
  { unfold read_value. rewrite Hfresh. by destruct (fails E (length (log w))). }
  assert (make_cached_chat_request E cache cfg message true w
          = (Ok (content, took E (length (log w) + 1), false),
             written E cache key response None (record (EvChat req) (record (EvGet key) w))))
    as Hfirst.
  { rewrite request_cached_eq. fold key. cbn zeta. rewrite Hmiss. cbn [is_truthy].
    unfold upstream_outcome. fold req key.
    assert (length (log (record (EvGet key) w)) = length (log w) + 1) as ->
      by (cbn [record log]; by rewrite length_app).
    by rewrite Hllm, Hcontent. }
  set (w1 := written E cache key response None (record (EvChat req) (record (EvGet key) w)))
    in *.
  assert (store w1 = <[key := (dumps false response,
                               (clock w + RedisCache.default_ttl cache)%Z)]> (store w)
          /\ clock w1 = clock w
          /\ log w1 = log w ++ [EvGet key; EvChat req;
                                EvSetex key (RedisCache.default_ttl cache)
                                  (dumps false response)])
    as (Hs1 & Hc1 & Hl1).
  { unfold w1, written. cbn [effective_ttl record log store clock].
    assert (length ((log w ++ [EvGet key]) ++ [EvChat req]) = length (log w) + 2) as ->
      by (rewrite !length_app; simpl; lia).
    rewrite Hset. destruct (Z.leb_spec (RedisCache.default_ttl cache) 0) as [|_]; [lia|].
    cbn [orb store clock log]. split_and!; [done|done|]. by rewrite <-!app_assoc. }
  assert (Redis.live (elapse d w1) key = Some (dumps false response)) as Hlive.
  { unfold Redis.live, elapse. cbn [store clock]. rewrite Hs1, lookup_insert_eq, Hc1.
    destruct (Z.ltb_spec (clock w + d) (clock w + RedisCache.default_ttl cache)); [done|lia]. }
  (* the second request *)
  assert (read_value E (elapse d w1) key = response) as Hhit.
  { unfold read_value. cbn [elapse log]. rewrite Hl1.
    assert (length (log w ++ [EvGet key; EvChat req;
                              EvSetex key (RedisCache.default_ttl cache)
                                (dumps false response)]) = length (log w) + 3) as ->
      by (rewrite length_app; simpl; lia).
    rewrite Hget, Hlive, bool_decide_false by (by apply dumps_nonempty).
    by rewrite loads_dumps, canonical_unsorted. }
  exists w1, (record (EvGet key) (elapse d w1)). split_and!; [done|done| |].
  - rewrite request_cached_eq. fold key. cbn zeta. rewrite Hhit, Htrue, Hcached.
    cbn [elapse log]. rewrite Hl1, length_app. simpl length. done.
  - cbn [record elapse log]. rewrite Hl1, <-app_assoc. done.
Qed.

Lemma miss_then_hit_witness :
  exists w1 w2,
    make_cached_chat_request sample_env sample_cache sample_config (py "ping") true
      empty_world
    = (Ok (py "Paris.", took sample_env (length (log empty_world) + 1), false), w1)
    /\ Redis.live (elapse 299 w1) (request_key sample_config (py "ping"))
       = Some (dumps false sample_response)
    /\ make_cached_chat_request sample_env sample_cache sample_config (py "ping") true
         (elapse 299 w1)
       = (Ok (py "Paris.", took sample_env (length (log empty_world) + 3), true), w2)
    /\ log w2
       = log empty_world
         ++ [EvGet (request_key sample_config (py "ping"));
             EvChat (request_of sample_config (py "ping"));
             EvSetex (request_key sample_config (py "ping"))
               (RedisCache.default_ttl sample_cache) (dumps false sample_response);
             EvGet (request_key sample_config (py "ping"))].
Proof.
  apply (miss_then_hit sample_env sample_cache sample_config (py "ping") empty_world
           sample_response (py "Paris.") 299).
  - reflexivity.
  - reflexivity.
  - reflexivity.
  - reflexivity.
  - reflexivity.
  - reflexivity.
  - unfold sample_cache, CACHE_MAX_AGE. simpl. lia.
Defined.

(** ** Sensitivity of the cache key *)

Lemma scalar_param_plain v : scalar_param v -> plain v.
Proof. by destruct v. Qed.

Lemma scalar_param_canonical sk v : scalar_param v -> canonical sk v = v.
Proof. by destruct v. Qed.

Lemma canonical_scalar_items sk (d : pydict) :
  Forall (fun kv => scalar_param kv.2) d ->
  map (fun kv => match kv with (k, x) => (k, canonical sk x) end) d = d.
Proof.
  induction 1 as [|[k x] d Hx Hd IH]; [done|]. cbn [map].
  by rewrite scalar_param_canonical, IH.
Qed.

Lemma sorted_items_keys {A} (d : list (pystr * A)) : NoDup d.*1 -> NoDup (sorted_items d).*1.
Proof. intros H. by rewrite sorted_items_Permutation. Qed.

Lemma sorted_items_idemp {A} (d : list (pystr * A)) :
  NoDup d.*1 -> sorted_items (sorted_items d) = sorted_items d.
Proof.
  intros H. apply sorted_items_unique; [by apply sorted_items_keys|].
  apply sorted_items_Permutation.
Qed.

Lemma plain_PList l : Forall (fun x => plain x) l -> plain (PList l).
Proof. intros H. cbn [plain]. by apply forallb_True. Qed.

Lemma plain_PDict (d : pydict) :
  Forall (fun kv => text_ok kv.1 /\ plain kv.2) d -> NoDup d.*1 -> plain (PDict d).
Proof.
  intros H Hnd. cbn [plain]. apply andb_True. split; [|by apply bool_decide_pack].
  apply forallb_True. eapply Forall_impl; [exact H|]. intros kv [??]. by apply andb_True.
Qed.

Lemma NoDup_literal (l : list pystr) : bool_decide (NoDup l) = true -> NoDup l.
Proof. apply bool_decide_eq_true_1. Qed.

Section descriptors.
Context (d : RequestDescriptor) (Hwf : well_formed d).

Lemma well_formed_parts :
  text_ok (rd_provider d) /\ text_ok (rd_model d)
  /\ Forall (fun m => text_ok (msg_role m) /\ text_ok (msg_content m)) (rd_messages d)
  /\ Forall (fun kv : pystr * pyval => text_ok kv.1 /\ scalar_param kv.2) (rd_parameters d)
  /\ NoDup (rd_parameters d).*1.
Proof using Hwf.
  unfold well_formed in Hwf.
  apply andb_True in Hwf as [[[[H1 H2]%andb_True H3]%andb_True H4]%andb_True H5].
  apply forallb_True in H3, H4. apply bool_decide_unpack in H5.
  split_and!; try done.
  - eapply Forall_impl; [exact H3|]. by intros m ?%andb_True.
  - eapply Forall_impl; [exact H4|]. by intros m ?%andb_True.
Qed.

Lemma params_dict_eq :
  dict_of_items (sorted_items (rd_parameters d)) = sorted_items (rd_parameters d).
Proof using Hwf.
  destruct well_formed_parts as (_ & _ & _ & _ & Hnd).
  by apply dict_of_items_NoDup, sorted_items_keys.
Qed.

Lemma key_data_plain :
  plain (RedisCache.key_data (rd_provider d) (rd_model d) (messages_of d) (rd_parameters d)).
Proof using Hwf.
  destruct well_formed_parts as (Hp & Hm & Hmsgs & Hparams & Hnd).
  unfold RedisCache.key_data. rewrite params_dict_eq.
  apply plain_PDict; [|by apply NoDup_literal].
  repeat apply Forall_cons_2; try apply Forall_nil_2; (split; [done|]); try done.
  - apply plain_PList, Forall_fmap.
    eapply Forall_impl; [exact Hmsgs|]. intros m [Hr Hc].
    apply plain_PDict; [|by apply NoDup_literal].
    repeat apply Forall_cons_2; try apply Forall_nil_2; by split.
  - apply plain_PDict; [|by apply sorted_items_keys].
    rewrite sorted_items_Permutation.
    eapply Forall_impl; [exact Hparams|]. intros [k v] [Hk Hv].
    split; [done | by apply scalar_param_plain].
Qed.

(** What [json.loads] reads back from the canonical text. *)
Lemma key_data_canonical :
  canonical true
    (RedisCache.key_data (rd_provider d) (rd_model d) (messages_of d) (rd_parameters d))
  = PDict [(py "messages",
            PList (map (fun m => PDict [(py "content", PStr (msg_content m));
                                        (py "role", PStr (msg_role m))])
                     (rd_messages d)));
           (py "model", PStr (rd_model d));
           (py "params", PDict (sorted_items (rd_parameters d)));
           (py "provider", PStr (rd_provider d))].
Proof using Hwf.
  destruct well_formed_parts as (Hp & Hm & Hmsgs & Hparams & Hnd).
  unfold RedisCache.key_data. rewrite params_dict_eq.
  cbn [canonical map]. unfold messages_of. cbn [canonical].
  rewrite map_map. rewrite canonical_scalar_items, sorted_items_idemp; [|done|].
  - reflexivity.
  - rewrite sorted_items_Permutation. eapply Forall_impl; [exact Hparams|]. by intros ? [].
Qed.

Lemma descriptor_json_loads :
  loads (descriptor_json d)
  = Ok (canonical true
          (RedisCache.key_data (rd_provider d) (rd_model d) (messages_of d)
             (rd_parameters d))).
Proof using Hwf. apply loads_dumps, key_data_plain. Qed.

Lemma descriptor_key_eq :
  descriptor_key d = Ok (py "llm_cache:" ++ SHA256.hexdigest (descriptor_json d)).
Proof using Hwf.
  destruct well_formed_parts as (_ & _ & _ & Hparams & _).
  unfold descriptor_key, descriptor_json. apply get_cache_key_returns.
  - unfold messages_of. cbn [float_free]. apply forallb_True, Forall_fmap.
    by apply Forall_true.
  - apply forallb_True. eapply Forall_impl; [exact Hparams|].
    intros [k v] [_ Hv]. by destruct v.
Qed.
End descriptors.

(** The canonical text determines a well-formed descriptor, up to the
    order of its parameters. *)
Lemma descriptor_json_inj d d' :
  well_formed d -> well_formed d' ->
  descriptor_json d = descriptor_json d' ->
  rd_provider d = rd_provider d' /\ rd_model d = rd_model d'
  /\ rd_messages d = rd_messages d' /\ rd_parameters d ≡ₚ rd_parameters d'.
Proof.
  intros Hwf Hwf' Heq.
  pose proof (descriptor_json_loads d Hwf) as Hl.
  rewrite Heq, (descriptor_json_loads d' Hwf') in Hl.
  rewrite (key_data_canonical d Hwf), (key_data_canonical d' Hwf') in Hl.
  injection Hl as Hmsgs Hmodel Hparams Hprovider.
  split_and!; [done | done | |].
  - revert Hmsgs. generalize (rd_messages d') as l'.
    induction (rd_messages d) as [|[r c] l IH]; intros [|[r' c'] l']; try done.
    cbn [map msg_role msg_content]. intros [= <- <- Hrest]. f_equal. by apply IH.
  - by rewrite <-(sorted_items_Permutation (rd_parameters d)), <-Hparams,
      sorted_items_Permutation.
Qed.




(** ** Entries of the cache *)

Lemma written_stored E self k response ttl w :
  fails E (length (log w)) = false ->
  (0 < effective_ttl self ttl)%Z ->
  written E self k response ttl w
  = {| store := <[k := (dumps false response, (clock w + effective_ttl self ttl)%Z)]> (store w);
       clock := clock w;
       log := log w ++ [EvSetex k (effective_ttl self ttl) (dumps false response)] |}.
Proof.
  intros Hok Hpos. unfold written. rewrite Hok.
  by destruct (Z.leb_spec (effective_ttl self ttl) 0) as [|_]; [lia|].
Qed.

Lemma written_dropped E self k response ttl w :
  fails E (length (log w)) = true \/ (effective_ttl self ttl <= 0)%Z ->
  written E self k response ttl w
  = record (EvSetex k (effective_ttl self ttl) (dumps false response)) w.
Proof.
  intros H. unfold written. destruct (fails E (length (log w))); [done|].
  destruct H as [|H]; [done|].
  by destruct (Z.leb_spec (effective_ttl self ttl) 0) as [_|]; [|lia].
Qed.

Lemma length_log_record ev w : length (log (record ev w)) = length (log w) + 1.
Proof. unfold record. cbn [log]. by rewrite length_app. Qed.

(** X1. An entry written by [RedisCache.set] is read back by
    [RedisCache.get] as the value that was written, for a value JSON
    carries without loss (no float, no lone surrogate, no dict with a key
    twice), as long as less than the time it was written for has passed. *)
Theorem cache_set_get_roundtrip E self k response ttl w d :
  fails E (length (log w)) = false ->
  fails E (length (log w) + 1) = false ->
  plain response ->
  (0 <= d < effective_ttl self ttl)%Z ->
  (RedisCache.get E self k (elapse d (RedisCache.set E self k response ttl w).2)).1
  = Ok response.
Proof.
  intros Hset Hget Hplain Hd. rewrite cache_set_eq, cache_get_eq. cbn [fst snd].
  rewrite written_stored by (done || lia).
  unfold read_value, Redis.live, elapse. cbn [log store clock].
  rewrite length_app. cbn [length]. rewrite Hget, lookup_insert_eq.
  destruct (Z.ltb_spec (clock w + d) (clock w + effective_ttl self ttl)) as [_|]; [|lia].
  rewrite bool_decide_false by (by apply dumps_nonempty).
  by rewrite loads_dumps, canonical_unsorted.
Qed.

Lemma cache_set_get_roundtrip_witness :
  (RedisCache.get sample_env sample_cache (py "llm_cache:k")
     (elapse 299 (RedisCache.set sample_env sample_cache (py "llm_cache:k") sample_response
                    None empty_world).2)).1
  = Ok sample_response.
Proof.
  apply (cache_set_get_roundtrip sample_env sample_cache (py "llm_cache:k") sample_response
           None empty_world 299); [reflexivity | reflexivity | reflexivity |].
  unfold effective_ttl, sample_cache, CACHE_MAX_AGE. simpl. lia.
Defined.



(** X3. [RedisCache.set] on a key that holds an entry replaces its value
    and its expiry time, and no entry of another key is touched. *)
Theorem cache_set_last_write_wins E self k r1 r2 ttl1 ttl2 w :
  fails E (length (log w) + 1) = false ->
  (0 < effective_ttl self ttl2)%Z ->
  let w2 := (RedisCache.set E self k r2 ttl2 (RedisCache.set E self k r1 ttl1 w).2).2 in
  store w2 !! k = Some (dumps false r2, (clock w + effective_ttl self ttl2)%Z)
  /\ forall k', k' <> k -> store w2 !! k' = store w !! k'.
Proof.
  intros Hok Hpos. cbn zeta. rewrite !cache_set_eq. cbn [snd].
  set (w1 := written E self k r1 ttl1 w).
  assert (clock w1 = clock w /\ length (log w1) = length (log w) + 1
          /\ forall k', k' <> k -> store w1 !! k' = store w !! k') as (Hc & Hl & Hs).
  { unfold w1, written. destruct (_ || _); cbn [clock log store record];
      rewrite length_app; split_and!; try done.
    intros k' Hk'. by rewrite lookup_insert_ne. }
  rewrite written_stored by (by rewrite ?Hl). cbn [store]. rewrite Hc. split.
  - apply lookup_insert_eq.
  - intros k' Hk'. rewrite lookup_insert_ne by done. by apply Hs.
Qed.

Lemma cache_set_last_write_wins_witness :
  let w2 := (RedisCache.set sample_env sample_cache (py "llm_cache:k") PNone (Some 60%Z)
               (RedisCache.set sample_env sample_cache (py "llm_cache:k") sample_response
                  None empty_world).2).2 in
  store w2 !! py "llm_cache:k" = Some (dumps false PNone, (clock empty_world + 60)%Z)
  /\ forall k', k' <> py "llm_cache:k" -> store w2 !! k' = store empty_world !! k'.
Proof.
  apply (cache_set_last_write_wins sample_env sample_cache (py "llm_cache:k")
           sample_response PNone None (Some 60%Z) empty_world); [reflexivity | reflexivity].
Defined.

(** ** [RedisCache.clear] on any store *)



(** The loop of [clear] comes to an end whatever the server does, with a
    count or with the error of the transport. *)
Lemma clear_loop_total E pattern fuel : forall cursor count w,
  (Npos (nbuckets E) <= cursor + 100 * N.of_nat fuel)%N ->
  (0 < fuel)%nat ->
  exists r w',
    RedisCache.clear_loop E fuel pattern cursor count w = Some (r, w')
    /\ (r = Raise RedisError \/ exists n, r = Ok n /\ (count <= n)%Z).
Proof.
  induction fuel as [|fuel IH]; intros cursor count w Hfuel Hpos; [lia|].
  cbn [RedisCache.clear_loop]. unfold Redis.scan, Redis.call.
  destruct (fails E (length (log w))); [by eauto 6|].
  set (w1 := record (EvScan cursor pattern 100) w).
  set (keys := Redis.scan_keys E w1 cursor pattern 100).
  case_bool_decide as Hk.
  - destruct (N.leb_spec (Npos (nbuckets E)) (cursor + 100)) as [Hlast|Hmore].
    + cbn [N.eqb]. eexists _, _. split; [done|]. right. eexists. split; [done|lia].
    + destruct (N.eqb_spec (cursor + 100) 0) as [|_]; [lia|].
      destruct (IH (cursor + 100)%N count w1) as (r & w' & Hrun & Hr); [lia | lia |].
      by exists r, w'.
  - unfold Redis.delete, Redis.call.
    destruct (fails E (length (log w1))); [by eauto 6|].
    destruct (N.leb_spec (Npos (nbuckets E)) (cursor + 100)) as [Hlast|Hmore].
    + cbn [N.eqb]. eexists _, _. split; [done|]. right. eexists. split; [done|lia].
    + destruct (N.eqb_spec (cursor + 100) 0) as [|_]; [lia|].
      match goal with |- context [RedisCache.clear_loop E fuel pattern _ ?c ?w0] =>
        destruct (IH (cursor + 100)%N c w0) as (r & w' & Hrun & Hr); [lia | lia |] end.
      exists r, w'. split; [done|]. destruct Hr as [|(n & -> & Hn)]; [by left|].
      right. exists n. split; [done|lia].
Qed.

(** X5. [clear] always comes to an end, with a count that is not negative
    or with [RedisError]: unlike [get] and [set] it lets the error of the
    transport through.  When its first [SCAN] fails nothing is deleted. *)
Theorem clear_propagates_transport_error E self pattern w :
  exists r w',
    RedisCache.clear E self pattern w = Some (r, w')
    /\ (r = Raise RedisError \/ exists n, r = Ok n /\ (0 <= n)%Z)
    /\ (fails E (length (log w)) = true -> r = Raise RedisError /\ store w' = store w).
Proof.
  destruct (clear_loop_total E pattern (S (Pos.to_nat (nbuckets E))) 0%N 0%Z w)
    as (r & w' & Hrun & Hr); [lia | lia |].
  exists r, w'. split_and!; [done | done |].
  intros Hfail. unfold RedisCache.clear in Hrun. cbn [RedisCache.clear_loop] in Hrun.
  unfold Redis.scan, Redis.call in Hrun. rewrite Hfail in Hrun.
  by injection Hrun as <- <-.
Qed.

(** ** The shape of a cache key *)

Lemma length_concat_uniform {A} n (ls : list (list A)) :
  Forall (fun l => length l = n) ls -> length (concat ls) = n * length ls.
Proof.
  induction 1 as [|l ls Hl _ IH]; simpl; [lia|]. rewrite length_app, IH, Hl. lia.
Qed.

Lemma round_length st kw : length st = 8 -> length (SHA256.round st kw) = 8.
Proof.
  intros H. do 9 (destruct st as [|? st]; try done).
Qed.

Lemma fold_round_length l : forall st,
  length st = 8 -> length (fold_left SHA256.round l st) = 8.
Proof.
  induction l as [|kw l IH]; intros st H; [done|]. cbn [fold_left].
  by apply IH, round_length.
Qed.

Lemma compress_length h block : length h = 8 -> length (SHA256.compress h block) = 8.
Proof.
  intros H. unfold SHA256.compress. rewrite length_zip_with, fold_round_length by done. lia.
Qed.

Lemma blocks_length n : forall h bs, length h = 8 -> length (SHA256.blocks n h bs) = 8.
Proof.
  induction n as [|n IH]; intros h bs H; [done|]. cbn [SHA256.blocks].
  by apply IH, compress_length.
Qed.

Lemma be_bytes_length k x : length (SHA256.be_bytes k x) = k.
Proof. unfold SHA256.be_bytes. by rewrite length_map, length_rev, length_seq. Qed.

Lemma be_bytes_range k x : Forall (fun b => (b < 256)%N) (SHA256.be_bytes k x).
Proof.
  unfold SHA256.be_bytes. apply Forall_forall. intros b (i & -> & _)%list_elem_of_fmap.
  by apply N.mod_lt.
Qed.

Lemma digest_length msg : length (SHA256.digest msg) = 32.
Proof.
  unfold SHA256.digest. rewrite (length_concat_uniform 4).
  - rewrite length_map, blocks_length; done.
  - apply Forall_forall. intros l (x & -> & _)%list_elem_of_fmap. apply be_bytes_length.
Qed.

Lemma digest_range msg : Forall (fun b => (b < 256)%N) (SHA256.digest msg).
Proof.
  unfold SHA256.digest. apply Forall_concat, Forall_forall.
  intros l (x & -> & _)%list_elem_of_fmap. apply be_bytes_range.
Qed.

Lemma hex_digit_lower n : (n < 16)%N -> is_lower_hex (hex_digit n) = true.
Proof.
  intros H. unfold is_lower_hex, hex_digit.
  destruct (N.ltb_spec n 10).
  - apply orb_true_intro. left. apply andb_true_intro. split; [apply N.leb_le|apply N.leb_le]; lia.
  - apply orb_true_intro. right. apply andb_true_intro. split; [apply N.leb_le|apply N.leb_le]; lia.
Qed.

(** [hexdigest] is 64 lower-case hexadecimal digits. *)
Lemma hexdigest_length msg : length (SHA256.hexdigest msg) = 64.
Proof.
  unfold SHA256.hexdigest. rewrite (length_concat_uniform 2).
  - by rewrite length_map, digest_length.
  - apply Forall_forall. by intros l (x & -> & _)%list_elem_of_fmap.
Qed.

Lemma hexdigest_hex msg : Forall (fun c => is_lower_hex c = true) (SHA256.hexdigest msg).
Proof.
  unfold SHA256.hexdigest. apply Forall_concat, Forall_forall.
  intros l (b & -> & Hb)%list_elem_of_fmap.
  pose proof (digest_range msg) as Hr. rewrite Forall_forall in Hr. specialize (Hr b Hb).
  repeat constructor; apply hex_digit_lower.
  - rewrite N.shiftr_div_pow2. change (2 ^ 4)%N with 16%N.
    apply N.Div0.div_lt_upper_bound. lia.
  - by apply N.mod_lt.
Qed.

(** X6. A key that [get_cache_key] returns is the namespace tag followed
    by 64 lower-case hexadecimal digits, so that the default pattern of
    [clear] matches it. *)
Theorem get_cache_key_format provider model messages (kwargs : pydict) key :
  RedisCache.get_cache_key provider model messages kwargs = Ok key ->
  exists digest,
    key = py "llm_cache:" ++ digest
    /\ length digest = 64
    /\ Forall (fun c => is_lower_hex c = true) digest
    /\ Redis.glob RedisCache.default_pattern key = true.
Proof.
  unfold RedisCache.get_cache_key. intros H.
  destruct (encode (RedisCache.key_json provider model messages kwargs)) as [bytes|]; [|done].
  cbn [rbind] in H. injection H as <-. exists (SHA256.hexdigest bytes).
  split_and!; [done | apply hexdigest_length | apply hexdigest_hex |].
  apply glob_default_pattern. exists (SHA256.hexdigest bytes). reflexivity.
Qed.

Lemma get_cache_key_format_witness :
  exists digest,
    request_key sample_config (py "ping") = py "llm_cache:" ++ digest
    /\ length digest = 64
    /\ Forall (fun c => is_lower_hex c = true) digest
    /\ Redis.glob RedisCache.default_pattern (request_key sample_config (py "ping")) = true.
Proof.
  apply (get_cache_key_format (provider sample_config) (model sample_config)
           (user_messages (py "ping")) request_params).
  apply request_key_eq.
Defined.

(** ** What the cache key tells apart *)

Lemma key_json_messages provider model messages1 messages2 (kwargs : pydict) :
  dumps true messages1 = dumps true messages2 ->
  RedisCache.key_json provider model messages1 kwargs
  = RedisCache.key_json provider model messages2 kwargs.
Proof.
  intros Hm. unfold RedisCache.key_json, RedisCache.key_data. cbn [dumps map].
  by rewrite Hm.
Qed.

Lemma dumps_sorted_dict (d1 d2 : pydict) :
  NoDup d1.*1 -> d1 ≡ₚ d2 -> dumps true (PDict d1) = dumps true (PDict d2).
Proof.
  intros Hnd Hp. cbn [dumps].
  rewrite (sorted_items_unique
             (map (fun kv : pystr * pyval => let (k, x) := kv in (k, dumps true x)) d1)
             (map (fun kv : pystr * pyval => let (k, x) := kv in (k, dumps true x)) d2));
    [done | | by apply Permutation_map].
  assert ((map (fun kv : pystr * pyval => let (k, x) := kv in (k, dumps true x)) d1).*1
          = d1.*1) as ->; [|done].
  clear. induction d1 as [|[k x] d1 IH]; [done|]. cbn [map fmap list_fmap fst].
  f_equal. exact IH.
Qed.

(** X29. The cache key does not depend on the order in which the entries
    of a message were written: [sort_keys] puts the keys of every dict of
    the request in order, those of the messages too. *)
Theorem get_cache_key_message_entry_order provider model (ms1 ms2 : list pydict)
    (kwargs : pydict) :
  Forall2 (fun d1 d2 => NoDup d1.*1 /\ d1 ≡ₚ d2) ms1 ms2 ->
  RedisCache.get_cache_key provider model (PList (map PDict ms1)) kwargs
  = RedisCache.get_cache_key provider model (PList (map PDict ms2)) kwargs.
Proof.
  intros Hms. unfold RedisCache.get_cache_key.
  rewrite (key_json_messages provider model (PList (map PDict ms1)) (PList (map PDict ms2)));
    [done|].
  cbn [dumps]. do 3 f_equal.
  induction Hms as [|d1 d2 ms1 ms2 [Hnd Hp] _ IH]; [done|].
  cbn [map]. by rewrite (dumps_sorted_dict d1 d2), IH.
Qed.

Lemma get_cache_key_message_entry_order_witness :
  RedisCache.get_cache_key (py "ollama") (py "llama3")
    (PList (map PDict [[(py "role", PStr (py "user")); (py "content", PStr (py "ping"))]]))
    request_params
  = RedisCache.get_cache_key (py "ollama") (py "llama3")
      (PList (map PDict [[(py "content", PStr (py "ping")); (py "role", PStr (py "user"))]]))
      request_params.
Proof.
  apply get_cache_key_message_entry_order.
  constructor; [|constructor]. split.
  - apply (bool_decide_unpack _). vm_compute. exact I.
  - apply perm_swap.
Defined.

(** X30. For well-formed descriptors the canonical text that is hashed
    tells two requests apart exactly when they differ in the provider, the
    model, the messages (their number, order, roles or contents) or the
    parameters taken as a set: the text is the same if and only if all of
    these are. *)
Theorem descriptor_text_identifies_request d d' :
  well_formed d -> well_formed d' ->
  descriptor_json d = descriptor_json d'
  <-> rd_provider d = rd_provider d' /\ rd_model d = rd_model d'
      /\ rd_messages d = rd_messages d' /\ rd_parameters d ≡ₚ rd_parameters d'.
Proof.
  intros Hwf Hwf'. split; [by apply descriptor_json_inj|].
  intros (Hp & Hm & Hmsg & Hperm).
  destruct (well_formed_parts d Hwf) as (_ & _ & _ & _ & Hnd).
  unfold descriptor_json, RedisCache.key_json, RedisCache.key_data, messages_of.
  by rewrite Hp, Hm, Hmsg, (sorted_items_unique _ _ Hnd Hperm).
Qed.

Lemma descriptor_text_identifies_request_witness :
  descriptor_json two_parameter_descriptor = descriptor_json swapped_parameter_descriptor
  <-> rd_provider two_parameter_descriptor = rd_provider swapped_parameter_descriptor
      /\ rd_model two_parameter_descriptor = rd_model swapped_parameter_descriptor
      /\ rd_messages two_parameter_descriptor = rd_messages swapped_parameter_descriptor
      /\ rd_parameters two_parameter_descriptor
         ≡ₚ rd_parameters swapped_parameter_descriptor.
Proof.
  apply descriptor_text_identifies_request; apply (bool_decide_unpack _); vm_compute; exact I.
Defined.

(** ** The cached request: a miss and a hit *)

Lemma request_miss E cache cfg message w response content :
  is_truthy (read_value E w (request_key cfg message)) = false ->
  llm E (length (log w) + 1) (request_of cfg message) = Ok response ->
  response_content response = Ok content ->
  make_cached_chat_request E cache cfg message true w
  = (Ok (content, took E (length (log w) + 1), false),
     written E cache (request_key cfg message) response None
       (record (EvChat (request_of cfg message))
          (record (EvGet (request_key cfg message)) w))).
Proof.
  intros Hmiss Hllm Hcontent. rewrite request_cached_eq. cbn zeta. rewrite Hmiss.
  unfold upstream_outcome. rewrite length_log_record. by rewrite Hllm, Hcontent.
Qed.

Lemma request_hit E cache cfg message w response content :
  fails E (length (log w)) = false ->
  Redis.live w (request_key cfg message) = Some (dumps false response) ->
  plain response ->
  response_content response = Ok content ->
  make_cached_chat_request E cache cfg message true w
  = (Ok (content, took E (length (log w)), true),
     record (EvGet (request_key cfg message)) w).
Proof.
  intros Hok Hlive Hplain Hcontent.
  destruct (response_content_cached _ _ Hcontent) as [Hcached Htrue].
  rewrite request_cached_eq. cbn zeta.
  assert (read_value E w (request_key cfg message) = response) as ->.
  { unfold read_value. rewrite Hok, Hlive, bool_decide_false by (by apply dumps_nonempty).
    by rewrite loads_dumps, canonical_unsorted. }
  by rewrite Htrue, Hcached.
Qed.

Lemma read_value_absent E w k : Redis.live w k = None -> read_value E w k = PNone.
Proof. intros H. unfold read_value. rewrite H. by destruct (fails E (length (log w))). Qed.

Lemma request_key_same_model cfg cfg' message :
  provider cfg' = provider cfg -> model cfg' = model cfg ->
  request_key cfg' message = request_key cfg message.
Proof. intros Hp Hm. unfold request_key. by rewrite Hp, Hm. Qed.

(** The world a miss leaves when its write reaches the server. *)
Lemma written_after_miss E cache key req response w :
  fails E (length (log w) + 2) = false ->
  (0 < RedisCache.default_ttl cache)%Z ->
  written E cache key response None (record (EvChat req) (record (EvGet key) w))
  = {| store := <[key := (dumps false response,
                          (clock w + RedisCache.default_ttl cache)%Z)]> (store w);
       clock := clock w;
       log := log w ++ [EvGet key; EvChat req;
                        EvSetex key (RedisCache.default_ttl cache) (dumps false response)] |}.
Proof.
  intros Hok Httl. rewrite written_stored.
  - cbn [record store clock log effective_ttl]. by rewrite <-!app_assoc.
  - rewrite !length_log_record.
    by replace (length (log w) + 1 + 1) with (length (log w) + 2) by lia.
  - done.
Qed.

(** X7. The cache key of a request leaves the host of the provider out:
    an answer stored by a request through one host is a hit for the same
    message sent through a configuration with the same provider and model
    and any other host, and the gateway is not called for it. *)
Theorem hit_across_hosts E cache cfg cfg' message w response content d :
  provider cfg' = provider cfg ->
  model cfg' = model cfg ->
  Redis.live w (request_key cfg message) = None ->
  fails E (length (log w) + 2) = false ->
  fails E (length (log w) + 3) = false ->
  llm E (length (log w) + 1) (request_of cfg message) = Ok response ->
  plain response ->
  response_content response = Ok content ->
  (0 <= d < RedisCache.default_ttl cache)%Z ->
  exists w1 w2,
    make_cached_chat_request E cache cfg message true w
    = (Ok (content, took E (length (log w) + 1), false), w1)
    /\ make_cached_chat_request E cache cfg' message true (elapse d w1)
       = (Ok (content, took E (length (log w) + 3), true), w2)
    /\ log w2
       = log w ++ [EvGet (request_key cfg message);
                   EvChat (request_of cfg message);
                   EvSetex (request_key cfg message) (RedisCache.default_ttl cache)
                     (dumps false response);
                   EvGet (request_key cfg message)].
Proof.
  intros Hp Hm Hfresh Hset Hget Hllm Hplain Hcontent Hd.
  pose proof (request_key_same_model cfg cfg' message Hp Hm) as Hkey.
  set (key := request_key cfg message) in *. set (req := request_of cfg message) in *.
  set (w1 := written E cache key response None (record (EvChat req) (record (EvGet key) w))).
  pose proof (written_after_miss E cache key req response w Hset) as Hw1.
  fold w1 in Hw1. specialize (Hw1 ltac:(lia)).
  assert (length (log w1) = length (log w) + 3) as Hlen.
  { rewrite Hw1. cbn [log]. rewrite length_app. simpl. lia. }
  exists w1, (record (EvGet key) (elapse d w1)). split_and!.
  - apply request_miss; [by rewrite read_value_absent | done | done].
  - rewrite (request_hit E cache cfg' message (elapse d w1) response content); try done.
    + rewrite Hkey. cbn [elapse log]. by rewrite Hlen.
    + cbn [elapse log]. by rewrite Hlen.
    + rewrite Hkey. unfold Redis.live, elapse. cbn [store clock]. rewrite Hw1. cbn [store clock].
      rewrite lookup_insert_eq.
      by destruct (Z.ltb_spec (clock w + d) (clock w + RedisCache.default_ttl cache)); [|lia].
  - cbn [record elapse log]. rewrite Hw1. cbn [log]. by rewrite <-app_assoc.
Qed.

Lemma hit_across_hosts_witness :
  exists w1 w2,
    make_cached_chat_request sample_env sample_cache sample_config (py "ping") true
      empty_world
    = (Ok (py "Paris.", took sample_env (length (log empty_world) + 1), false), w1)
    /\ make_cached_chat_request sample_env sample_cache invalid_host_config (py "ping") true
         (elapse 10 w1)
       = (Ok (py "Paris.", took sample_env (length (log empty_world) + 3), true), w2)
    /\ log w2
       = log empty_world
         ++ [EvGet (request_key sample_config (py "ping"));
             EvChat (request_of sample_config (py "ping"));
             EvSetex (request_key sample_config (py "ping"))
               (RedisCache.default_ttl sample_cache) (dumps false sample_response);
             EvGet (request_key sample_config (py "ping"))].
Proof.
  apply (hit_across_hosts sample_env sample_cache sample_config invalid_host_config
           (py "ping") empty_world sample_response (py "Paris.") 10);
    try reflexivity.
  unfold sample_cache, CACHE_MAX_AGE. simpl. lia.
Defined.

(** X8. A live payload that decodes to a value Python takes for false
    (an empty dict or list, [null], [0], an empty string, [false]) is no
    hit: the gateway is called and its answer replaces the entry. *)
Theorem falsy_payload_is_overwritten E cache cfg message w payload v response content :
  fails E (length (log w)) = false ->
  Redis.live w (request_key cfg message) = Some payload ->
  loads payload = Ok v ->
  is_truthy v = false ->
  llm E (length (log w) + 1) (request_of cfg message) = Ok response ->
  response_content response = Ok content ->
  fails E (length (log w) + 2) = false ->
  (0 < RedisCache.default_ttl cache)%Z ->
  exists w1,
    make_cached_chat_request E cache cfg message true w
    = (Ok (content, took E (length (log w) + 1), false), w1)
    /\ store w1 !! request_key cfg message
       = Some (dumps false response, (clock w + RedisCache.default_ttl cache)%Z)
    /\ log w1
       = log w ++ [EvGet (request_key cfg message);
                   EvChat (request_of cfg message);
                   EvSetex (request_key cfg message) (RedisCache.default_ttl cache)
                     (dumps false response)].
Proof.
  intros Hok Hlive Hl Hv Hllm Hcontent Hset Httl.
  eexists. split; [apply request_miss; [|done|done]|].
  - unfold read_value. rewrite Hok, Hlive.
    rewrite bool_decide_false by eauto using loads_nonempty. by rewrite Hl.
  - rewrite written_after_miss by done. cbn [store log]. by rewrite lookup_insert_eq.
Qed.

Lemma falsy_payload_is_overwritten_witness :
  exists w1,
    make_cached_chat_request sample_env sample_cache sample_config (py "ping") true
      empty_payload_world
    = (Ok (py "Paris.", took sample_env (length (log empty_payload_world) + 1), false), w1)
    /\ store w1 !! request_key sample_config (py "ping")
       = Some (dumps false sample_response,
               (clock empty_payload_world + RedisCache.default_ttl sample_cache)%Z)
    /\ log w1
       = log empty_payload_world
         ++ [EvGet (request_key sample_config (py "ping"));
             EvChat (request_of sample_config (py "ping"));
             EvSetex (request_key sample_config (py "ping"))
               (RedisCache.default_ttl sample_cache) (dumps false sample_response)].
Proof.
  apply (falsy_payload_is_overwritten sample_env sample_cache sample_config (py "ping")
           empty_payload_world (py "{}") (PDict []) sample_response (py "Paris."));
    [reflexivity | | reflexivity..].
  unfold Redis.live, empty_payload_world. cbn [store clock].
  rewrite lookup_singleton_eq. reflexivity.
Defined.

(** X9. With the server out of reach a request that uses the cache still
    returns the answer of the gateway, as no hit: the failed read and the
    failed write are both passed over, and the store is left as it was. *)
Theorem request_survives_redis_outage E cache cfg message w response content :
  fails E (length (log w)) = true ->
  fails E (length (log w) + 2) = true ->
  llm E (length (log w) + 1) (request_of cfg message) = Ok response ->
  response_content response = Ok content ->
  exists w1,
    make_cached_chat_request E cache cfg message true w
    = (Ok (content, took E (length (log w) + 1), false), w1)
    /\ store w1 = store w
    /\ log w1
       = log w ++ [EvGet (request_key cfg message);
                   EvChat (request_of cfg message);
                   EvSetex (request_key cfg message) (RedisCache.default_ttl cache)
                     (dumps false response)].
Proof.
  intros Hget Hset Hllm Hcontent.
  eexists. split; [apply request_miss; [|done|done]|].
  - unfold read_value. by rewrite Hget.
  - rewrite written_dropped.
    + cbn [record store log effective_ttl]. by rewrite <-!app_assoc.
    + left. rewrite !length_log_record.
      by replace (length (log w) + 1 + 1) with (length (log w) + 2) by lia.
Qed.

Lemma request_survives_redis_outage_witness :
  exists w1,
    make_cached_chat_request outage_env sample_cache sample_config (py "ping") true
      empty_world
    = (Ok (py "Paris.", took outage_env (length (log empty_world) + 1), false), w1)
    /\ store w1 = store empty_world
    /\ log w1
       = log empty_world
         ++ [EvGet (request_key sample_config (py "ping"));
             EvChat (request_of sample_config (py "ping"));
             EvSetex (request_key sample_config (py "ping"))
               (RedisCache.default_ttl sample_cache) (dumps false sample_response)].
Proof.
  apply (request_survives_redis_outage outage_env sample_cache sample_config (py "ping")
           empty_world sample_response (py "Paris.")); reflexivity.
Defined.

(** X10. When the gateway answers but the text of the answer cannot be
    read (no choice in it, or a content that is no string), a request that
    missed raises what reading it raises, and the answer is not stored. *)
Theorem unreadable_response_not_cached E cache cfg message w v w1 response e :
  RedisCache.get E cache (request_key cfg message) w = (Ok v, w1) ->
  is_truthy v = false ->
  llm E (length (log w1)) (request_of cfg message) = Ok response ->
  response_content response = Raise e ->
  exists w',
    make_cached_chat_request E cache cfg message true w = (Raise e, w')
    /\ store w' = store w
    /\ log w' = log w ++ [EvGet (request_key cfg message); EvChat (request_of cfg message)].
Proof.
  rewrite cache_get_eq. intros [= <- <-] Hv Hllm He.
  rewrite request_cached_eq. cbn zeta. rewrite Hv. unfold upstream_outcome.
  rewrite Hllm, He. eexists. split_and!; [done | done |].
  cbn [record log]. by rewrite <-app_assoc.
Qed.

Lemma unreadable_response_not_cached_witness :
  exists w',
    make_cached_chat_request no_choice_env sample_cache sample_config (py "ping") true
      empty_world
    = (Raise IndexError, w')
    /\ store w' = store empty_world
    /\ log w' = log empty_world ++ [EvGet (request_key sample_config (py "ping"));
                                    EvChat (request_of sample_config (py "ping"))].
Proof.
  apply (unreadable_response_not_cached no_choice_env sample_cache sample_config (py "ping")
           empty_world PNone
           (record (EvGet (request_key sample_config (py "ping"))) empty_world)
           no_choice_response IndexError).
  - rewrite cache_get_eq. reflexivity.
  - reflexivity.
  - reflexivity.
  - reflexivity.
Defined.



(** ** [str.strip] *)

Lemma lstrip_head s c : head (lstrip s) = Some c -> is_space c = false.
Proof.
  induction s as [|x s IH]; [done|]. cbn [lstrip].
  destruct (is_space x) eqn:Hx; [done|]. by intros [= <-].
Qed.

Lemma lstrip_suffix s : lstrip s `suffix_of` s.
Proof.
  induction s as [|x s IH]; [done|]. cbn [lstrip].
  destruct (is_space x); [by apply suffix_cons_r | done].
Qed.

Lemma lstrip_fixed s : (forall c, head s = Some c -> is_space c = false) -> lstrip s = s.
Proof.
  destruct s as [|x s]; [done|]. intros H. cbn [lstrip]. by rewrite (H x).
Qed.

Lemma last_suffix {A} (l1 l2 : list A) x :
  l1 `suffix_of` l2 -> last l1 = Some x -> last l2 = Some x.
Proof.
  intros [k ->] H. destruct l1 as [|y l1] using rev_ind; [done|].
  rewrite app_assoc, last_snoc. by rewrite last_snoc in H.
Qed.

Lemma head_rev {A} (l : list A) : head (rev l) = last l.
Proof.
  destruct l as [|x l] using rev_ind; [done|]. by rewrite rev_unit, last_snoc.
Qed.

Lemma last_rev {A} (l : list A) : last (rev l) = head l.
Proof. by rewrite <-head_rev, rev_involutive. Qed.

(** A stripped string neither starts nor ends with white space, and
    stripping it again changes nothing. *)
Lemma strip_ends s :
  (forall c, head (strip s) = Some c -> is_space c = false)
  /\ (forall c, last (strip s) = Some c -> is_space c = false).
Proof.
  unfold strip. split; intros c.
  - rewrite head_rev. intros H.
    apply (last_suffix _ _ _ (lstrip_suffix _)) in H. rewrite last_rev in H.
    by apply lstrip_head in H.
  - rewrite last_rev. apply lstrip_head.
Qed.

Lemma strip_strip s : strip (strip s) = strip s.
Proof.
  destruct (strip_ends s) as [Hh Hl]. unfold strip at 1.
  rewrite (lstrip_fixed (strip s)) by done.
  rewrite lstrip_fixed; [apply rev_involutive|].
  intros c. rewrite head_rev. apply Hl.
Qed.

Lemma str_strip_stripped v s : str_strip v = Ok s -> exists s0, s = strip s0.
Proof. destruct v; try done. intros [= <-]. eauto. Qed.

Lemma cached_content_stripped v s : cached_content v = Ok s -> exists s0, s = strip s0.
Proof.
  unfold cached_content. intros H.
  destruct (getitem_str v (py "choices")) as [choices|]; [|done]. cbn [rbind] in H.
  destruct (getitem_int choices 0) as [choice|]; [|done]. cbn [rbind] in H.
  destruct (getitem_str choice (py "message")) as [msg|]; [|done]. cbn [rbind] in H.
  destruct (getitem_str msg (py "content")) as [c|]; [|done]. cbn [rbind] in H.
  by apply str_strip_stripped in H.
Qed.

Lemma response_content_stripped v s : response_content v = Ok s -> exists s0, s = strip s0.
Proof.
  intros H. apply response_content_cached in H as [H _]. by apply cached_content_stripped in H.
Qed.

(** X11. The text a request returns, from the cache or from the gateway,
    was stripped: it neither starts nor ends with white space, and
    stripping it again changes nothing. *)
Theorem returned_content_is_stripped E cache cfg message (use_cache : bool) w :
  forall content elapsed hit w',
    make_cached_chat_request E cache cfg message use_cache w
    = (Ok (content, elapsed, hit), w') ->
    strip content = content
    /\ (forall c, head content = Some c -> is_space c = false)
    /\ (forall c, last content = Some c -> is_space c = false).
Proof.
  intros content elapsed hit w' H.
  assert (exists s0, content = strip s0) as [s0 ->].
  { assert (forall use w0, upstream_outcome E cache cfg message use w0
                           = (Ok (content, elapsed, hit), w') ->
                           exists s0, content = strip s0) as Hup.
    { intros use w0. unfold upstream_outcome.
      destruct (llm E (length (log w0)) (request_of cfg message)) as [response|]; [|done].
      destruct (response_content response) as [c|] eqn:Hc; [|done].
      intros [= <- _ _ _]. by apply response_content_stripped in Hc. }
    destruct use_cache.
    - rewrite request_cached_eq in H. cbn zeta in H.
      destruct (is_truthy _); [|by apply Hup in H].
      destruct (cached_content _) as [c|] eqn:Hc; [|done].
      injection H as <- _ _ _. by apply cached_content_stripped in Hc.
    - rewrite request_bypass_eq in H. by apply Hup in H. }
  split; [apply strip_strip | apply strip_ends].
Qed.

Lemma returned_content_is_stripped_witness :
  strip (py "Paris.") = py "Paris."
  /\ (forall c, head (py "Paris.") = Some c -> is_space c = false)
  /\ (forall c, last (py "Paris.") = Some c -> is_space c = false).
Proof.
  eapply (returned_content_is_stripped sample_env sample_cache sample_config (py "ping")
            false empty_world).
  rewrite request_bypass_eq. reflexivity.
Defined.

(** ** The scenarios *)

Lemma baseline_eq E cache cfg w :
  run_no_cache_baseline E cache cfg w
  = match upstream_outcome E cache cfg baseline_message1 false w with
    | (Ok (_, time1, _), w1) =>
        match upstream_outcome E cache cfg baseline_message2 false w1 with
        | (Ok (_, time2, _), w2) =>
            (Ok {| test := py "No Cache (Baseline)";
                   first_time := time1; second_time := time2;
                   first_cache := NotApplicable; second_cache := NotApplicable;
                   speedup := Finite 1 |}, w2)
        | (Raise e, w2) => (Raise e, w2)
        end
    | (Raise e, w1) => (Raise e, w1)
    end.
Proof.
  unfold run_no_cache_baseline. fold baseline_message1 baseline_message2.
  unfold mbind at 1, M_bind at 1. rewrite request_bypass_eq.
  destruct (upstream_outcome E cache cfg baseline_message1 false w) as [[[[a1 t1] h1]|e1] w1];
    [|done].
  unfold mbind, M_bind. rewrite request_bypass_eq.
  by destruct (upstream_outcome E cache cfg baseline_message2 false w1)
    as [[[[a2 t2] h2]|e2] w2].
Qed.

(** X12. The baseline scenario never reads or writes the store: it makes
    one call to the gateway, and a second one when the first returned, and
    leaves the store as it was; when it returns it reports the speedup 1
    and no cache status, whatever the two measured times. *)
Theorem baseline_never_touches_store E cache cfg w :
  let out := run_no_cache_baseline E cache cfg w in
  store out.2 = store w
  /\ clock out.2 = clock w
  /\ ((log out.2 = log w ++ [EvChat (request_of cfg baseline_message1)]
       /\ exists e, out.1 = Raise e)
      \/ log out.2 = log w ++ [EvChat (request_of cfg baseline_message1);
                               EvChat (request_of cfg baseline_message2)])
  /\ (forall s, out.1 = Ok s ->
      speedup s = Finite 1
      /\ first_cache s = NotApplicable /\ second_cache s = NotApplicable
      /\ first_time s = took E (length (log w))
      /\ second_time s = took E (length (log w) + 1)).
Proof.
  cbn zeta. rewrite baseline_eq. unfold upstream_outcome.
  destruct (llm E (length (log w)) (request_of cfg baseline_message1)) as [r1|e1].
  2:{ cbn [fst snd record store clock log]. split_and!; [done | done | left; eauto | done]. }
  destruct (response_content r1) as [c1|e1].
  2:{ cbn [fst snd record store clock log]. split_and!; [done | done | left; eauto | done]. }
  rewrite length_log_record.
  destruct (llm E (length (log w) + 1) (request_of cfg baseline_message2)) as [r2|e2].
  2:{ cbn [fst snd record store clock log]. rewrite <-app_assoc.
      split_and!; [done | done | by right | done]. }
  destruct (response_content r2) as [c2|e2].
  2:{ cbn [fst snd record store clock log]. rewrite <-app_assoc.
      split_and!; [done | done | by right | done]. }
  cbn [fst snd record store clock log]. rewrite <-app_assoc.
  split_and!; [done | done | by right |]. by intros s [= <-].
Qed.

(** The requests of a scenario of which each is a hit. *)
Lemma repeat_hits E cache cfg message response content n : forall w times hits,
  (forall i, i < n -> fails E (length (log w) + i) = false) ->
  Redis.live w (request_key cfg message) = Some (dumps false response) ->
  plain response ->
  response_content response = Ok content ->
  repeat_requests E n cache cfg message times hits w
  = (Ok (times ++ map (fun i => took E (length (log w) + i)) (seq 0 n),
         hits ++ replicate n true),
     {| store := store w; clock := clock w;
        log := log w ++ replicate n (EvGet (request_key cfg message)) |}).
Proof.
  induction n as [|n IH]; intros w times hits Hok Hlive Hplain Hcontent.
  { cbn [repeat_requests seq map replicate]. rewrite !app_nil_r. by destruct w. }
  cbn [repeat_requests]. unfold mbind at 1, M_bind at 1.
  rewrite (request_hit E cache cfg message w response content); try done.
  2:{ rewrite <-(Nat.add_0_r (length (log w))). apply Hok. lia. }
  rewrite IH; try done.
  2:{ intros i Hi. rewrite length_log_record.
      replace (length (log w) + 1 + i) with (length (log w) + S i) by lia. apply Hok. lia. }
  cbn [record store clock log]. rewrite length_app. cbn [length].
  rewrite <-!app_assoc. cbn [app seq map replicate]. rewrite Nat.add_0_r.
  do 4 f_equal. rewrite <-seq_shift, map_map. f_equal. apply map_ext. intros i. f_equal. lia.
Qed.

Lemma repeat_requests_S E n cache cfg message times hits w :
  repeat_requests E (S n) cache cfg message times hits w
  = (make_cached_chat_request E cache cfg message true
     ≫= (fun r : pystr * Q * bool =>
           repeat_requests E n cache cfg message (times ++ [r.1.2]) (hits ++ [r.2]))) w.
Proof.
  cbn [repeat_requests]. unfold mbind, M_bind.
  by destruct (make_cached_chat_request E cache cfg message true w) as [[[[a e] h]|] w1].
Qed.

(** The simple test when its first request misses and its second hits. *)
Lemma simple_test_eq E cache cfg w response content :
  Redis.live w (request_key cfg simple_test_message) = None ->
  fails E (length (log w) + 2) = false ->
  fails E (length (log w) + 3) = false ->
  llm E (length (log w) + 1) (request_of cfg simple_test_message) = Ok response ->
  plain response ->
  response_content response = Ok content ->
  (0 < RedisCache.default_ttl cache)%Z ->
  run_simple_cache_test E cache cfg w
  = (Ok {| test := py "Simple Cache (Redis)";
           first_time := took E (length (log w) + 1);
           second_time := took E (length (log w) + 3);
           first_cache := MISS;
           second_cache := HIT;
           speedup := simple_speedup (took E (length (log w) + 1))
                        (took E (length (log w) + 3)) |},
     {| store := <[request_key cfg simple_test_message
                   := (dumps false response,
                       (clock w + RedisCache.default_ttl cache)%Z)]> (store w);
        clock := clock w;
        log := log w ++ [EvGet (request_key cfg simple_test_message);
                         EvChat (request_of cfg simple_test_message);
                         EvSetex (request_key cfg simple_test_message)
                           (RedisCache.default_ttl cache) (dumps false response);
                         EvGet (request_key cfg simple_test_message)] |}).
Proof.
  intros Hfresh Hset Hget Hllm Hplain Hcontent Httl.
  unfold run_simple_cache_test. fold simple_test_message.
  unfold mbind at 1, M_bind at 1.
  rewrite (request_miss E cache cfg simple_test_message w response content);
    [|by rewrite read_value_absent | done | done].
  rewrite written_after_miss by done.
  unfold mbind at 1, M_bind at 1.
  rewrite (request_hit E cache cfg simple_test_message _ response content); try done.
  - cbn [log]. rewrite length_app. cbn [length mret M_ret status_of].
    unfold record. cbn [log store clock]. by rewrite <-app_assoc.
  - cbn [log]. rewrite length_app. by cbn [length].
  - unfold Redis.live. cbn [store clock]. rewrite lookup_insert_eq.
    by destruct (Z.ltb_spec (clock w) (clock w + RedisCache.default_ttl cache)); [|lia].
Qed.

(** X13. The simple test, run while the store holds no live entry for its
    message, reports a miss and then a hit: the gateway is called once, and
    the speedup is the first time over the second, infinite when the second
    is not positive. *)
Theorem simple_test_reports_miss_then_hit E cache cfg w response content :
  Redis.live w (request_key cfg simple_test_message) = None ->
  fails E (length (log w) + 2) = false ->
  fails E (length (log w) + 3) = false ->
  llm E (length (log w) + 1) (request_of cfg simple_test_message) = Ok response ->
  plain response ->
  response_content response = Ok content ->
  (0 < RedisCache.default_ttl cache)%Z ->
  exists w2,
    run_simple_cache_test E cache cfg w
    = (Ok {| test := py "Simple Cache (Redis)";
             first_time := took E (length (log w) + 1);
             second_time := took E (length (log w) + 3);
             first_cache := MISS;
             second_cache := HIT;
             speedup := simple_speedup (took E (length (log w) + 1))
                          (took E (length (log w) + 3)) |}, w2)
    /\ log w2
       = log w ++ [EvGet (request_key cfg simple_test_message);
                   EvChat (request_of cfg simple_test_message);
                   EvSetex (request_key cfg simple_test_message)
                     (RedisCache.default_ttl cache) (dumps false response);
                   EvGet (request_key cfg simple_test_message)].
Proof.
  intros Hfresh Hset Hget Hllm Hplain Hcontent Httl.
  eexists. split; [by eapply simple_test_eq|]. done.
Qed.

Lemma simple_test_reports_miss_then_hit_witness :
  exists w2,
    run_simple_cache_test sample_env sample_cache sample_config empty_world
    = (Ok {| test := py "Simple Cache (Redis)";
             first_time := took sample_env (length (log empty_world) + 1);
             second_time := took sample_env (length (log empty_world) + 3);
             first_cache := MISS;
             second_cache := HIT;
             speedup := simple_speedup (took sample_env (length (log empty_world) + 1))
                          (took sample_env (length (log empty_world) + 3)) |}, w2)
    /\ log w2
       = log empty_world
         ++ [EvGet (request_key sample_config simple_test_message);
             EvChat (request_of sample_config simple_test_message);
             EvSetex (request_key sample_config simple_test_message)
               (RedisCache.default_ttl sample_cache) (dumps false sample_response);
             EvGet (request_key sample_config simple_test_message)].
Proof.
  apply (simple_test_reports_miss_then_hit sample_env sample_cache sample_config empty_world
           sample_response (py "Paris.")); reflexivity.
Defined.

(** The persistence test when its first request misses and the others
    hit. *)
Lemma persistence_test_eq E cache cfg w response content :
  Redis.live w (request_key cfg persistence_test_message) = None ->
  (forall i, 2 <= i < 7 -> fails E (length (log w) + i) = false) ->
  llm E (length (log w) + 1) (request_of cfg persistence_test_message) = Ok response ->
  plain response ->
  response_content response = Ok content ->
  (0 < RedisCache.default_ttl cache)%Z ->
  let times := map (fun i => took E (length (log w) + i)) [1; 3; 4; 5; 6] in
  let hits := [false; true; true; true; true] in
  exists sp,
    persistence_speedup times = Ok sp
    /\ run_cache_persistence_test E cache cfg w
       = (Ok {| test := py "Cache Persistence";
                first_time := took E (length (log w) + 1);
                second_time := avg_cached_time times;
                first_cache := MISS;
                second_cache := HitRate (hit_rate hits);
                speedup := sp |},
          {| store := <[request_key cfg persistence_test_message
                        := (dumps false response,
                            (clock w + RedisCache.default_ttl cache)%Z)]> (store w);
             clock := clock w;
             log := log w ++ [EvGet (request_key cfg persistence_test_message);
                              EvChat (request_of cfg persistence_test_message);
                              EvSetex (request_key cfg persistence_test_message)
                                (RedisCache.default_ttl cache) (dumps false response)]
                          ++ replicate 4 (EvGet (request_key cfg persistence_test_message)) |}).
Proof.
  intros Hfresh Hok Hllm Hplain Hcontent Httl times hits.
  unfold run_cache_persistence_test. fold persistence_test_message.
  cbn zeta. unfold mbind at 1, M_bind at 1. rewrite repeat_requests_S.
  unfold mbind at 1, M_bind at 1.
  rewrite (request_miss E cache cfg persistence_test_message w response content);
    [|by rewrite read_value_absent | done | done].
  rewrite written_after_miss by (done || (apply Hok; lia)).
  rewrite (repeat_hits E cache cfg persistence_test_message response content 4); try done.
  - cbn [log store clock]. rewrite length_app. cbn [length app seq map replicate].
    replace (length (log w) + 3 + 0) with (length (log w) + 3) by lia.
    replace (length (log w) + 3 + 1) with (length (log w) + 4) by lia.
    replace (length (log w) + 3 + 2) with (length (log w) + 5) by lia.
    replace (length (log w) + 3 + 3) with (length (log w) + 6) by lia.
    unfold mbind, M_bind, lift. cbn [mret M_ret persistence_speedup].
    eexists. split; [reflexivity|]. by rewrite <-app_assoc.
  - intros i Hi. cbn [log]. rewrite length_app. cbn [length].
    replace (length (log w) + 3 + i) with (length (log w) + (3 + i)) by lia. apply Hok. lia.
  - unfold Redis.live. cbn [store clock]. rewrite lookup_insert_eq.
    by destruct (Z.ltb_spec (clock w) (clock w + RedisCache.default_ttl cache)); [|lia].
Qed.

(** X14. The persistence test, run while the store holds no live entry
    for its message, calls the gateway once: the first of its five requests
    misses, the four others hit, and the hit rate it reports is 80. *)
Theorem persistence_test_hit_rate E cache cfg w response content :
  Redis.live w (request_key cfg persistence_test_message) = None ->
  (forall i, 2 <= i < 7 -> fails E (length (log w) + i) = false) ->
  llm E (length (log w) + 1) (request_of cfg persistence_test_message) = Ok response ->
  plain response ->
  response_content response = Ok content ->
  (0 < RedisCache.default_ttl cache)%Z ->
  let times := map (fun i => took E (length (log w) + i)) [1; 3; 4; 5; 6] in
  let hits := [false; true; true; true; true] in
  exists sp w2,
    run_cache_persistence_test E cache cfg w
    = (Ok {| test := py "Cache Persistence";
             first_time := took E (length (log w) + 1);
             second_time := avg_cached_time times;
             first_cache := MISS;
             second_cache := HitRate (hit_rate hits);
             speedup := sp |}, w2)
    /\ persistence_speedup times = Ok sp
    /\ (hit_rate hits == 80)%Q
    /\ log w2
       = log w ++ [EvGet (request_key cfg persistence_test_message);
                   EvChat (request_of cfg persistence_test_message);
                   EvSetex (request_key cfg persistence_test_message)
                     (RedisCache.default_ttl cache) (dumps false response)]
               ++ replicate 4 (EvGet (request_key cfg persistence_test_message)).
Proof.
  intros Hfresh Hok Hllm Hplain Hcontent Httl times hits.
  destruct (persistence_test_eq E cache cfg w response content) as (sp & Hsp & Hrun);
    try done.
  exists sp. eexists. split_and!; [exact Hrun | exact Hsp | by vm_compute | done].
Qed.

Lemma persistence_test_hit_rate_witness :
  let times := map (fun i => took sample_env (length (log empty_world) + i)) [1; 3; 4; 5; 6] in
  let hits := [false; true; true; true; true] in
  exists sp w2,
    run_cache_persistence_test sample_env sample_cache sample_config empty_world
    = (Ok {| test := py "Cache Persistence";
             first_time := took sample_env (length (log empty_world) + 1);
             second_time := avg_cached_time times;
             first_cache := MISS;
             second_cache := HitRate (hit_rate hits);
             speedup := sp |}, w2)
    /\ persistence_speedup times = Ok sp
    /\ (hit_rate hits == 80)%Q
    /\ log w2
       = log empty_world
         ++ [EvGet (request_key sample_config persistence_test_message);
             EvChat (request_of sample_config persistence_test_message);
             EvSetex (request_key sample_config persistence_test_message)
               (RedisCache.default_ttl sample_cache) (dumps false sample_response)]
         ++ replicate 4 (EvGet (request_key sample_config persistence_test_message)).
Proof.
  apply (persistence_test_hit_rate sample_env sample_cache sample_config empty_world
           sample_response (py "Paris.")); reflexivity.
Defined.

(** X15. The persistence test reports the first request as a miss without
    looking at it: run while the store holds a live answer for its message,
    all five requests hit, the gateway is not called and the hit rate is
    100, and the first request is still listed as a miss. *)
Theorem persistence_test_first_cache_fixed E cache cfg w response content :
  Redis.live w (request_key cfg persistence_test_message) = Some (dumps false response) ->
  (forall i, i < 5 -> fails E (length (log w) + i) = false) ->
  plain response ->
  response_content response = Ok content ->
  let times := map (fun i => took E (length (log w) + i)) [0; 1; 2; 3; 4] in
  let hits := [true; true; true; true; true] in
  exists sp w2,
    run_cache_persistence_test E cache cfg w
    = (Ok {| test := py "Cache Persistence";
             first_time := took E (length (log w) + 0);
             second_time := avg_cached_time times;
             first_cache := MISS;
             second_cache := HitRate (hit_rate hits);
             speedup := sp |}, w2)
    /\ (hit_rate hits == 100)%Q
    /\ log w2 = log w ++ replicate 5 (EvGet (request_key cfg persistence_test_message)).
Proof.
  intros Hlive Hok Hplain Hcontent times hits.
  unfold run_cache_persistence_test. fold persistence_test_message.
  cbn zeta. unfold mbind at 1, M_bind at 1.
  rewrite (repeat_hits E cache cfg persistence_test_message response content 5); try done.
  cbn [app seq map]. unfold mbind, M_bind, lift. cbn [mret M_ret persistence_speedup].
  eexists _, _. split_and!; [reflexivity | by vm_compute | done].
Qed.

Lemma persistence_test_first_cache_fixed_witness :
  let times := map (fun i => took sample_env (length (log warm_world) + i)) [0; 1; 2; 3; 4] in
  let hits := [true; true; true; true; true] in
  exists sp w2,
    run_cache_persistence_test sample_env sample_cache sample_config warm_world
    = (Ok {| test := py "Cache Persistence";
             first_time := took sample_env (length (log warm_world) + 0);
             second_time := avg_cached_time times;
             first_cache := MISS;
             second_cache := HitRate (hit_rate hits);
             speedup := sp |}, w2)
    /\ (hit_rate hits == 100)%Q
    /\ log w2
       = log warm_world
         ++ replicate 5 (EvGet (request_key sample_config persistence_test_message)).
Proof.
  apply (persistence_test_first_cache_fixed sample_env sample_cache sample_config warm_world
           sample_response (py "Paris.")); [| reflexivity..].
  unfold Redis.live, warm_world. cbn [store clock].
  rewrite lookup_singleton_eq. reflexivity.
Defined.

(** ** The gateway URL *)

Lemma rstrip_chars_last chars s c :
  last (rstrip_chars chars s) = Some c -> c ∉ chars.
Proof.
  induction s as [|x s IH]; [done|]. cbn [rstrip_chars].
  destruct (rstrip_chars chars s) as [|y r'] eqn:Hr.
  - case_bool_decide; [done|]. by intros [= <-].
  - intros H. by apply IH.
Qed.

Lemma rstrip_chars_fixed chars s :
  (forall c, last s = Some c -> c ∉ chars) -> rstrip_chars chars s = s.
Proof.
  induction s as [|x s IH]; [done|]. intros H. cbn [rstrip_chars].
  destruct s as [|y s].
  - cbn [rstrip_chars]. rewrite bool_decide_false; [done|]. by apply H.
  - rewrite IH; [done|]. intros c Hc. apply H. rewrite last_cons. by rewrite Hc.
Qed.

Lemma endswith_suffix s suffix : endswith s suffix = true <-> suffix `suffix_of` s.
Proof.
  unfold endswith. rewrite andb_true_iff, Nat.leb_le, bool_decide_eq_true. split.
  - intros [_ H]. exists (take (length s - length suffix) s).
    rewrite <-(take_drop (length s - length suffix) s) at 1. by rewrite H.
  - intros [k ->]. rewrite length_app. split; [lia|].
    replace (length k + length suffix - length suffix) with (length k) by lia.
    by rewrite drop_app_length.
Qed.

Lemma endswith_app s suffix : endswith (s ++ suffix) suffix = true.
Proof. apply endswith_suffix. by exists s. Qed.

Lemma endswith_last s suffix c :
  endswith s suffix = true -> last suffix = Some c -> last s = Some c.
Proof. intros H%endswith_suffix. by apply last_suffix. Qed.

(** X17. Whatever [PORTKEY_GATEWAY_URL] holds, and when it is not set,
    the API URL ends with [/v1]; it is the given URL without its trailing
    slashes, with [/v1] added only when that does not end with it; and an
    API URL given as the gateway URL comes back unchanged. *)
Theorem gateway_api_url_ends_with_v1 (vars : environ) :
  endswith (GATEWAY_API_URL vars) (py "/v1") = true
  /\ (GATEWAY_API_URL vars = rstrip_chars (py "/") (GATEWAY_URL vars)
      \/ (endswith (rstrip_chars (py "/") (GATEWAY_URL vars)) (py "/v1") = false
          /\ GATEWAY_API_URL vars = rstrip_chars (py "/") (GATEWAY_URL vars) ++ py "/v1"))
  /\ GATEWAY_API_URL (<[py "PORTKEY_GATEWAY_URL" := GATEWAY_API_URL vars]> vars)
     = GATEWAY_API_URL vars.
Proof.
  assert (endswith (GATEWAY_API_URL vars) (py "/v1") = true) as Hend.
  { unfold GATEWAY_API_URL.
    destruct (endswith (GATEWAY_BASE_URL vars) (py "/v1")) eqn:He; [exact He|].
    apply endswith_app. }
  split_and!; [done | |].
  - unfold GATEWAY_API_URL, GATEWAY_BASE_URL.
    destruct (endswith (rstrip_chars (py "/") (GATEWAY_URL vars)) (py "/v1")) eqn:He;
      [left; reflexivity | right; split; reflexivity].
  - set (url := GATEWAY_API_URL vars) in *.
    unfold GATEWAY_API_URL at 1, GATEWAY_BASE_URL, GATEWAY_URL, environ_get.
    rewrite lookup_insert_eq.
    rewrite rstrip_chars_fixed.
    + by rewrite Hend.
    + intros c Hc. rewrite (endswith_last url (py "/v1") 49%N Hend eq_refl) in Hc.
      injection Hc as <-. by intros [=]%list_elem_of_singleton.
Qed.

(** ** The scenarios in the order [main] runs them *)

Lemma clear_live E self pattern w :
  (forall n, length (log w) <= n -> fails E n = false) ->
  exists count w',
    RedisCache.clear E self pattern w = Some (Ok count, w')
    /\ clock w' = clock w
    /\ forall k, Redis.glob pattern k = true -> Redis.live w' k = None.
Proof.
  intros Hok.
  destruct (clear_loop_spec E pattern (S (Pos.to_nat (nbuckets E))) 0%N 0%Z w Hok)
    as (w' & Hclear & Hs & Hc); [lia | lia |].
  eexists _, w'. split_and!; [exact Hclear | done |].
  intros k Hg. rewrite (live_after_delete w w' _ k Hs Hc).
  case_decide as Hk; [done|]. rewrite elem_of_scan_keys in Hk.
  destruct (Redis.live w k) eqn:Hl; [|done]. destruct Hk.
  pose proof (bucket_lt E k). split_and!; [by eauto | lia | lia | done].
Qed.

Lemma baseline_ok E cache cfg w r1 c1 r2 c2 :
  llm E (length (log w)) (request_of cfg baseline_message1) = Ok r1 ->
  response_content r1 = Ok c1 ->
  llm E (length (log w) + 1) (request_of cfg baseline_message2) = Ok r2 ->
  response_content r2 = Ok c2 ->
  run_no_cache_baseline E cache cfg w
  = (Ok {| test := py "No Cache (Baseline)";
           first_time := took E (length (log w));
           second_time := took E (length (log w) + 1);
           first_cache := NotApplicable; second_cache := NotApplicable;
           speedup := Finite 1 |},
     {| store := store w; clock := clock w;
        log := log w ++ [EvChat (request_of cfg baseline_message1);
                         EvChat (request_of cfg baseline_message2)] |}).
Proof.
  intros H1 Hc1 H2 Hc2. rewrite baseline_eq. unfold upstream_outcome.
  rewrite H1, Hc1, length_log_record, H2, Hc2. unfold record. cbn [store clock log].
  by rewrite <-app_assoc.
Qed.

Lemma request_key_prefix cfg message : py "llm_cache:" `prefix_of` request_key cfg message.
Proof. unfold request_key. eexists. reflexivity. Qed.

Lemma get_provider_config_cases provider_name :
  config_entries (get_provider_config provider_name) = Ok sample_config
  \/ config_entries (get_provider_config provider_name) = Ok llama_fp8_config.
Proof.
  unfold get_provider_config. cbn [dict_get].
  destruct (decide (py "ollama" = provider_name)); [by left|].
  destruct (decide (py "llama-fp8" = provider_name)); [by right | by left].
Qed.

(** The two cache tests of a run use different keys. *)
Lemma scenario_keys_distinct cfg :
  cfg = sample_config \/ cfg = llama_fp8_config ->
  request_key cfg persistence_test_message <> request_key cfg simple_test_message.
Proof.
  intros [->| ->]; apply (bool_decide_eq_false_1 _); by vm_compute.
Qed.



(** ** The fallback configuration *)

Lemma dict_get_set_eq k v (d : pydict) : dict_get k (dict_set k v d) = Some v.
Proof.
  induction d as [|[k' v'] d IH]; cbn [dict_set dict_get].
  - by rewrite decide_True.
  - destruct (decide (k' = k)) as [->|Hk]; cbn [dict_get].
    + by rewrite decide_True.
    + by rewrite decide_False.
Qed.

Lemma dict_get_set_ne k k0 v (d : pydict) :
  k0 <> k -> dict_get k0 (dict_set k v d) = dict_get k0 d.
Proof.
  intros Hne. induction d as [|[k' v'] d IH]; cbn [dict_set dict_get].
  - by rewrite decide_False by done.
  - destruct (decide (k' = k)) as [->|Hk]; cbn [dict_get].
    + by rewrite !decide_False by done.
    + by rewrite IH.
Qed.

Lemma dict_set_set k v (d : pydict) : dict_set k v (dict_set k v d) = dict_set k v d.
Proof.
  induction d as [|[k' v'] d IH]; cbn [dict_set].
  - by rewrite decide_True.
  - destruct (decide (k' = k)) as [->|Hk]; cbn [dict_set].
    + by rewrite decide_True.
    + by rewrite decide_False, IH.
Qed.

Lemma fallback_target_provider provider_name :
  exists t, fallback_target (get_provider_config provider_name) = Ok t.
Proof.
  unfold get_provider_config. cbn [dict_get].
  destruct (decide (py "ollama" = provider_name)); [by eexists|].
  destruct (decide (py "llama-fp8" = provider_name)); by eexists.
Qed.

(** X18. [create_fallback_config] returns a configuration for any two of
    the provider configurations of the module; an empty list of status
    codes is left out like [None]; a configuration it returns has the
    mode ["fallback"], two targets, the primary first, and the status codes
    only when they were given and not empty; and a primary configuration
    without a provider raises [KeyError] for that entry, whatever the
    fallback is. *)
Theorem create_fallback_config_strategy :
  (forall name1 name2 codes,
     exists config,
       create_fallback_config (get_provider_config name1) (get_provider_config name2) codes
       = Ok config)
  /\ (forall primary fallback,
        create_fallback_config primary fallback (PList [])
        = create_fallback_config primary fallback PNone)
  /\ (forall primary fallback codes config,
        create_fallback_config primary fallback codes = Ok config ->
        exists strategy t1 t2,
          config = PDict [(py "strategy", PDict strategy); (py "targets", PList [t1; t2])]
          /\ fallback_target primary = Ok t1
          /\ fallback_target fallback = Ok t2
          /\ dict_get (py "mode") strategy = Some (PStr (py "fallback"))
          /\ dict_get (py "on_status_codes") strategy
             = if is_truthy codes then Some codes else None)
  /\ (forall d fallback codes,
        dict_get (py "provider") d = None ->
        create_fallback_config (PDict d) fallback codes
        = Raise (KeyError (PStr (py "provider")))).
Proof.
  split_and!.
  - intros name1 name2 codes. unfold create_fallback_config.
    destruct (fallback_target_provider name1) as [t1 ->].
    destruct (fallback_target_provider name2) as [t2 ->]. by eexists.
  - done.
  - intros primary fallback codes config. unfold create_fallback_config.
    destruct (fallback_target primary) as [t1|]; [|done].
    destruct (fallback_target fallback) as [t2|]; [|done].
    cbn [rbind]. intros [= <-]. eexists _, t1, t2. split_and!; [done | done | done | |].
    + by destruct (is_truthy codes).
    + by destruct (is_truthy codes).
  - intros d fallback codes Hd. unfold create_fallback_config, fallback_target.
    cbn [getitem_str]. by rewrite Hd.
Qed.

(** X19. [create_invalid_provider_config] returns, for any dict, a dict
    whose host is the invalid endpoint and whose other entries are those of
    the dict given; applied to its own result it changes nothing; and for
    the Ollama configuration it returns the module's
    [INVALID_OLLAMA_CONFIG]. *)
Theorem create_invalid_provider_config_spec :
  (forall d, exists d',
     create_invalid_provider_config (PDict d) = Ok (PDict d')
     /\ dict_get (py "custom_host") d' = Some (PStr (py "http://invalid-endpoint:9999"))
     /\ (forall k, k <> py "custom_host" -> dict_get k d' = dict_get k d)
     /\ create_invalid_provider_config (PDict d') = Ok (PDict d'))
  /\ create_invalid_provider_config OLLAMA_CONFIG = Ok INVALID_OLLAMA_CONFIG.
Proof.
  split; [|done]. intros d. eexists. split_and!; [done | | |].
  - apply dict_get_set_eq.
  - intros k Hk. by apply dict_get_set_ne.
  - cbn [create_invalid_provider_config]. by rewrite dict_set_set.
Qed.

(** ** The metrics of the fallback demo *)

Lemma fallback_metrics_invariant {F} `{FloatOps F} (calls : list (fallback_call F)) :
  forall m,
    (FallbackMetrics.total_requests m
     = FallbackMetrics.successful_requests m + FallbackMetrics.failed_requests m)%Z ->
    (0 <= FallbackMetrics.fallback_triggered m <= FallbackMetrics.successful_requests m)%Z ->
    (0 <= FallbackMetrics.failed_requests m)%Z ->
    let m' := fold_left fallback_step calls m in
    (FallbackMetrics.total_requests m'
     = FallbackMetrics.successful_requests m' + FallbackMetrics.failed_requests m')%Z
    /\ (0 <= FallbackMetrics.fallback_triggered m' <= FallbackMetrics.successful_requests m')%Z
    /\ (0 <= FallbackMetrics.failed_requests m')%Z
    /\ (FallbackMetrics.total_requests m'
        = FallbackMetrics.total_requests m + Z.of_nat (length calls))%Z.
Proof.
  induction calls as [|c calls IH]; intros m H1 H2 H3; cbn [fold_left length].
  { cbn zeta. lia. }
  destruct (IH (fallback_step m c)) as (I1 & I2 & I3 & I4).
  - destruct c as [l [|]|l]; cbn [fallback_step FallbackMetrics.record_success
      FallbackMetrics.record_failure FallbackMetrics.total_requests
      FallbackMetrics.successful_requests FallbackMetrics.failed_requests]; lia.
  - destruct c as [l [|]|l]; cbn [fallback_step FallbackMetrics.record_success
      FallbackMetrics.record_failure FallbackMetrics.fallback_triggered
      FallbackMetrics.successful_requests]; lia.
  - destruct c as [l [|]|l]; cbn [fallback_step FallbackMetrics.record_success
      FallbackMetrics.record_failure FallbackMetrics.failed_requests]; lia.
  - cbn zeta in *.
    assert (FallbackMetrics.total_requests (fallback_step m c)
            = FallbackMetrics.total_requests m + 1)%Z as Hs
      by (by destruct c as [l [|]|l]).
    lia.
Qed.

(** X22. Whatever calls of [record_success] and [record_failure] are made
    on a new [FallbackMetrics], and whatever the arithmetic of the
    latencies: the total is the number of calls and the sum of the
    successes and the failures, and the fallbacks counted are among the
    successes. *)
Theorem fallback_metrics_counts {F} `{FloatOps F} (calls : list (fallback_call F)) :
  let m := fallback_metrics_after calls in
  (FallbackMetrics.total_requests m = Z.of_nat (length calls))%Z
  /\ (FallbackMetrics.total_requests m
      = FallbackMetrics.successful_requests m + FallbackMetrics.failed_requests m)%Z
  /\ (0 <= FallbackMetrics.fallback_triggered m <= FallbackMetrics.successful_requests m)%Z
  /\ (0 <= FallbackMetrics.failed_requests m)%Z.
Proof.
  destruct (fallback_metrics_invariant calls FallbackMetrics.init) as (I1 & I2 & I3 & I4);
    [done | done | done |].
  cbn zeta in *. unfold fallback_metrics_after.
  change (FallbackMetrics.total_requests FallbackMetrics.init) with 0%Z in I4. lia.
Qed.

(** ** The metrics of the load balancing demo *)

Lemma counter_total_incr (d : gmap pystr Z) key :
  counter_total (<[key := (LoadBalanceMetrics.count d key + 1)%Z]> d)
  = (counter_total d + 1)%Z.
Proof.
  unfold counter_total, LoadBalanceMetrics.count.
  assert (forall (m : gmap pystr Z) (j1 j2 : pystr) (z1 z2 y : Z),
            (z1 + (z2 + y) = z2 + (z1 + y))%Z) as Hcomm by (intros; lia).
  destruct (d !! key) as [n|] eqn:Hk.
  - rewrite <-insert_delete_eq.
    rewrite map_fold_insert_L; [|by intros; apply (Hcomm d) | apply lookup_delete_eq].
    rewrite (map_fold_delete_L _ _ key n d); [lia | by intros; apply (Hcomm d) | done].
  - rewrite map_fold_insert_L; [lia | by intros; apply (Hcomm d) | done].
Qed.

Lemma loadbalance_metrics_invariant {F} `{FloatOps F} (calls : list (loadbalance_call F)) :
  forall m,
    (LoadBalanceMetrics.total_requests m
     = LoadBalanceMetrics.successful_requests m + LoadBalanceMetrics.failed_requests m)%Z ->
    (LoadBalanceMetrics.successful_requests m
     = Z.of_nat (length (LoadBalanceMetrics.latencies m)))%Z ->
    (counter_total (LoadBalanceMetrics.provider_distribution m)
     = LoadBalanceMetrics.successful_requests m)%Z ->
    (0 <= LoadBalanceMetrics.failed_requests m)%Z ->
    let m' := fold_left loadbalance_step calls m in
    (LoadBalanceMetrics.total_requests m'
     = LoadBalanceMetrics.successful_requests m' + LoadBalanceMetrics.failed_requests m')%Z
    /\ (LoadBalanceMetrics.successful_requests m'
        = Z.of_nat (length (LoadBalanceMetrics.latencies m')))%Z
    /\ (counter_total (LoadBalanceMetrics.provider_distribution m')
        = LoadBalanceMetrics.successful_requests m')%Z
    /\ (0 <= LoadBalanceMetrics.failed_requests m')%Z
    /\ (LoadBalanceMetrics.total_requests m'
        = LoadBalanceMetrics.total_requests m + Z.of_nat (length calls))%Z.
Proof.
  induction calls as [|c calls IH]; intros m H1 H2 H3 H4; cbn [fold_left length].
  { cbn zeta. lia. }
  destruct (IH (loadbalance_step m c)) as (I1 & I2 & I3 & I4 & I5).
  - destruct c as [l p|l]; cbn [loadbalance_step LoadBalanceMetrics.record_success
      LoadBalanceMetrics.record_failure LoadBalanceMetrics.total_requests
      LoadBalanceMetrics.successful_requests LoadBalanceMetrics.failed_requests]; lia.
  - destruct c as [l p|l]; cbn [loadbalance_step LoadBalanceMetrics.record_success
      LoadBalanceMetrics.record_failure LoadBalanceMetrics.latencies
      LoadBalanceMetrics.successful_requests]; [|done].
    rewrite length_app. cbn [length]. lia.
  - destruct c as [l p|l]; cbn [loadbalance_step LoadBalanceMetrics.record_success
      LoadBalanceMetrics.record_failure LoadBalanceMetrics.provider_distribution
      LoadBalanceMetrics.successful_requests]; [|done].
    rewrite counter_total_incr. lia.
  - destruct c as [l p|l]; cbn [loadbalance_step LoadBalanceMetrics.record_success
      LoadBalanceMetrics.record_failure LoadBalanceMetrics.failed_requests]; lia.
  - cbn zeta in *.
    assert (LoadBalanceMetrics.total_requests (loadbalance_step m c)
            = LoadBalanceMetrics.total_requests m + 1)%Z as Hs
      by (by destruct c as [l p|l]).
    lia.
Qed.

(** X23. Whatever calls of [record_success] and [record_failure] are made
    on a new [LoadBalanceMetrics], and whatever the arithmetic of the
    latencies: the summary reports as total the number of calls, which is
    the sum of the successes and the failures; one latency is kept for each
    success; and the counts of the providers add up to the successes.  The
    summary of an object no call was made on holds 0 for the rates and the
    latencies: nothing is divided by the total 0. *)
Theorem loadbalance_metrics_counts {F} `{FloatOps F} (calls : list (loadbalance_call F)) :
  let m := loadbalance_metrics_after calls in
  let s := LoadBalanceMetrics.get_summary m in
  (LoadBalanceMetrics.s_total_requests s = Z.of_nat (length calls))%Z
  /\ (LoadBalanceMetrics.s_total_requests s
      = LoadBalanceMetrics.s_successful s + LoadBalanceMetrics.s_failed s)%Z
  /\ (LoadBalanceMetrics.s_successful s
      = Z.of_nat (length (LoadBalanceMetrics.latencies m)))%Z
  /\ (counter_total (LoadBalanceMetrics.s_distribution s)
      = LoadBalanceMetrics.s_successful s)%Z
  /\ (0 <= LoadBalanceMetrics.s_failed s)%Z
  /\ (calls = [] ->
      LoadBalanceMetrics.s_success_rate s = IntNum 0
      /\ LoadBalanceMetrics.s_avg_latency s = IntNum 0
      /\ LoadBalanceMetrics.s_min_latency s = IntNum 0
      /\ LoadBalanceMetrics.s_max_latency s = IntNum 0).
Proof.
  destruct (loadbalance_metrics_invariant calls LoadBalanceMetrics.init)
    as (I1 & I2 & I3 & I4 & I5); [done | done | done | done |].
  cbn zeta. unfold loadbalance_metrics_after.
  cbn [LoadBalanceMetrics.get_summary LoadBalanceMetrics.s_total_requests
       LoadBalanceMetrics.s_successful LoadBalanceMetrics.s_failed
       LoadBalanceMetrics.s_distribution LoadBalanceMetrics.s_success_rate
       LoadBalanceMetrics.s_avg_latency LoadBalanceMetrics.s_min_latency
       LoadBalanceMetrics.s_max_latency].
  cbn zeta in *.
  change (LoadBalanceMetrics.total_requests LoadBalanceMetrics.init) with 0%Z in I5.
  split_and!; try lia. by intros ->.
Qed.

(** ** The load balancing configuration *)

Section loadbalance_properties.
Context {F : Type} `{FloatOps F}.

Lemma normalize_zero total (weights : list F) :
  is_zero total = true -> weights <> [] -> normalize total weights = inl ZeroDivisionError.
Proof.
  intros Hz Hne. destruct weights as [|x weights]; [done|].
  cbn [normalize]. unfold float_div. by rewrite Hz.
Qed.

Lemma normalize_ok total (weights : list F) :
  is_zero total = false -> normalize total weights = inr (map (fun x => fdiv x total) weights).
Proof.
  intros Hz. induction weights as [|x weights IH]; [done|].
  cbn [normalize map]. unfold float_div. by rewrite Hz, IH.
Qed.

Lemma target_config_weight target (weight : F) t :
  target_config target weight = inr t ->
  lb_weight t = weight
  /\ getitem_str target (py "provider") = Ok (lb_provider t)
  /\ getitem_str target (py "custom_host") = Ok (lb_custom_host t)
  /\ getitem_str target (py "model") = Ok (lb_model t).
Proof.
  unfold target_config.
  destruct (getitem_str target (py "provider")); [|done].
  destruct (getitem_str target (py "custom_host")); [|done].
  destruct (getitem_str target (py "model")); [|done].
  by intros [= <-].
Qed.

(** The loop over the targets and their weights: one target is appended
    for each pair, in order. *)
Lemma append_targets_spec (targets : list pyval) : forall (weights : list F) acc ts,
  length targets = length weights ->
  append_targets (zip targets weights) acc = inr ts ->
  exists new,
    ts = acc ++ new
    /\ Forall2 (fun target t =>
                  getitem_str target (py "provider") = Ok (lb_provider t)
                  /\ getitem_str target (py "custom_host") = Ok (lb_custom_host t)
                  /\ getitem_str target (py "model") = Ok (lb_model t)) targets new
    /\ Forall2 (fun w t => lb_weight t = w) weights new.
Proof.
  induction targets as [|target targets IH]; intros [|w weights] acc ts Hlen; try done.
  - cbn [zip zip_with append_targets]. intros [= <-]. exists []. by rewrite app_nil_r.
  - cbn [zip zip_with append_targets].
    destruct (target_config target w) as [e|tc] eqn:Ht; [done|].
    intros (new & -> & Hnew & Hw)%IH; [|by injection Hlen].
    apply target_config_weight in Ht as (? & ? & ? & ?).
    exists (tc :: new). rewrite <-app_assoc. split_and!; [done | by constructor | by constructor].
Qed.

Lemma create_loadbalance_config_given (targets : list pyval) (weights : list F) config :
  create_loadbalance_config targets (Some weights) = inr config ->
  length targets = length weights
  /\ (weights <> [] -> is_zero (fsum weights) = false)
  /\ lb_mode config = py "loadbalance"
  /\ Forall2 (fun target t =>
                getitem_str target (py "provider") = Ok (lb_provider t)
                /\ getitem_str target (py "custom_host") = Ok (lb_custom_host t)
                /\ getitem_str target (py "model") = Ok (lb_model t))
       targets (lb_targets config)
  /\ Forall2 (fun w t => lb_weight t = fdiv w (fsum weights)) weights (lb_targets config).
Proof.
  unfold create_loadbalance_config.
  destruct (Nat.eqb_spec (length targets) (length weights)) as [Hlen|]; [|done]. cbn [negb].
  destruct weights as [|w0 weights].
  { destruct targets; [|done]. cbn [normalize zip zip_with append_targets].
    intros [= <-]. split_and!; try done; constructor. }
  destruct (is_zero (fsum (w0 :: weights))) eqn:Hz.
  { by rewrite normalize_zero. }
  rewrite normalize_ok by done.
  destruct (append_targets _ []) as [e|ts] eqn:Hts; [done|]. intros [= <-].
  apply append_targets_spec in Hts as (new & -> & Hnew & Hw);
    [|by rewrite length_map].
  cbn [app lb_mode lb_targets]. split_and!; [done | done | done | done |].
  by apply Forall2_fmap_l in Hw.
Qed.

(** X20. The errors of [create_loadbalance_config]: weights that are not
    as many as the targets are refused with [ValueError], before any target
    is read; a round-robin configuration of no target at all divides by
    zero, while weighted with no weight it is an empty configuration; and
    weights whose sum is zero divide by zero. *)
Theorem create_loadbalance_config_errors :
  (forall targets (weights : list F),
     length targets <> length weights ->
     create_weighted_config targets weights
     = inl (ValueError (py "Number of targets must match number of weights")))
  /\ create_round_robin_config (F := F) [] = inl ZeroDivisionError
  /\ create_weighted_config (F := F) [] []
     = inr {| lb_mode := py "loadbalance"; lb_targets := [] |}
  /\ (forall targets (weights : list F),
        length targets = length weights ->
        weights <> [] ->
        is_zero (fsum weights) = true ->
        create_weighted_config targets weights = inl ZeroDivisionError).
Proof.
  split_and!.
  - intros targets weights Hlen.
    unfold create_weighted_config, create_loadbalance_config.
    by destruct (Nat.eqb_spec (length targets) (length weights)).
  - done.
  - done.
  - intros targets weights Hlen Hne Hz.
    unfold create_weighted_config, create_loadbalance_config.
    destruct (Nat.eqb_spec (length targets) (length weights)); [|done]. cbn [negb].
    by rewrite normalize_zero.
Qed.

(** X21. A configuration [create_round_robin_config] returns has one
    target for each provider given, in the order given, each with the
    provider, the host and the model of its provider, and all with the same
    weight. *)
Theorem round_robin_equal_weights (targets : list pyval) (config : lb_config F) :
  create_round_robin_config targets = inr config ->
  lb_mode config = py "loadbalance"
  /\ length (lb_targets config) = length targets
  /\ Forall2 (fun target t =>
                getitem_str target (py "provider") = Ok (lb_provider t)
                /\ getitem_str target (py "custom_host") = Ok (lb_custom_host t)
                /\ getitem_str target (py "model") = Ok (lb_model t))
       targets (lb_targets config)
  /\ exists weight, Forall (fun t => lb_weight t = weight) (lb_targets config).
Proof.
  unfold create_round_robin_config. intros Hrun.
  assert (exists value,
            create_loadbalance_config targets (Some (replicate (length targets) value))
            = inr config) as [value Hgiven].
  { unfold create_loadbalance_config in Hrun |- *.
    destruct (Nat.eqb_spec (length targets) 0); [done|]. eauto. }
  apply create_loadbalance_config_given in Hgiven as (_ & _ & Hmode & Htargets & Hweights).
  split_and!; [done | symmetry; by eapply Forall2_length | done |].
  exists (fdiv value (fsum (replicate (length targets) value))).
  apply Forall_forall. intros t Ht. apply list_elem_of_lookup in Ht as [i Ht].
  destruct (Forall2_lookup_r _ _ _ _ _ Hweights Ht) as (w & Hw & ->).
  by apply lookup_replicate in Hw as [-> _].
Qed.

(** X27. A configuration [create_weighted_config] returns has one target
    for each provider given, in the order given; the weight of each is the
    weight given for it divided by the sum of the weights, and that sum is
    not zero when there is a weight at all. *)
Theorem weighted_config_targets (targets : list pyval) (weights : list F)
    (config : lb_config F) :
  create_weighted_config targets weights = inr config ->
  length targets = length weights
  /\ length (lb_targets config) = length targets
  /\ (weights <> [] -> is_zero (fsum weights) = false)
  /\ Forall2 (fun target t =>
                getitem_str target (py "provider") = Ok (lb_provider t)
                /\ getitem_str target (py "custom_host") = Ok (lb_custom_host t)
                /\ getitem_str target (py "model") = Ok (lb_model t))
       targets (lb_targets config)
  /\ Forall2 (fun w t => lb_weight t = fdiv w (fsum weights)) weights (lb_targets config).
Proof.
  unfold create_weighted_config.
  intros (Hlen & Hz & _ & Htargets & Hweights)%create_loadbalance_config_given.
  split_and!; [done | symmetry; by eapply Forall2_length | done | done | done].
Qed.

End loadbalance_properties.

Lemma weighted_config_targets_witness :
  exists config : lb_config Q,
    create_weighted_config [OLLAMA_CONFIG; LLAMA_FP8_CONFIG] [1 # 4; 3 # 4]%Q = inr config
    /\ length [OLLAMA_CONFIG; LLAMA_FP8_CONFIG] = length [1 # 4; 3 # 4]%Q
    /\ length (lb_targets config) = length [OLLAMA_CONFIG; LLAMA_FP8_CONFIG]
    /\ ([1 # 4; 3 # 4]%Q <> [] -> is_zero (fsum [1 # 4; 3 # 4]%Q) = false)
    /\ Forall2 (fun target t =>
                  getitem_str target (py "provider") = Ok (lb_provider t)
                  /\ getitem_str target (py "custom_host") = Ok (lb_custom_host t)
                  /\ getitem_str target (py "model") = Ok (lb_model t))
         [OLLAMA_CONFIG; LLAMA_FP8_CONFIG] (lb_targets config)
    /\ Forall2 (fun w t => lb_weight t = fdiv w (fsum [1 # 4; 3 # 4]%Q))
         [1 # 4; 3 # 4]%Q (lb_targets config).
Proof.
  eexists. split; [reflexivity|].
  apply (weighted_config_targets (F := Q) [OLLAMA_CONFIG; LLAMA_FP8_CONFIG] [1 # 4; 3 # 4]%Q).
  reflexivity.
Defined.

Lemma round_robin_equal_weights_witness :
  exists config : lb_config Q,
    create_round_robin_config [OLLAMA_CONFIG; LLAMA_FP8_CONFIG] = inr config
    /\ lb_mode config = py "loadbalance"
    /\ length (lb_targets config) = length [OLLAMA_CONFIG; LLAMA_FP8_CONFIG]
    /\ Forall2 (fun target t =>
                  getitem_str target (py "provider") = Ok (lb_provider t)
                  /\ getitem_str target (py "custom_host") = Ok (lb_custom_host t)
                  /\ getitem_str target (py "model") = Ok (lb_model t))
         [OLLAMA_CONFIG; LLAMA_FP8_CONFIG] (lb_targets config)
    /\ exists weight, Forall (fun t => lb_weight t = weight) (lb_targets config).
Proof.
  eexists. split; [reflexivity|].
  apply (round_robin_equal_weights (F := Q) [OLLAMA_CONFIG; LLAMA_FP8_CONFIG]).
  reflexivity.
Defined.

(** ** A request without fallback *)

(** X24. [make_request_without_fallback] never raises: it sends the
    request [make_cached_chat_request] sends without the cache, and returns
    its text and its time with the flag [True] and no error when that
    returns, and no text, the flag [False] and the message of the exception
    when that raises. *)
Theorem request_without_fallback_never_raises E exn_str cache cfg message w :
  exists content latency success error,
    make_request_without_fallback E exn_str cfg message 100 w
    = (Ok (content, latency, success, error), record (EvChat (request_of cfg message)) w)
    /\ latency = took E (length (log w))
    /\ match (make_cached_chat_request E cache cfg message false w).1 with
       | Ok (text, elapsed, _) =>
           content = Some text /\ elapsed = latency /\ success = true /\ error = None
       | Raise e =>
           content = None /\ success = false /\ error = Some (exn_str e)
       end.
Proof.
  rewrite request_bypass_eq.
  unfold make_request_without_fallback, upstream_outcome, mbind, M_bind,
    chat_completions_create, lift.
  fold (user_messages message). fold request_params. fold (request_of cfg message).
  destruct (llm E (length (log w)) (request_of cfg message)) as [response|e].
  - destruct (response_content response) as [text|e]; eexists _, _, _, _; by split_and!.
  - eexists _, _, _, _. by split_and!.
Qed.

(** ** Requests through a client made from a configuration *)

Section config_client_properties.
Context {F : Type} `{FloatOps F} {C : Type}.
Context (create : nat -> C -> pyval -> pyval -> Z -> result pyval).
Context (seconds : nat -> F) (exn_str : exn -> pystr).

(** [make_request_with_fallback] makes one request; what it returns is
    either a text with the flag [True] and no error, or no text with the
    flag [False] and the message of the exception: the callers may cut the
    text of a success and the error of a failure. *)
Lemma request_with_fallback_contract (config : C) message model max_tokens n :
  exists content latency success error,
    make_request_with_fallback create seconds exn_str config message model max_tokens n
    = ((content, latency, success, error), S n)
    /\ latency = seconds n
    /\ (if success
        then exists text,
               content = Some text /\ error = None
               /\ rbind (create n config model (user_messages message) max_tokens)
                    response_content = Ok text
               /\ forall k, slice_to content k = Ok (take k text)
        else exists e,
               content = None /\ error = Some (exn_str e)
               /\ rbind (create n config model (user_messages message) max_tokens)
                    response_content = Raise e
               /\ forall k, slice_to error k = Ok (take k (exn_str e))).
Proof.
  unfold make_request_with_fallback. fold (user_messages message).
  destruct (rbind _ response_content) as [text|e] eqn:Hr.
  - eexists _, _, true, _. split_and!; [done | done |]. by exists text.
  - eexists _, _, false, _. split_and!; [done | done |]. by exists e.
Qed.

(** X26. [make_request_with_loadbalance] never raises and makes one
    request, for the model ["llama3"].  On a success it returns the text
    and the provider: the header [x-portkey-provider] of the response, or
    ["unknown"] when the response has no headers or the headers have no
    such entry.  On a failure it returns no text and no provider, and the
    message of the exception. *)
Theorem request_with_loadbalance_contract (config : C) message max_tokens n :
  exists content latency success error provider,
    make_request_with_loadbalance create seconds exn_str config message max_tokens n
    = ((content, latency, success, error, provider), S n)
    /\ latency = seconds n
    /\ (if success
        then exists response text used,
               create n config (PStr (py "llama3")) (user_messages message) max_tokens
               = Ok response
               /\ response_content response = Ok text
               /\ provider_used response = Ok used
               /\ content = Some text /\ error = None /\ provider = Some used
               /\ (getattr response (py "_headers") = Raise AttributeError ->
                   used = PStr (py "unknown"))
               /\ (forall headers,
                     getattr response (py "_headers") = Ok (PDict headers) ->
                     used = match dict_get (py "x-portkey-provider") headers with
                            | Some v => v
                            | None => PStr (py "unknown")
                            end)
        else exists e, content = None /\ error = Some (exn_str e) /\ provider = None).
Proof.
  unfold make_request_with_loadbalance. fold (user_messages message).
  destruct (create n config (PStr (py "llama3")) (user_messages message) max_tokens)
    as [response|e] eqn:Hcreate; cbn [rbind].
  2:{ eexists _, _, false, _, _. split_and!; [done | done |]. by exists e. }
  destruct (response_content response) as [text|e] eqn:Htext; cbn [rbind].
  2:{ eexists _, _, false, _, _. split_and!; [done | done |]. by exists e. }
  destruct (provider_used response) as [used|e] eqn:Hused; cbn [rbind].
  2:{ eexists _, _, false, _, _. split_and!; [done | done |]. by exists e. }
  eexists _, _, true, _, _. split_and!; [done | done |].
  exists response, text, used. split_and!; try done.
  - intros Hh. unfold provider_used in Hused. rewrite Hh in Hused. by injection Hused.
  - intros headers Hh. unfold provider_used in Hused. rewrite Hh in Hused.
    destruct (dict_get _ headers); by injection Hused.
Qed.

End config_client_properties.

(** ** The stress test of the fallback demo *)

Section fallback_scenario_properties.
Context {F : Type} `{FloatOps F}.
Context (create : nat -> pyval -> pyval -> pyval -> Z -> result pyval).
Context (seconds : nat -> F) (exn_str : exn -> pystr).

Lemma stress_loop_spec config (messages : list pystr) : forall metrics n,
  exists calls,
    stress_loop create seconds exn_str config messages metrics n
    = (Ok (fold_left fallback_step calls metrics), n + length messages)
    /\ length calls = length messages
    /\ Forall (fun c => match c with
                        | FbSuccess _ used_fallback => used_fallback = false
                        | FbFailure _ => True
                        end) calls.
Proof.
  induction messages as [|msg rest IH]; intros metrics n.
  { exists []. cbn [stress_loop fold_left length]. by rewrite Nat.add_0_r. }
  cbn [stress_loop]. change (getitem_str OLLAMA_CONFIG (py "model")) with (Ok (PStr (py "llama3"))).
  cbn iota.
  destruct (request_with_fallback_contract create seconds exn_str config msg
              (PStr (py "llama3")) 100 n) as (content & latency & success & error & -> & _ & Hc).
  destruct success.
  - destruct Hc as (text & -> & -> & _ & _). cbn [slice_to].
    destruct (IH (FallbackMetrics.record_success metrics latency false) (S n))
      as (calls & -> & Hlen & Hall).
    exists (FbSuccess latency false :: calls). cbn [fold_left fallback_step length].
    split_and!; [f_equal; lia | by rewrite Hlen | by constructor].
  - destruct Hc as (e & -> & -> & _ & _). cbn [slice_to].
    destruct (IH (FallbackMetrics.record_failure metrics latency) (S n))
      as (calls & -> & Hlen & Hall).
    exists (FbFailure latency :: calls). cbn [fold_left fallback_step length].
    split_and!; [f_equal; lia | by rewrite Hlen | by constructor].
Qed.

Lemma fallback_never_triggered (calls : list (fallback_call F)) : forall m,
  Forall (fun c => match c with
                   | FbSuccess _ used_fallback => used_fallback = false
                   | FbFailure _ => True
                   end) calls ->
  FallbackMetrics.fallback_triggered (fold_left fallback_step calls m)
  = FallbackMetrics.fallback_triggered m.
Proof.
  induction calls as [|c calls IH]; intros m Hall; [done|].
  apply Forall_cons in Hall as [Hc Hall]. cbn [fold_left]. rewrite IH by done.
  destruct c as [l used|l]; [|done]. by rewrite Hc.
Qed.


End fallback_scenario_properties.
